(** * fst store engine: a shallow embedding of the writer and the reader

    The development follows [fstcore/interface/fststore.cpp] (the store
    engine: [ReadHeader], [SetKeyIndex], [FstStore::fstWrite],
    [FstStore::fstMeta], [FstStore::fstRead]), [fstcore/double/double_v9.cpp]
    (the DOUBLE_64 codec) and [interface/ifstcolumn.h] (the column enums).

    Buffers are lists of bytes, the raw pointers of the source are byte
    offsets into them, files are byte lists with a stream position, and the
    thrown [runtime_error]s are values of [FstError]. *)

From Stdlib Require Import String Ascii.
From Stdlib Require Import ZArith List Lia Bool.
From Stdlib Require Import Init.Byte.
From coqutil Require Import Word.LittleEndianList Byte.
Import ListNotations.
Local Open Scope Z_scope.

(** ** Byte buffers and raw-pointer access *)

Definition bytes := list byte.

(** The [len] bytes of [buf] that start at offset [off]. *)
Definition sub (buf : bytes) (off len : nat) : bytes :=
  firstn len (skipn off buf).

(** A write of [bs] through a pointer at offset [off] into [buf].  The buffer
    keeps its size: a write past its end is undefined in C++ and is clipped
    here. *)
Definition store (buf : bytes) (off : nat) (bs : bytes) : bytes :=
  firstn (length buf) (firstn off buf ++ bs ++ skipn (off + length bs) buf).

Definition to_u16 (z : Z) : Z := z mod 2 ^ 16.
Definition to_u32 (z : Z) : Z := z mod 2 ^ 32.
Definition to_u64 (z : Z) : Z := z mod 2 ^ 64.
Definition to_i16 (z : Z) : Z := (z + 2 ^ 15) mod 2 ^ 16 - 2 ^ 15.
Definition to_i32 (z : Z) : Z := (z + 2 ^ 31) mod 2 ^ 32 - 2 ^ 31.
Definition to_i64 (z : Z) : Z := (z + 2 ^ 63) mod 2 ^ 64 - 2 ^ 63.

(** [*reinterpret_cast<T*>(&buf[off]) = v] for a little-endian [T] of [w]
    bytes ([le_split] keeps the low [w] bytes of [v]). *)
Definition store_le (w : nat) (buf : bytes) (off : Z) (v : Z) : bytes :=
  store buf (Z.to_nat off) (le_split w v).

(** [*reinterpret_cast<T*>(&buf[off])] for an unsigned [T] of [w] bytes. *)
Definition load_le (w : nat) (buf : bytes) (off : Z) : Z :=
  le_combine (sub buf (Z.to_nat off) w).

Definition store_u16 := store_le 2.
Definition store_u32 := store_le 4.
Definition store_u64 := store_le 8.
Definition load_u16 := load_le 2.
Definition load_u32 := load_le 4.
Definition load_u64 := load_le 8.
Definition load_i16 (buf : bytes) (off : Z) : Z := to_i16 (load_le 2 buf off).
Definition load_i32 (buf : bytes) (off : Z) : Z := to_i32 (load_le 4 buf off).

(** [reinterpret_cast<char*>(doubleVector)]: a vector of 64-bit values seen
    as bytes, and back. *)
Definition bytes_of_u64s (v : list Z) : bytes := flat_map (le_split 8) v.

Fixpoint u64s_of_bytes (n : nat) (bs : bytes) : list Z :=
  match n with
  | O => []
  | S n' => le_combine (firstn 8 bs) :: u64s_of_bytes n' (skipn 8 bs)
  end.

(** ** Errors

    One constructor per [runtime_error] thrown by the engine, named after the
    error kinds of the specification. *)

Inductive FstError :=
| CannotOpenRead      (* FSTERROR_ERROR_OPEN_READ *)
| CannotOpenWrite     (* FSTERROR_ERROR_OPEN_WRITE *)
| CannotOpenFile      (* FSTERROR_ERROR_OPENING_FILE *)
| NonFstFile          (* FSTERROR_NON_FST_FILE *)
| UpdateRequired      (* FSTERROR_UPDATE_FST *)
| DamagedHeader       (* FSTERROR_DAMAGED_HEADER *)
| DamagedChunkIndex   (* FSTERROR_DAMAGED_CHUNKINDEX *)
| NoData              (* FSTERROR_NO_DATA *)
| EmptyTable          (* "Your dataset needs at least one column." *)
| ColumnNotFound      (* "Selected column not found." *)
| ColumnOutOfRange    (* "Column selection is out of range." *)
| NegativeRow         (* "Parameter fromRow should have a positive value." *)
| RowOutOfRange       (* "Row selection is out of range." *)
| BadRange            (* "Incorrect row range specified." *)
| UnknownType         (* "Unknown type found in column." *)
| WriteFailed.        (* "There was an error during the write operation, ..." *)

Definition Result (A : Type) : Type := (FstError + A)%type.

Definition bind {A B : Type} (r : Result A) (k : A -> Result B) : Result B :=
  match r with
  | inl e => inl e
  | inr a => k a
  end.

Notation "x <- r ;; k" := (bind r (fun x => k))
  (at level 61, r at next level, right associativity).
Notation "' p <- r ;; k" := (bind r (fun x => match x with p => k end))
  (at level 61, p pattern, r at next level, right associativity).

(** ** Column enums of [interface/ifstcolumn.h] *)

Inductive FstColumnType :=
| UNKNOWN | CHARACTER | FACTOR | INT_32 | DOUBLE_64 | BOOL_2 | INT_64 | BYTE.

(** [static_cast<unsigned short int>(colType)]: [UNKNOWN = 1], then counting
    up. *)
Definition FstColumnType_value (t : FstColumnType) : Z :=
  match t with
  | UNKNOWN => 1 | CHARACTER => 2 | FACTOR => 3 | INT_32 => 4
  | DOUBLE_64 => 5 | BOOL_2 => 6 | INT_64 => 7 | BYTE => 8
  end.

Inductive FstColumnAttribute :=
| NONE
| CHARACTER_BASE
| FACTOR_BASE
| FACTOR_ORDERED
| INT_32_BASE
| INT_32_TIMESTAMP_SECONDS
| INT_32_TIMEINTERVAL_SECONDS
| INT_32_DATE_DAYS
| INT_32_TIME_OF_DAY_SECONDS
| DOUBLE_64_BASE
| DOUBLE_64_DATE_DAYS
| DOUBLE_64_TIMESTAMP_SECONDS
| DOUBLE_64_TIMEINTERVAL_SECONDS
| DOUBLE_64_TIME_OF_DAY_SECONDS
| BOOL_2_BASE
| INT_64_BASE
| INT_64_TIME_SECONDS
| BYTE_BASE.

(** [NONE = 1], then counting up. *)
Definition FstColumnAttribute_value (a : FstColumnAttribute) : Z :=
  match a with
  | NONE => 1
  | CHARACTER_BASE => 2
  | FACTOR_BASE => 3
  | FACTOR_ORDERED => 4
  | INT_32_BASE => 5
  | INT_32_TIMESTAMP_SECONDS => 6
  | INT_32_TIMEINTERVAL_SECONDS => 7
  | INT_32_DATE_DAYS => 8
  | INT_32_TIME_OF_DAY_SECONDS => 9
  | DOUBLE_64_BASE => 10
  | DOUBLE_64_DATE_DAYS => 11
  | DOUBLE_64_TIMESTAMP_SECONDS => 12
  | DOUBLE_64_TIMEINTERVAL_SECONDS => 13
  | DOUBLE_64_TIME_OF_DAY_SECONDS => 14
  | BOOL_2_BASE => 15
  | INT_64_BASE => 16
  | INT_64_TIME_SECONDS => 17
  | BYTE_BASE => 18
  end.

(** Modelled from the spec: the string encoding tag of
    [interface/istringwriter.h], which is not part of the sources at hand;
    the specification names the three tags NATIVE, UTF8 and LATIN1. *)
Inductive StringEncoding := NATIVE | LATIN1 | UTF8.

(** Modelled from the spec: the compression algorithms and the compressor
    objects of [compression/compressor.h], which is not part of the sources
    at hand.  The constructors take the arguments that
    [fdsWriteRealVec_v9] passes to the C++ constructors. *)
Inductive CompAlgo := ALGO_NONE | LZ4 | ZSTD.

Inductive Compressor :=
| SingleCompressor (algo : CompAlgo) (level : Z).

Inductive StreamCompressor :=
| StreamLinearCompressor (compress1 : Compressor) (compressionLevel : Z)
| StreamCompositeCompressor (compress1 compress2 : Compressor) (ratio : Z).

(** ** The format constants of [interface/fstdefines.h] *)

(** Modelled from the spec: [interface/fstdefines.h] is not part of the
    sources at hand.  The four record sizes are the ones the specification
    and the layout comments at the head of [fststore.cpp] give. *)
Definition TABLE_META_SIZE : Z := 44.
Definition CHUNKSET_HEADER_SIZE : Z := 76.
Definition CHUNK_INDEX_SIZE : Z := 96.
Definition DATA_INDEX_SIZE : Z := 24.

(** ** Host objects: the table to write and the table read back *)

(** The data a column hands to its writer: the vector behind
    [GetIntWriter], [GetDoubleWriter], ... or the strings and the encoding
    behind an [IStringWriter].  The constructor is the [FstColumnType] that
    [IFstTable::ColumnType] reports.  A [double] is its 64-bit pattern. *)
Inductive ColumnData :=
| UnknownData
| CharacterData (strs : list string) (encoding : StringEncoding)
| FactorData (levels : list Z) (levelNames : list string)
             (encoding : StringEncoding)
| Int32Data (v : list Z)
| DoubleData (v : list Z)
| LogicalData (v : list Z)
| Int64Data (v : list Z)
| ByteData (v : bytes).

Definition ColumnData_type (d : ColumnData) : FstColumnType :=
  match d with
  | UnknownData => UNKNOWN
  | CharacterData _ _ => CHARACTER
  | FactorData _ _ _ => FACTOR
  | Int32Data _ => INT_32
  | DoubleData _ => DOUBLE_64
  | LogicalData _ => BOOL_2
  | Int64Data _ => INT_64
  | ByteData _ => BYTE
  end.

Record Column := {
  colName : string;
  colAttribute : FstColumnAttribute;
  colScale : Z;
  colAnnotation : string;
  colData : ColumnData
}.

(** [IFstTable] as the writer sees it. *)
Record IFstTable := {
  NrOfRows : Z;
  KeyColumns : list Z;
  Columns : list Column
}.

Definition NrOfColumns (t : IFstTable) : Z := Z.of_nat (length (Columns t)).
Definition NrOfKeys (t : IFstTable) : Z := Z.of_nat (length (KeyColumns t)).

(** What the reader hands to [tableReader.Set...Column]: the column made by
    the factory ([Create...Column(length, attribute [, scale])]), filled by
    the codec, and the annotation when the setter takes one. *)
Record ReadColumn := {
  rAttribute : Z;
  rScale : option Z;
  rAnnotation : option string;
  rData : ColumnData
}.

(** [IFstTable] as the reader fills it: [InitTable(nrOfSelect, length)] and
    the columns set at positions [0 .. nrOfSelect). *)
Record ReadTable := {
  rNrOfSelect : Z;
  rLength : Z;
  rColumns : list ReadColumn
}.

(** The outputs of [fstRead]: the table, [keyIndex] and [selectedCols]. *)
Record ReadOutput := {
  outTable : ReadTable;
  outKeyIndex : list Z;
  outSelectedCols : list string
}.

(** ** What the engine takes from outside

    The values of [FST_VERSION], [FST_HASH_SEED], [BLOCKSIZE_REAL] and
    [BATCH_SIZE_READ_DOUBLE] ([fstdefines.h]), the hash [XXH64], the bytes a
    fresh [new char[n]] holds (indeterminate in C++), and the column codecs
    and block streamer the engine calls but which are not part of the
    sources at hand.  A writing codec is the byte sequence it appends at the
    stream position; a reading codec is a function of the file contents and
    of the arguments of the C++ function.  [fdsReadCharVec_v6] also returns
    the stream position it leaves behind, which [fstRead] relies on. *)
Class Env := {
  FST_VERSION : Z;
  FST_HASH_SEED : Z;
  BLOCKSIZE_REAL : Z;
  BATCH_SIZE_READ_DOUBLE : Z;
  XXH64 : bytes -> Z -> Z;
  uninit : nat -> bytes;
  fdsWriteCharVec_v6 :
    list string -> Z -> StringEncoding -> bytes;
  fdsReadCharVec_v6 :
    bytes -> Z -> Z -> Z -> Z -> list string * StringEncoding * Z;
  fdsWriteFactorVec_v7 :
    list Z -> list string -> Z -> Z -> StringEncoding -> string -> bytes;
  fdsReadFactorVec_v7 :
    bytes -> Z -> Z -> Z -> Z -> list string * StringEncoding * list Z;
  fdsWriteIntVec_v8 : list Z -> Z -> Z -> string -> bytes;
  fdsReadIntVec_v8 : bytes -> Z -> Z -> Z -> Z -> list Z * string;
  fdsStreamUncompressed_v2 : bytes -> Z -> Z -> Z -> string -> bytes;
  fdsStreamcompressed_v2 :
    bytes -> Z -> Z -> StreamCompressor -> Z -> string -> bytes;
  fdsReadColumn_v2 :
    bytes -> Z -> Z -> Z -> Z -> Z -> Z -> bytes * string;
  fdsWriteLogicalVec_v10 : list Z -> Z -> Z -> string -> bytes;
  fdsReadLogicalVec_v10 : bytes -> Z -> Z -> Z -> Z -> list Z;
  fdsWriteInt64Vec_v11 : list Z -> Z -> Z -> string -> bytes;
  fdsReadInt64Vec_v11 : bytes -> Z -> Z -> Z -> Z -> list Z;
  fdsWriteByteVec_v12 : bytes -> Z -> Z -> string -> bytes;
  fdsReadByteVec_v12 : bytes -> Z -> Z -> Z -> Z -> bytes
}.

(** ** Streams and the file *)

(** The file behind [fstFile]: its contents when it exists, and whether it
    can be opened for writing. *)
Record FileSystem := {
  fileData : option bytes;
  canWrite : bool
}.

Record ofstream := {
  o_content : bytes;
  o_pos : nat;
  o_fail : bool
}.

(** [content] with [bs] written at position [pos]; a gap left by a seek past
    the end reads as zero bytes. *)
Definition put (content : bytes) (pos : nat) (bs : bytes) : bytes :=
  firstn pos (content ++ repeat x00%byte (pos - length content))
    ++ bs ++ skipn (pos + length bs) content.

Definition o_write (s : ofstream) (bs : bytes) : ofstream :=
  if o_fail s then s
  else {| o_content := put (o_content s) (o_pos s) bs;
          o_pos := (o_pos s + length bs)%nat;
          o_fail := false |}.

Definition seekp (s : ofstream) (pos : Z) : ofstream :=
  if o_fail s then s
  else {| o_content := o_content s; o_pos := Z.to_nat pos; o_fail := false |}.

Definition tellp (s : ofstream) : Z :=
  if o_fail s then -1 else Z.of_nat (o_pos s).

(** [myfile.open(fstFile, ios::out | ios::binary)]: the file is truncated
    when it can be opened. *)
Definition open_out (fs : FileSystem) : ofstream :=
  {| o_content := []; o_pos := 0%nat; o_fail := negb (canWrite fs) |}.

(** The file once the stream is closed. *)
Definition close_out (fs : FileSystem) (s : ofstream) : FileSystem :=
  {| fileData := Some (o_content s); canWrite := canWrite fs |}.

Record ifstream := {
  i_content : bytes;
  i_pos : nat;
  i_fail : bool
}.

(** [myfile.read(buf, n)] into the buffer [buf]: the bytes extracted
    overwrite the head of [buf]; fewer than [n] bytes set the fail bit, and a
    failed stream extracts nothing. *)
Definition i_read (s : ifstream) (buf : bytes) (n : nat) : bytes * ifstream :=
  if i_fail s then (buf, s)
  else
    let got := sub (i_content s) (i_pos s) n in
    (store buf 0 got,
     {| i_content := i_content s;
        i_pos := (i_pos s + length got)%nat;
        i_fail := (length got <? n)%nat |}).

Definition seekg (s : ifstream) (pos : Z) : ifstream :=
  {| i_content := i_content s; i_pos := Z.to_nat pos; i_fail := i_fail s |}.

(** [myfile.open(fstFile, ios::in | ios::binary)]. *)
Definition open_in (fs : FileSystem) : ifstream :=
  match fileData fs with
  | Some content => {| i_content := content; i_pos := 0%nat; i_fail := false |}
  | None => {| i_content := []; i_pos := 0%nat; i_fail := true |}
  end.

(** [strcmp] on C strings: zero exactly when the two strings are equal,
    negative or positive by the order of the strings otherwise. *)
Definition strcmp (str1 str2 : string) : Z :=
  if String.eqb str1 str2 then 0
  else match String.compare str1 str2 with
       | Lt => -1
       | _ => 1
       end.

(** ** The key remap, [SetKeyIndex] *)

(** The inner loop [for (; colSel < nrOfSelect; ++colSel)] with [remaining]
    iterations to go: the vector after the loop and the value of [colSel]
    when it is left (by [break], or because the count is used up). *)
Fixpoint SetKeyIndex_inner (remaining : nat) (colSel : Z) (keyIndex : list Z)
    (key : Z) (colIndex : list Z) : list Z * Z :=
  match remaining with
  | O => (keyIndex, colSel)
  | S remaining' =>
      if key =? nth (Z.to_nat colSel) colIndex 0
      then (keyIndex ++ [colSel], colSel)
      else SetKeyIndex_inner remaining' (colSel + 1) keyIndex key colIndex
  end.

(** The outer loop [for (int i = 0; i < keyLength; ++i)]. *)
Fixpoint SetKeyIndex_outer (remaining : nat) (i : Z) (keyIndex : list Z)
    (nrOfSelect : Z) (keyColPos colIndex : list Z) : list Z :=
  match remaining with
  | O => keyIndex
  | S remaining' =>
      let '(keyIndex', colSel) :=
        SetKeyIndex_inner (Z.to_nat nrOfSelect) 0 keyIndex
          (nth (Z.to_nat i) keyColPos 0) colIndex in
      if colSel =? nrOfSelect then keyIndex'
      else SetKeyIndex_outer remaining' (i + 1) keyIndex' nrOfSelect
             keyColPos colIndex
  end.

Definition SetKeyIndex (keyIndex : list Z) (keyLength nrOfSelect : Z)
    (keyColPos colIndex : list Z) : list Z :=
  SetKeyIndex_outer (Z.to_nat keyLength) 0 keyIndex nrOfSelect
    keyColPos colIndex.

(** The key remap in the words of the specification (section 4.7): for each
    key in order, find [j] with [keyColPos[i] == colIndex[j]]; if there is
    none, stop; otherwise push [j]. *)
Fixpoint first_index (key : Z) (colIndex : list Z) (j : Z) : option Z :=
  match colIndex with
  | [] => None
  | c :: rest => if key =? c then Some j else first_index key rest (j + 1)
  end.

Fixpoint key_remap (keyColPos colIndex : list Z) : list Z :=
  match keyColPos with
  | [] => []
  | key :: rest =>
      match first_index key colIndex 0 with
      | None => []
      | Some j => j :: key_remap rest colIndex
      end
  end.

Section Engine.
Context {E : Env}.

(** The hash of a header record: [XXH64(ptr, len, FST_HASH_SEED)] as an
    [unsigned long long]. *)
Definition header_hash (bs : bytes) : Z := to_u64 (XXH64 bs FST_HASH_SEED).

(** [new char[n]] (and an uninitialised [char] array): [n] bytes of
    indeterminate contents. *)
Definition new_char (n : Z) : bytes :=
  let k := Z.to_nat n in firstn k (uninit k ++ repeat x00%byte k).

(** ** The DOUBLE_64 codec, [double_v9.cpp] *)

(** [streamCompressor->CompressBufferSize(blockSize)].
    Modelled from the spec: the method belongs to [compression/compressor.h],
    which is not part of the sources at hand; it sizes the scratch buffer of
    the compressor and leaves the strategy as it is. *)
Definition CompressBufferSize (streamCompressor : StreamCompressor)
    (blockSize : Z) : StreamCompressor := streamCompressor.

Definition fdsWriteRealVec_v9 (doubleVector : list Z) (nrOfRows : Z)
    (compression : Z) (annotation : string) : bytes :=
  let blockSize := 8 * BLOCKSIZE_REAL in
  if compression =? 0 then
    fdsStreamUncompressed_v2 (bytes_of_u64s doubleVector) nrOfRows 8
      BLOCKSIZE_REAL annotation
  else if compression <=? 50 then
    let compress1 := SingleCompressor LZ4 (to_u32 (2 * compression)) in
    let streamCompressor :=
      StreamLinearCompressor compress1 (to_u32 (2 * compression)) in
    let streamCompressor := CompressBufferSize streamCompressor blockSize in
    fdsStreamcompressed_v2 (bytes_of_u64s doubleVector) nrOfRows 8
      streamCompressor BLOCKSIZE_REAL annotation
  else
    let compress1 := SingleCompressor LZ4 100 in
    let compress2 := SingleCompressor ZSTD 20 in
    let streamCompressor :=
      StreamCompositeCompressor compress1 compress2
        (to_u32 (2 * (compression - 50))) in
    let streamCompressor := CompressBufferSize streamCompressor blockSize in
    fdsStreamcompressed_v2 (bytes_of_u64s doubleVector) nrOfRows 8
      streamCompressor BLOCKSIZE_REAL annotation.

Definition fdsReadRealVec_v9 (myfile : bytes) (blockPos startRow length size : Z)
    : list Z * string :=
  let '(buf, annotation) :=
    fdsReadColumn_v2 myfile blockPos startRow length size 8
      BATCH_SIZE_READ_DOUBLE in
  (u64s_of_bytes (Z.to_nat length) buf, annotation).

(** ** [ReadHeader] *)

(** Returns [*p_tableVersionMax], [keyLength], [nrOfColsFirstChunk] and the
    stream after the read. *)
Definition ReadHeader (myfile : ifstream) : Result (Z * Z * Z * ifstream) :=
  let '(tableMeta, myfile) :=
    i_read myfile (new_char TABLE_META_SIZE) (Z.to_nat TABLE_META_SIZE) in
  if i_fail myfile then inl CannotOpenRead
  else
    let p_headerHash := 0 in
    let p_tableVersionMax := 24 in
    let p_nrOfCols := 28 in
    let p_keyLength := 40 in
    (* check header hash *)
    let hHash :=
      header_hash (sub tableMeta 8 (Z.to_nat (TABLE_META_SIZE - 8))) in
    if negb (hHash =? load_u64 tableMeta p_headerHash) then inl NonFstFile
    (* compare file version with current *)
    else if load_u32 tableMeta p_tableVersionMax >? to_u32 FST_VERSION
    then inl UpdateRequired
    else inr (load_u32 tableMeta p_tableVersionMax,
              load_i32 tableMeta p_keyLength,
              load_i32 tableMeta p_nrOfCols,
              myfile).

(** ** [FstStore::fstWrite] *)

(** The buffers and the stream the column loop works on. *)
Record WriteState := {
  w_metaDataBlock : bytes;
  w_chunkIndex : bytes;
  w_myfile : ofstream
}.

(** One turn of the column loop for column [colNr].  [offset] is the start of
    the chunkset header in [metaDataBlock]; [positionData] starts at byte 120
    of [chunkIndex].  The error, if any, comes with the state at the throw. *)
Definition write_column (offset nrOfCols nrOfRows compress : Z)
    (colNr : Z) (col : Column) (st : WriteState)
    : option FstError * WriteState :=
  let colAttributeTypes := offset + 76 in
  let colTypes := offset + 76 + 2 * nrOfCols in
  let colBaseTypes := offset + 76 + 4 * nrOfCols in
  let colScales := offset + 76 + 6 * nrOfCols in
  let positionData := 120 in
  let myfile := w_myfile st in
  let chunkIndex :=
    store_u64 (w_chunkIndex st) (positionData + 8 * colNr) (tellp myfile) in
  (* get type and add annotation *)
  let colType := ColumnData_type (colData col) in
  let colAttribute := colAttribute col in
  let scale := colScale col in
  let annotation := colAnnotation col in
  let metaDataBlock :=
    store_u16 (w_metaDataBlock st) (colBaseTypes + 2 * colNr)
      (FstColumnType_value colType) in
  let metaDataBlock :=
    store_u16 metaDataBlock (colAttributeTypes + 2 * colNr)
      (FstColumnAttribute_value colAttribute) in
  let metaDataBlock :=
    store_u16 metaDataBlock (colScales + 2 * colNr) scale in
  let written (code : Z) (payload : bytes) :=
    (None,
     {| w_metaDataBlock := store_u16 metaDataBlock (colTypes + 2 * colNr) code;
        w_chunkIndex := chunkIndex;
        w_myfile := o_write myfile payload |}) in
  match colData col with
  | CharacterData strs encoding =>
      written 6 (fdsWriteCharVec_v6 strs compress encoding)
  | FactorData intP levelNames encoding =>
      written 7 (fdsWriteFactorVec_v7 intP levelNames nrOfRows
                   (to_u32 compress) encoding annotation)
  | Int32Data intP =>
      written 8 (fdsWriteIntVec_v8 intP nrOfRows (to_u32 compress) annotation)
  | DoubleData doubleP =>
      written 9 (fdsWriteRealVec_v9 doubleP nrOfRows (to_u32 compress)
                   annotation)
  | LogicalData intP =>
      written 10 (fdsWriteLogicalVec_v10 intP nrOfRows (to_u32 compress)
                    annotation)
  | Int64Data intP =>
      written 11 (fdsWriteInt64Vec_v11 intP nrOfRows (to_u32 compress)
                    annotation)
  | ByteData byteP =>
      written 12 (fdsWriteByteVec_v12 byteP nrOfRows (to_u32 compress)
                    annotation)
  | UnknownData =>
      (Some UnknownType,
       {| w_metaDataBlock := metaDataBlock;
          w_chunkIndex := chunkIndex;
          w_myfile := myfile |})
  end.

(** The column loop [for (int colNr = 0; colNr < nrOfCols; ++colNr)], over
    the columns still to write. *)
Fixpoint write_columns (offset nrOfCols nrOfRows compress : Z)
    (colNr : Z) (cols : list Column) (st : WriteState)
    : option FstError * WriteState :=
  match cols with
  | [] => (None, st)
  | col :: rest =>
      match write_column offset nrOfCols nrOfRows compress colNr col st with
      | (Some e, st') => (Some e, st')
      | (None, st') =>
          write_columns offset nrOfCols nrOfRows compress (colNr + 1) rest st'
      end
  end.

(** "Set table header parameters": the fields of the table header [node A]
    at the head of [metaDataBlock], and its hash. *)
Definition set_table_header (fstTable : IFstTable) (metaDataBlock : bytes)
    : bytes :=
  let nrOfCols := NrOfColumns fstTable in
  let keyLength := NrOfKeys fstTable in
  let tableHeaderSize := 44 in
  let p_headerHash := 0 in
  let p_tableVersion := 8 in
  let p_tableFlags := 12 in
  let p_freeBytes1 := 16 in
  let p_tableVersionMax := 24 in
  let p_nrOfCols := 28 in
  let primaryChunkSetLoc := 32 in
  let p_keyLength := 40 in
  let metaDataBlock := store_u32 metaDataBlock p_tableVersion FST_VERSION in
  let metaDataBlock := store_u32 metaDataBlock p_tableFlags 0 in
  let metaDataBlock := store_u64 metaDataBlock p_freeBytes1 0 in
  let metaDataBlock := store_u32 metaDataBlock p_tableVersionMax FST_VERSION in
  let metaDataBlock := store_u32 metaDataBlock p_nrOfCols nrOfCols in
  let metaDataBlock :=
    store_u64 metaDataBlock primaryChunkSetLoc (52 + 4 * keyLength) in
  let metaDataBlock := store_u32 metaDataBlock p_keyLength keyLength in
  store_u64 metaDataBlock p_headerHash
    (header_hash (sub metaDataBlock 8 (Z.to_nat (tableHeaderSize - 8)))).

(** "Set key index if present": [fstTable.GetKeyColumns(keyColPos)] copies
    the key columns to [keyColPos], then the hash of the key index. *)
Definition set_key_index (fstTable : IFstTable) (keyIndexHeaderSize : Z)
    (metaDataBlock : bytes) : bytes :=
  let keyLength := NrOfKeys fstTable in
  let tableHeaderSize := 44 in
  let p_keyIndexHash := 44 in
  let keyColPos := 52 in
  if negb (keyLength =? 0) then
    let metaDataBlock :=
      store metaDataBlock (Z.to_nat keyColPos)
        (flat_map (le_split 4) (KeyColumns fstTable)) in
    store_u64 metaDataBlock p_keyIndexHash
      (header_hash (sub metaDataBlock (Z.to_nat (tableHeaderSize + 8))
                      (Z.to_nat (keyIndexHeaderSize - 8))))
  else metaDataBlock.

(** The fields of the chunkset header [node C], which starts at [offset];
    its column arrays are filled by the column loop and its hash is set at
    the end. *)
Definition set_chunkset_header (fstTable : IFstTable) (offset : Z)
    (metaDataBlock : bytes) : bytes :=
  let nrOfCols := NrOfColumns fstTable in
  let p_chunksetHeaderVersion := offset + 8 in
  let p_chunksetFlags := offset + 12 in
  let p_freeBytes2 := offset + 16 in
  let p_freeBytes3 := offset + 24 in
  let p_colNamesPos := offset + 32 in
  let p_nextHorzChunkSet := offset + 40 in
  let p_primChunksetIndex := offset + 48 in
  let p_secChunksetIndex := offset + 56 in
  let p_nrOfRows := offset + 64 in
  let p_nrOfChunksetCols := offset + 72 in
  let metaDataBlock :=
    store_u32 metaDataBlock p_chunksetHeaderVersion FST_VERSION in
  let metaDataBlock := store_u32 metaDataBlock p_chunksetFlags 0 in
  let metaDataBlock := store_u64 metaDataBlock p_freeBytes2 0 in
  let metaDataBlock := store_u64 metaDataBlock p_freeBytes3 0 in
  let metaDataBlock := store_u64 metaDataBlock p_colNamesPos 0 in
  let metaDataBlock := store_u64 metaDataBlock p_nextHorzChunkSet 0 in
  let metaDataBlock := store_u64 metaDataBlock p_primChunksetIndex 0 in
  let metaDataBlock := store_u64 metaDataBlock p_secChunksetIndex 0 in
  let nrOfRows := to_u64 (NrOfRows fstTable) in
  let metaDataBlock := store_u64 metaDataBlock p_nrOfRows nrOfRows in
  store_u32 metaDataBlock p_nrOfChunksetCols nrOfCols.

(** "Set column names header": the fields of the column names header, which
    starts at [offset]; its hash is set after the check of the row count. *)
Definition set_colnames_header (offset : Z) (metaDataBlock : bytes) : bytes :=
  let p_colNamesVersion := offset + 8 in
  let p_colNamesFlags := offset + 12 in
  let p_freeBytes4 := offset + 16 in
  let metaDataBlock := store_u32 metaDataBlock p_colNamesVersion FST_VERSION in
  let metaDataBlock := store_u32 metaDataBlock p_colNamesFlags 0 in
  store_u64 metaDataBlock p_freeBytes4 0.

(** "Set chunkset data index header parameters" and "Set data chunk header
    parameters": the fields of the chunk index [node D] and of the data chunk
    header [node E] that are known before the columns are written.  Of the
    four slots of [chunkPos] (bytes 32 to 63) and of [chunkRows] (bytes 64 to
    95) only the first one of [chunkRows] is assigned here. *)
Definition set_chunk_headers (nrOfRows : Z) (chunkIndex : bytes) : bytes :=
  let p_chunkIndexVersion := 8 in
  let p_chunkIndexFlags := 12 in
  let p_freeBytes5 := 16 in
  let p_nrOfChunkSlots := 24 in
  let p_freeBytes6 := 26 in
  let p_chunkRows := 64 in
  let p_chunkDataVersion := 104 in
  let p_chunkDataFlags := 108 in
  let p_freeBytes7 := 112 in
  let chunkIndex := store_u32 chunkIndex p_chunkIndexVersion FST_VERSION in
  let chunkIndex := store_u32 chunkIndex p_chunkIndexFlags 0 in
  let chunkIndex := store_u64 chunkIndex p_freeBytes5 0 in
  let chunkIndex := store_u16 chunkIndex p_nrOfChunkSlots 4 in
  let chunkIndex := store_u16 chunkIndex (p_freeBytes6 + 4) 0 in
  let chunkIndex := store_u16 chunkIndex (p_freeBytes6 + 2) 0 in
  let chunkIndex := store_u16 chunkIndex p_freeBytes6 0 in
  let chunkIndex := store_u64 chunkIndex p_chunkRows nrOfRows in
  let chunkIndex := store_u32 chunkIndex p_chunkDataVersion FST_VERSION in
  let chunkIndex := store_u32 chunkIndex p_chunkDataFlags 0 in
  store_u64 chunkIndex p_freeBytes7 0.

(** After the column loop: "update chunk position data", "Calculate header
    hashes", the two rewrites of the headers, and the check of the stream. *)
Definition finish_write (fs : FileSystem) (nrOfCols : Z)
    (tableHeaderSize keyIndexHeaderSize chunksetHeaderSize chunkIndexSize : Z)
    (st : WriteState) : Result unit * FileSystem :=
  let metaDataBlock := w_metaDataBlock st in
  let chunkIndex := w_chunkIndex st in
  let myfile := w_myfile st in
  let p_chunksetHash := to_u32 (tableHeaderSize + keyIndexHeaderSize) in
  let p_chunkIndexHash := 0 in
  let p_chunkPos := 32 in
  let p_chunkDataHash := 96 in
  let positionData := 120 in
  (* update chunk position data *)
  let chunkIndex :=
    store_u64 chunkIndex p_chunkPos
      (to_u64 (load_u64 chunkIndex positionData - 8 * nrOfCols
               - DATA_INDEX_SIZE)) in
  (* calculate header hashes *)
  let metaDataBlock :=
    store_u64 metaDataBlock p_chunksetHash
      (header_hash
         (sub metaDataBlock
            (Z.to_nat (tableHeaderSize + keyIndexHeaderSize + 8))
            (Z.to_nat (chunksetHeaderSize - 8)))) in
  let chunkIndex :=
    store_u64 chunkIndex p_chunkIndexHash
      (header_hash (sub chunkIndex 8 (Z.to_nat (CHUNK_INDEX_SIZE - 8)))) in
  let myfile := seekp myfile 0 in
  let myfile := o_write myfile metaDataBlock in
  let chunkIndex :=
    store_u64 chunkIndex p_chunkDataHash
      (header_hash
         (sub chunkIndex (Z.to_nat (CHUNK_INDEX_SIZE + 8))
            (Z.to_nat (chunkIndexSize - (CHUNK_INDEX_SIZE + 8))))) in
  let myfile :=
    seekp myfile (to_u64 (load_u64 chunkIndex p_chunkPos - CHUNK_INDEX_SIZE)) in
  let myfile := o_write myfile chunkIndex in
  (* check file status only here *)
  if o_fail myfile then (inl WriteFailed, close_out fs myfile)
  else (inr tt, close_out fs myfile).

Definition fstWrite (fs : FileSystem) (fstTable : IFstTable) (compress : Z)
    : Result unit * FileSystem :=
  (* meta on dataset *)
  let nrOfCols := NrOfColumns fstTable in
  let keyLength := NrOfKeys fstTable in
  if nrOfCols =? 0 then (inl EmptyTable, fs)
  else
    let tableHeaderSize := 44 in
    let keyIndexHeaderSize :=
      if negb (keyLength =? 0) then to_u64 (4 * (keyLength + 2)) else 0 in
    let chunksetHeaderSize := to_u64 (CHUNKSET_HEADER_SIZE + 8 * nrOfCols) in
    let colNamesHeaderSize := 24 in
    (* size of fst file header *)
    let metaDataSize :=
      to_u64 (tableHeaderSize + keyIndexHeaderSize + chunksetHeaderSize
              + colNamesHeaderSize) in
    let metaDataBlock := new_char metaDataSize in
    (* chunkset header [node C] starts at offset *)
    let offset := to_u32 (tableHeaderSize + keyIndexHeaderSize) in
    (* column names [leaf to C] start at offset' *)
    let offset' := to_u32 (offset + chunksetHeaderSize) in
    let p_colNamesHash := offset' in
    let p_colNamesVersion := offset' + 8 in
    let metaDataBlock := set_table_header fstTable metaDataBlock in
    let metaDataBlock :=
      set_key_index fstTable keyIndexHeaderSize metaDataBlock in
    let metaDataBlock := set_chunkset_header fstTable offset metaDataBlock in
    let nrOfRows := to_u64 (NrOfRows fstTable) in
    let metaDataBlock := set_colnames_header offset' metaDataBlock in
    if nrOfRows =? 0 then (inl NoData, fs)
    else
      let metaDataBlock :=
        store_u64 metaDataBlock p_colNamesHash
          (header_hash (sub metaDataBlock (Z.to_nat p_colNamesVersion)
                          (Z.to_nat (colNamesHeaderSize - 8)))) in
      (* open file with default buffer *)
      let myfile := open_out fs in
      if o_fail myfile then (inl CannotOpenWrite, fs)
      else
        (* write table meta information *)
        let myfile := o_write myfile metaDataBlock in
        (* serialize column names *)
        let myfile :=
          o_write myfile
            (fdsWriteCharVec_v6 (map colName (Columns fstTable)) 0 NATIVE) in
        (* size of chunkset index header plus data chunk header *)
        let chunkIndexSize :=
          to_u64 (CHUNK_INDEX_SIZE + DATA_INDEX_SIZE + 8 * nrOfCols) in
        let chunkIndex := new_char chunkIndexSize in
        let chunkIndex := set_chunk_headers nrOfRows chunkIndex in
        (* row and column meta data *)
        let myfile := o_write myfile chunkIndex in
        (* column data *)
        match write_columns offset nrOfCols nrOfRows compress 0
                (Columns fstTable)
                {| w_metaDataBlock := metaDataBlock;
                   w_chunkIndex := chunkIndex;
                   w_myfile := myfile |} with
        | (Some e, st) => (inl e, close_out fs (w_myfile st))
        | (None, st) =>
            finish_write fs nrOfCols tableHeaderSize keyIndexHeaderSize
              chunksetHeaderSize chunkIndexSize st
        end.

(** ** [FstStore::fstMeta] *)

(** An array of [n] [unsigned short int] at offset [off] of [buf]. *)
Definition array_u16 (buf : bytes) (off n : Z) : list Z :=
  map (fun i => load_u16 buf (off + 2 * Z.of_nat i)) (seq 0 (Z.to_nat n)).

(** An array of [n] [int] at offset [off] of [buf]. *)
Definition array_i32 (buf : bytes) (off n : Z) : list Z :=
  map (fun i => load_i32 buf (off + 4 * Z.of_nat i)) (seq 0 (Z.to_nat n)).

(** The members of [FstStore] that [fstMeta] sets. *)
Record MetaData := {
  m_version : Z;
  m_keyLength : Z;
  m_nrOfCols : Z;
  m_keyColPos : list Z;
  m_nrOfRows : Z;
  m_colAttributeTypes : list Z;
  m_colTypes : list Z;
  m_colBaseTypes : list Z;
  m_colScales : list Z;
  m_blockReader : list string
}.

Definition fstMeta (fs : FileSystem) : Result MetaData :=
  let myfile := open_in fs in
  if i_fail myfile then inl CannotOpenFile
  else
    (* read variables from fst file header and check header hash *)
    '(version, keyLength, nrOfCols, myfile) <- ReadHeader myfile ;;
    let keyIndexHeaderSize :=
      if negb (keyLength =? 0) then to_u64 (4 * (keyLength + 2)) else 0 in
    let chunksetHeaderSize := to_u64 (CHUNKSET_HEADER_SIZE + 8 * nrOfCols) in
    let colNamesHeaderSize := 24 in
    let metaSize :=
      to_u64 (keyIndexHeaderSize + chunksetHeaderSize + colNamesHeaderSize) in
    (* read format headers *)
    let '(metaDataBlock, myfile) :=
      i_read myfile (new_char metaSize) (Z.to_nat metaSize) in
    if negb (keyLength =? 0)
       && negb (load_u64 metaDataBlock 0
                =? header_hash (sub metaDataBlock 8
                                  (Z.to_nat (keyIndexHeaderSize - 8))))
    then inl DamagedHeader
    else
      (* chunkset header [node C] *)
      let p_chunksetHash := keyIndexHeaderSize in
      let p_nrOfRows := keyIndexHeaderSize + 64 in
      let colAttributeTypes := keyIndexHeaderSize + 76 in
      let colTypes := keyIndexHeaderSize + 76 + 2 * nrOfCols in
      let colBaseTypes := keyIndexHeaderSize + 76 + 4 * nrOfCols in
      let colScales := keyIndexHeaderSize + 76 + 6 * nrOfCols in
      let chunksetHash :=
        header_hash (sub metaDataBlock (Z.to_nat (keyIndexHeaderSize + 8))
                       (Z.to_nat (chunksetHeaderSize - 8))) in
      if negb (load_u64 metaDataBlock p_chunksetHash =? chunksetHash)
      then inl DamagedHeader
      else
        (* column names header *)
        let offset := to_u64 (keyIndexHeaderSize + chunksetHeaderSize) in
        let p_colNamesHash := offset in
        let colNamesHash :=
          header_hash (sub metaDataBlock (Z.to_nat (offset + 8))
                         (Z.to_nat (colNamesHeaderSize - 8))) in
        if negb (load_u64 metaDataBlock p_colNamesHash =? colNamesHash)
        then inl DamagedHeader
        else
          (* read column names *)
          let colNamesOffset := to_u64 (metaSize + TABLE_META_SIZE) in
          let '(blockReader, _, _) :=
            fdsReadCharVec_v6 (i_content myfile) colNamesOffset 0
              (to_u32 nrOfCols) (to_u32 nrOfCols) in
          inr {| m_version := version;
                 m_keyLength := keyLength;
                 m_nrOfCols := nrOfCols;
                 m_keyColPos :=
                   if negb (keyLength =? 0)
                   then array_i32 metaDataBlock 8 keyLength else [];
                 m_nrOfRows := load_u64 metaDataBlock p_nrOfRows;
                 m_colAttributeTypes :=
                   array_u16 metaDataBlock colAttributeTypes nrOfCols;
                 m_colTypes := array_u16 metaDataBlock colTypes nrOfCols;
                 m_colBaseTypes :=
                   array_u16 metaDataBlock colBaseTypes nrOfCols;
                 m_colScales := array_u16 metaDataBlock colScales nrOfCols;
                 m_blockReader := blockReader |}.

(** ** [FstStore::fstRead] *)

(** What the header part of [fstRead] leaves for the rest of the function. *)
Record ReadState := {
  rs_content : bytes;
  rs_keyLength : Z;
  rs_nrOfCols : Z;
  rs_keyIndexHeaderSize : Z;
  rs_metaDataBlock : bytes;
  rs_blockReader : list string;
  rs_chunkIndex : bytes
}.

(** From the opening of the file to the check of the chunk hashes. *)
Definition fstRead_headers (fs : FileSystem) : Result ReadState :=
  let myfile := open_in fs in
  if i_fail myfile then inl CannotOpenFile
  else
    '(version, keyLength, nrOfCols, myfile) <- ReadHeader myfile ;;
    let keyIndexHeaderSize :=
      if negb (keyLength =? 0) then to_u64 (4 * (keyLength + 2)) else 0 in
    let chunksetHeaderSize := to_u64 (CHUNKSET_HEADER_SIZE + 8 * nrOfCols) in
    let colNamesHeaderSize := 24 in
    let metaSize :=
      to_u64 (keyIndexHeaderSize + chunksetHeaderSize + colNamesHeaderSize) in
    (* read format headers *)
    let '(metaDataBlock, myfile) :=
      i_read myfile (new_char metaSize) (Z.to_nat metaSize) in
    if negb (keyLength =? 0)
       && negb (load_u64 metaDataBlock 0
                =? header_hash (sub metaDataBlock 8
                                  (Z.to_nat (keyIndexHeaderSize - 8))))
    then inl DamagedHeader
    else
      (* chunkset header [node C] *)
      let p_chunksetHash := keyIndexHeaderSize in
      let chunksetHash :=
        header_hash (sub metaDataBlock (Z.to_nat (keyIndexHeaderSize + 8))
                       (Z.to_nat (chunksetHeaderSize - 8))) in
      if negb (load_u64 metaDataBlock p_chunksetHash =? chunksetHash)
      then inl DamagedHeader
      else
        (* column names header *)
        let offset := to_u64 (keyIndexHeaderSize + chunksetHeaderSize) in
        let p_colNamesHash := offset in
        let colNamesHash :=
          header_hash (sub metaDataBlock (Z.to_nat (offset + 8))
                         (Z.to_nat (colNamesHeaderSize - 8))) in
        if negb (load_u64 metaDataBlock p_colNamesHash =? colNamesHash)
        then inl DamagedHeader
        else
          (* column names *)
          let colNamesOffset := to_u64 (metaSize + TABLE_META_SIZE) in
          let '(blockReader, _, pos) :=
            fdsReadCharVec_v6 (i_content myfile) colNamesOffset 0
              (to_u32 nrOfCols) (to_u32 nrOfCols) in
          let myfile := seekg myfile pos in
          (* size of chunkset index header plus data chunk header *)
          let chunkIndexSize :=
            to_u64 (CHUNK_INDEX_SIZE + DATA_INDEX_SIZE + 8 * nrOfCols) in
          let '(chunkIndex, myfile) :=
            i_read myfile (new_char chunkIndexSize)
              (Z.to_nat chunkIndexSize) in
          let p_chunkIndexHash := 0 in
          let p_chunkDataHash := 96 in
          (* check chunk hashes *)
          let chunkIndexHash :=
            header_hash (sub chunkIndex 8 (Z.to_nat (CHUNK_INDEX_SIZE - 8))) in
          if negb (load_u64 chunkIndex p_chunkIndexHash =? chunkIndexHash)
          then inl DamagedChunkIndex
          else
            let chunkDataHash :=
              header_hash
                (sub chunkIndex (Z.to_nat (CHUNK_INDEX_SIZE + 8))
                   (Z.to_nat (chunkIndexSize - (CHUNK_INDEX_SIZE + 8)))) in
            if negb (load_u64 chunkIndex p_chunkDataHash =? chunkDataHash)
            then inl DamagedChunkIndex
            else
              inr {| rs_content := i_content myfile;
                     rs_keyLength := keyLength;
                     rs_nrOfCols := nrOfCols;
                     rs_keyIndexHeaderSize := keyIndexHeaderSize;
                     rs_metaDataBlock := metaDataBlock;
                     rs_blockReader := blockReader;
                     rs_chunkIndex := chunkIndex |}.

(** [blockReader->GetElement(colNr)]: the name of the on-disk column
    [colNr]. *)
Definition GetElement (blockReader : list string) (colNr : Z) : string :=
  nth (Z.to_nat colNr) blockReader EmptyString.

(** The search [for (int colNr = 0; colNr < nrOfCols; ++colNr)] for the name
    [str1], with [remaining] iterations to go: the value of [equal]. *)
Fixpoint find_column (remaining : nat) (colNr : Z) (str1 : string)
    (blockReader : list string) : Z :=
  match remaining with
  | O => -1
  | S remaining' =>
      let str2 := GetElement blockReader colNr in
      if strcmp str1 str2 =? 0 then colNr
      else find_column remaining' (colNr + 1) str1 blockReader
  end.

(** The loop over the selected names, which fills [colIndex]. *)
Fixpoint select_columns (columnSelection : list string) (nrOfCols : Z)
    (blockReader : list string) : Result (list Z) :=
  match columnSelection with
  | [] => inr []
  | str1 :: rest =>
      let equal := find_column (Z.to_nat nrOfCols) 0 str1 blockReader in
      if equal =? -1 then inl ColumnNotFound
      else
        colIndex <- select_columns rest nrOfCols blockReader ;;
        inr (equal :: colIndex)
  end.

(** [colNr] is the first column from [from] on that is called [name]: the
    linear search with first match wins. *)
Definition first_match (blockReader : list string) (name : string)
    (from colNr : Z) : Prop :=
  from <= colNr
  /\ GetElement blockReader colNr = name
  /\ forall colNr', from <= colNr' < colNr ->
                    GetElement blockReader colNr' <> name.

(** Determine column selection: [colIndex] and [nrOfSelect]. *)
Definition fstRead_selection (st : ReadState)
    (columnSelection : option (list string)) : Result (list Z * Z) :=
  let nrOfCols := rs_nrOfCols st in
  match columnSelection with
  | None =>
      inr (map Z.of_nat (seq 0 (Z.to_nat nrOfCols)), nrOfCols)
  | Some names =>
      let nrOfSelect := Z.of_nat (length names) in
      colIndex <- select_columns names nrOfCols (rs_blockReader st) ;;
      inr (colIndex, nrOfSelect)
  end.

(** Check range of selected rows and determine vector length: [firstRow] and
    [length]. *)
Definition fstRead_range (st : ReadState) (startRow endRow : Z)
    : Result (Z * Z) :=
  let p_chunkRows := 64 in
  let firstRow := to_i64 (startRow - 1) in
  let nrOfRows := load_u64 (rs_chunkIndex st) p_chunkRows in
  if (firstRow >=? to_i64 nrOfRows) || (firstRow <? 0) then
    if firstRow <? 0 then inl NegativeRow
    else inl RowOutOfRange
  else
    let length := to_i64 (to_u64 (nrOfRows - firstRow)) in
    if negb (endRow =? -1) then
      if endRow <=? firstRow then inl BadRange
      else
        inr (firstRow,
             Z.min (to_i64 (endRow - firstRow))
                   (to_i64 (to_i64 nrOfRows - firstRow)))
    else inr (firstRow, length).

(** One turn of the loop over the selected columns, for the on-disk column
    [colNr]: the column handed to [tableReader]. *)
Definition read_column (st : ReadState) (firstRow length nrOfRows : Z)
    (colNr : Z) : Result ReadColumn :=
  let nrOfCols := rs_nrOfCols st in
  let keyIndexHeaderSize := rs_keyIndexHeaderSize st in
  let metaDataBlock := rs_metaDataBlock st in
  let myfile := rs_content st in
  let colAttributeTypes := keyIndexHeaderSize + 76 in
  let colTypes := keyIndexHeaderSize + 76 + 2 * nrOfCols in
  let colScales := keyIndexHeaderSize + 76 + 6 * nrOfCols in
  let blockPos := 120 in
  if (colNr <? 0) || (colNr >=? nrOfCols) then inl ColumnOutOfRange
  else
    let pos := load_u64 (rs_chunkIndex st) (blockPos + 8 * colNr) in
    let scale := load_i16 metaDataBlock (colScales + 2 * colNr) in
    let attribute := load_u16 metaDataBlock (colAttributeTypes + 2 * colNr) in
    match load_u16 metaDataBlock (colTypes + 2 * colNr) with
    (* character vector *)
    | 6 =>
        let '(strs, encoding, _) :=
          fdsReadCharVec_v6 myfile pos firstRow length nrOfRows in
        inr {| rAttribute := attribute; rScale := None; rAnnotation := None;
               rData := CharacterData strs encoding |}
    (* integer vector *)
    | 8 =>
        let '(data, annotation) :=
          fdsReadIntVec_v8 myfile pos firstRow length nrOfRows in
        inr {| rAttribute := attribute; rScale := Some scale;
               rAnnotation := Some annotation; rData := Int32Data data |}
    (* double vector *)
    | 9 =>
        let '(data, annotation) :=
          fdsReadRealVec_v9 myfile pos firstRow length nrOfRows in
        inr {| rAttribute := attribute; rScale := Some scale;
               rAnnotation := Some annotation; rData := DoubleData data |}
    (* logical vector *)
    | 10 =>
        let data := fdsReadLogicalVec_v10 myfile pos firstRow length nrOfRows in
        inr {| rAttribute := attribute; rScale := None; rAnnotation := None;
               rData := LogicalData data |}
    (* factor vector *)
    | 7 =>
        let '(levelNames, encoding, levels) :=
          fdsReadFactorVec_v7 myfile pos firstRow length nrOfRows in
        inr {| rAttribute := attribute; rScale := None; rAnnotation := None;
               rData := FactorData levels levelNames encoding |}
    (* integer64 vector *)
    | 11 =>
        let data := fdsReadInt64Vec_v11 myfile pos firstRow length nrOfRows in
        inr {| rAttribute := attribute; rScale := Some scale;
               rAnnotation := None; rData := Int64Data data |}
    (* byte vector *)
    | 12 =>
        let data := fdsReadByteVec_v12 myfile pos firstRow length nrOfRows in
        inr {| rAttribute := attribute; rScale := None; rAnnotation := None;
               rData := ByteData data |}
    | _ => inl UnknownType
    end.

(** The loop [for (int colSel = 0; colSel < nrOfSelect; ++colSel)]. *)
Fixpoint read_columns (st : ReadState) (firstRow length nrOfRows : Z)
    (colIndex : list Z) : Result (list ReadColumn) :=
  match colIndex with
  | [] => inr []
  | colNr :: rest =>
      col <- read_column st firstRow length nrOfRows colNr ;;
      cols <- read_columns st firstRow length nrOfRows rest ;;
      inr (col :: cols)
  end.

Definition fstRead (fs : FileSystem) (columnSelection : option (list string))
    (startRow endRow : Z) (keyIndex : list Z) : Result ReadOutput :=
  st <- fstRead_headers fs ;;
  '(colIndex, nrOfSelect) <- fstRead_selection st columnSelection ;;
  '(firstRow, length) <- fstRead_range st startRow endRow ;;
  let nrOfRows := load_u64 (rs_chunkIndex st) 64 in
  (* tableReader.InitTable(nrOfSelect, length) *)
  cols <- read_columns st firstRow length nrOfRows colIndex ;;
  (* key index *)
  let keyColPos :=
    array_i32 (rs_metaDataBlock st) 8 (rs_keyLength st) in
  let keyIndex :=
    SetKeyIndex keyIndex (rs_keyLength st) nrOfSelect keyColPos colIndex in
  (* selectedCols->AllocateArray(nrOfSelect); SetElement(i, ...) *)
  let selectedCols := map (GetElement (rs_blockReader st)) colIndex in
  inr {| outTable := {| rNrOfSelect := nrOfSelect; rLength := length;
                        rColumns := cols |};
         outKeyIndex := keyIndex;
         outSelectedCols := selectedCols |}.

End Engine.

(** ** The layout of a written file

    The file that [fstWrite] leaves behind for a table of the data model, in
    closed form: each header record is its hash followed by its body, and the
    records and payloads follow each other as in the layout comments at the
    head of [fststore.cpp]. *)
Section Layout.
Context {E : Env}.

Definition with_hash (body : bytes) : bytes :=
  le_split 8 (header_hash body) ++ body.

Definition table_header_body (t : IFstTable) : bytes :=
  le_split 4 FST_VERSION ++ le_split 4 0 ++ le_split 8 0
    ++ le_split 4 FST_VERSION ++ le_split 4 (NrOfColumns t)
    ++ le_split 8 (52 + 4 * NrOfKeys t) ++ le_split 4 (NrOfKeys t).

Definition key_index_record (t : IFstTable) : bytes :=
  if negb (NrOfKeys t =? 0)
  then with_hash (flat_map (le_split 4) (KeyColumns t))
  else [].

(** The type code that the column loop stores in [colTypes]. *)
Definition colTypes_code (d : ColumnData) : Z :=
  match d with
  | UnknownData => 0
  | CharacterData _ _ => 6
  | FactorData _ _ _ => 7
  | Int32Data _ => 8
  | DoubleData _ => 9
  | LogicalData _ => 10
  | Int64Data _ => 11
  | ByteData _ => 12
  end.

Definition chunkset_fixed_fields (t : IFstTable) : bytes :=
  le_split 4 FST_VERSION ++ le_split 4 0 ++ le_split 8 0 ++ le_split 8 0
    ++ le_split 8 0 ++ le_split 8 0 ++ le_split 8 0 ++ le_split 8 0
    ++ le_split 8 (to_u64 (NrOfRows t)) ++ le_split 4 (NrOfColumns t).

Definition u16_array (v : list Z) : bytes := flat_map (le_split 2) v.

Definition colAttributeTypes_of (cols : list Column) : list Z :=
  map (fun col => FstColumnAttribute_value (colAttribute col)) cols.
Definition colTypes_of (cols : list Column) : list Z :=
  map (fun col => colTypes_code (colData col)) cols.
Definition colBaseTypes_of (cols : list Column) : list Z :=
  map (fun col => FstColumnType_value (ColumnData_type (colData col))) cols.
Definition colScales_of (cols : list Column) : list Z := map colScale cols.

Definition chunkset_header_body (t : IFstTable) : bytes :=
  chunkset_fixed_fields t
    ++ u16_array (colAttributeTypes_of (Columns t))
    ++ u16_array (colTypes_of (Columns t))
    ++ u16_array (colBaseTypes_of (Columns t))
    ++ u16_array (colScales_of (Columns t)).

Definition colnames_header_body : bytes :=
  le_split 4 FST_VERSION ++ le_split 4 0 ++ le_split 8 0.

Definition metadata (t : IFstTable) : bytes :=
  with_hash (table_header_body t) ++ key_index_record t
    ++ with_hash (chunkset_header_body t) ++ with_hash colnames_header_body.

Definition names_payload (t : IFstTable) : bytes :=
  fdsWriteCharVec_v6 (map colName (Columns t)) 0 NATIVE.

(** The bytes that the codec of a column appends. *)
Definition column_payload (nrOfRows compress : Z) (col : Column) : bytes :=
  let annotation := colAnnotation col in
  match colData col with
  | UnknownData => []
  | CharacterData strs encoding => fdsWriteCharVec_v6 strs compress encoding
  | FactorData intP levelNames encoding =>
      fdsWriteFactorVec_v7 intP levelNames nrOfRows (to_u32 compress)
        encoding annotation
  | Int32Data intP =>
      fdsWriteIntVec_v8 intP nrOfRows (to_u32 compress) annotation
  | DoubleData doubleP =>
      fdsWriteRealVec_v9 doubleP nrOfRows (to_u32 compress) annotation
  | LogicalData intP =>
      fdsWriteLogicalVec_v10 intP nrOfRows (to_u32 compress) annotation
  | Int64Data intP =>
      fdsWriteInt64Vec_v11 intP nrOfRows (to_u32 compress) annotation
  | ByteData byteP =>
      fdsWriteByteVec_v12 byteP nrOfRows (to_u32 compress) annotation
  end.

(** The file positions at which payloads written one after the other from
    position [start] begin. *)
Fixpoint positions (start : nat) (payloads : list bytes) : list Z :=
  match payloads with
  | [] => []
  | payload :: rest =>
      Z.of_nat start :: positions (start + length payload) rest
  end.

(** The slots 1 to 3 of [chunkPos] and of [chunkRows]: the bytes 40 to 63 and
    72 to 95 of the fresh chunk index buffer, which nothing overwrites. *)
Definition unused_chunkPos_slots (t : IFstTable) : bytes :=
  sub (new_char (120 + 8 * NrOfColumns t)) 40 24.
Definition unused_chunkRows_slots (t : IFstTable) : bytes :=
  sub (new_char (120 + 8 * NrOfColumns t)) 72 24.

Definition chunk_index_body (t : IFstTable) (chunkPos : Z) : bytes :=
  le_split 4 FST_VERSION ++ le_split 4 0 ++ le_split 8 0 ++ le_split 2 4
    ++ le_split 2 0 ++ le_split 2 0 ++ le_split 2 0
    ++ le_split 8 chunkPos ++ unused_chunkPos_slots t
    ++ le_split 8 (to_u64 (NrOfRows t)) ++ unused_chunkRows_slots t.

Definition data_chunk_body (positionData : list Z) : bytes :=
  le_split 4 FST_VERSION ++ le_split 4 0 ++ le_split 8 0
    ++ flat_map (le_split 8) positionData.

(** Where the chunk index starts: after the metadata and the column names. *)
Definition chunk_index_start (t : IFstTable) : nat :=
  length (metadata t) + length (names_payload t).

Definition payloads (t : IFstTable) (compress : Z) : list bytes :=
  map (column_payload (to_u64 (NrOfRows t)) compress) (Columns t).

Definition positionData_of (t : IFstTable) (compress : Z) : list Z :=
  positions (chunk_index_start t + 120 + 8 * length (Columns t))
    (payloads t compress).

Definition written_file (t : IFstTable) (compress : Z) : bytes :=
  metadata t ++ names_payload t
    ++ with_hash (chunk_index_body t (Z.of_nat (chunk_index_start t) + 96))
    ++ with_hash (data_chunk_body (positionData_of t compress))
    ++ concat (payloads t compress).

End Layout.

(** ** The contract of the codecs

    What the engine needs from the codecs and the block streamer for a full
    read of what they wrote: reading a payload at the position where it was
    written, whatever comes before and after it in the file, gives the data
    back (and the annotation for the codecs that return one), for every
    compression setting from 0 to 100.  The character codec, which also reads
    the column names, leaves the stream at the end of its payload. *)

Definition is_int32 (x : Z) : Prop := - 2 ^ 31 <= x < 2 ^ 31.
Definition is_int64 (x : Z) : Prop := - 2 ^ 63 <= x < 2 ^ 63.
Definition is_u64 (x : Z) : Prop := 0 <= x < 2 ^ 64.
(** The three states of a logical: false, true and NA ([INT_MIN]). *)
Definition is_logical (x : Z) : Prop := x = 0 \/ x = 1 \/ x = - 2 ^ 31.
(** A factor level: an [int] that is 0 for NA, or a 1-based index into the
    level names. *)
Definition is_level (nrOfLevels : nat) (x : Z) : Prop :=
  0 <= x <= Z.of_nat nrOfLevels /\ x < 2 ^ 31.

Definition at_pos (pre payload post : bytes) : bytes := pre ++ payload ++ post.

Record CodecContract (E : Env) : Prop := {
  char_round_trip :
    forall pre post strs compress encoding,
      0 <= compress <= 100 ->
      let payload := fdsWriteCharVec_v6 strs compress encoding in
      let n := Z.of_nat (length strs) in
      fdsReadCharVec_v6 (at_pos pre payload post) (Z.of_nat (length pre)) 0 n n
      = (strs, encoding, Z.of_nat (length pre + length payload));
  factor_round_trip :
    forall pre post levels levelNames compress encoding annotation,
      0 <= compress <= 100 ->
      Forall (is_level (length levelNames)) levels ->
      let n := Z.of_nat (length levels) in
      let payload :=
        fdsWriteFactorVec_v7 levels levelNames n compress encoding
          annotation in
      fdsReadFactorVec_v7 (at_pos pre payload post) (Z.of_nat (length pre))
        0 n n
      = (levelNames, encoding, levels);
  int_round_trip :
    forall pre post data compress annotation,
      0 <= compress <= 100 ->
      Forall is_int32 data ->
      let n := Z.of_nat (length data) in
      let payload := fdsWriteIntVec_v8 data n compress annotation in
      fdsReadIntVec_v8 (at_pos pre payload post) (Z.of_nat (length pre)) 0 n n
      = (data, annotation);
  stream_uncompressed_round_trip :
    forall pre post buf n annotation,
      Z.of_nat (length buf) = 8 * n ->
      let payload :=
        fdsStreamUncompressed_v2 buf n 8 BLOCKSIZE_REAL annotation in
      fdsReadColumn_v2 (at_pos pre payload post) (Z.of_nat (length pre))
        0 n n 8 BATCH_SIZE_READ_DOUBLE
      = (buf, annotation);
  stream_compressed_round_trip :
    forall pre post buf n streamCompressor annotation,
      Z.of_nat (length buf) = 8 * n ->
      let payload :=
        fdsStreamcompressed_v2 buf n 8 streamCompressor BLOCKSIZE_REAL
          annotation in
      fdsReadColumn_v2 (at_pos pre payload post) (Z.of_nat (length pre))
        0 n n 8 BATCH_SIZE_READ_DOUBLE
      = (buf, annotation);
  logical_round_trip :
    forall pre post data compress annotation,
      0 <= compress <= 100 ->
      Forall is_logical data ->
      let n := Z.of_nat (length data) in
      let payload := fdsWriteLogicalVec_v10 data n compress annotation in
      fdsReadLogicalVec_v10 (at_pos pre payload post) (Z.of_nat (length pre))
        0 n n
      = data;
  int64_round_trip :
    forall pre post data compress annotation,
      0 <= compress <= 100 ->
      Forall is_int64 data ->
      let n := Z.of_nat (length data) in
      let payload := fdsWriteInt64Vec_v11 data n compress annotation in
      fdsReadInt64Vec_v11 (at_pos pre payload post) (Z.of_nat (length pre))
        0 n n
      = data;
  byte_round_trip :
    forall pre post data compress annotation,
      0 <= compress <= 100 ->
      let n := Z.of_nat (length data) in
      let payload := fdsWriteByteVec_v12 data n compress annotation in
      fdsReadByteVec_v12 (at_pos pre payload post) (Z.of_nat (length pre))
        0 n n
      = data
}.

(** ** Tables the round trip is stated for *)

Definition column_ok (nrOfRows : Z) (col : Column) : Prop :=
  - 2 ^ 15 <= colScale col < 2 ^ 15 /\
  match colData col with
  | UnknownData => False
  | CharacterData strs _ => Z.of_nat (length strs) = nrOfRows
  | FactorData levels levelNames _ =>
      Z.of_nat (length levels) = nrOfRows
      /\ Forall (is_level (length levelNames)) levels
  | Int32Data v => Z.of_nat (length v) = nrOfRows /\ Forall is_int32 v
  | DoubleData v => Z.of_nat (length v) = nrOfRows /\ Forall is_u64 v
  | LogicalData v => Z.of_nat (length v) = nrOfRows /\ Forall is_logical v
  | Int64Data v => Z.of_nat (length v) = nrOfRows /\ Forall is_int64 v
  | ByteData v => Z.of_nat (length v) = nrOfRows
  end.

(** A table of the data model: at least one row and one column, columns of
    the seven types and of equal length with values of their type, key
    columns that are column numbers, and sizes that fit the [int] fields of
    the format. *)
Record table_ok (t : IFstTable) : Prop := {
  rows_ok : 1 <= NrOfRows t < 2 ^ 63;
  cols_ok : 1 <= NrOfColumns t < 2 ^ 27;
  keys_ok : NrOfKeys t <= NrOfColumns t
            /\ Forall (fun k => 0 <= k < NrOfColumns t) (KeyColumns t);
  columns_ok : Forall (column_ok (NrOfRows t)) (Columns t)
}.

(** The column that a full read hands to the table for a written column:
    the scale reaches [Create...Column] for INT_32, DOUBLE_64 and INT_64
    only, and the annotation reaches the setter for INT_32 and DOUBLE_64
    only. *)
Definition column_read_back (col : Column) : ReadColumn :=
  {| rAttribute := FstColumnAttribute_value (colAttribute col);
     rScale :=
       match colData col with
       | Int32Data _ | DoubleData _ | Int64Data _ => Some (colScale col)
       | _ => None
       end;
     rAnnotation :=
       match colData col with
       | Int32Data _ | DoubleData _ => Some (colAnnotation col)
       | _ => None
       end;
     rData := colData col |}.

Definition table_read_back (t : IFstTable) : ReadOutput :=
  {| outTable := {| rNrOfSelect := NrOfColumns t;
                    rLength := NrOfRows t;
                    rColumns := map column_read_back (Columns t) |};
     outKeyIndex := KeyColumns t;
     outSelectedCols := map colName (Columns t) |}.

(** The annotation a host sees for a column it was handed: the one the setter
    received, or the empty string. *)
Definition annotation_seen (col : ReadColumn) : string :=
  match rAnnotation col with
  | Some annotation => annotation
  | None => EmptyString
  end.

(** Equality of a table and what was read back, in the words of the
    round-trip property: equal data and encoding tag per column, key order
    preserved, annotations preserved. *)
Definition round_trip_equal (t : IFstTable) (out : ReadOutput) : Prop :=
  map rData (rColumns (outTable out)) = map colData (Columns t)
  /\ outKeyIndex out = KeyColumns t
  /\ map annotation_seen (rColumns (outTable out))
     = map colAnnotation (Columns t).

(** ** A reference environment

    A small instance of [Env] on which the engine runs: version 1, a
    polynomial hash in place of XXH64, fresh buffers filled with [0xff], and
    codecs that store vectors uncompressed and strings as tagged bytes.  It
    gives the concrete runs below and shows that [CodecContract] can be
    met. *)
Module Ref.

Definition hash_step (acc : Z) (b : byte) : Z :=
  (acc * 31 + byte.unsigned b + 7) mod 2 ^ 64.

Definition XXH64 (bs : bytes) (seed : Z) : Z := fold_left hash_step bs seed.

Definition uninit (n : nat) : bytes := repeat xff%byte n.

(** A byte string as tagged bytes: [0x02 b] for each byte, then [0x01]. *)
Definition enc_str (s : bytes) : bytes :=
  flat_map (fun b => [x02%byte; b]) s ++ [x01%byte].

(** A list of byte strings: the strings, then [0x00]. *)
Definition enc_strs (l : list bytes) : bytes :=
  flat_map enc_str l ++ [x00%byte].

(** Parses a list of byte strings; [cur] is the string being read, in reverse.
    Returns the strings and the bytes left. *)
Fixpoint dec_strs (bs : bytes) (cur : bytes) : list bytes * bytes :=
  match bs with
  | [] => ([], [])
  | t :: r1 =>
      if Byte.eqb t x02 then
        match r1 with
        | [] => ([], [])
        | b :: r => dec_strs r (b :: cur)
        end
      else if Byte.eqb t x01 then
        let '(l, rest) := dec_strs r1 [] in (rev cur :: l, rest)
      else ([], r1)
  end.

(** Parses one byte string. *)
Fixpoint dec_str (bs : bytes) (cur : bytes) : bytes * bytes :=
  match bs with
  | [] => (rev cur, [])
  | t :: r1 =>
      if Byte.eqb t x02 then
        match r1 with
        | [] => (rev cur, [])
        | b :: r => dec_str r (b :: cur)
        end
      else (rev cur, r1)
  end.

Definition enc_encoding (e : StringEncoding) : byte :=
  match e with
  | NATIVE => x00
  | LATIN1 => x01
  | UTF8 => x02
  end.

Definition dec_encoding (b : byte) : StringEncoding :=
  if Byte.eqb b x01 then LATIN1
  else if Byte.eqb b x02 then UTF8
  else NATIVE.

(** [n] little-endian words of [w] bytes. *)
Fixpoint words_of_bytes (w n : nat) (bs : bytes) : list Z :=
  match n with
  | O => []
  | S n' => le_combine (firstn w bs) :: words_of_bytes w n' (skipn w bs)
  end.

Definition enc_annotation (annotation : string) : bytes :=
  enc_str (list_byte_of_string annotation).

Definition dec_annotation (bs : bytes) : string :=
  string_of_list_byte (fst (dec_str bs [])).

(** The block streamer: the raw buffer, then the annotation. *)
Definition fdsStreamUncompressed_v2 (buf : bytes)
    (nrOfRows elementSize blockSizeElems : Z) (annotation : string) : bytes :=
  buf ++ enc_annotation annotation.

Definition fdsStreamcompressed_v2 (buf : bytes) (nrOfRows elementSize : Z)
    (streamCompressor : StreamCompressor) (blockSizeElems : Z)
    (annotation : string) : bytes :=
  buf ++ enc_annotation annotation.

Definition fdsReadColumn_v2 (myfile : bytes)
    (blockPos startRow length size elementSize batch : Z) : bytes * string :=
  let body := skipn (Z.to_nat blockPos) myfile in
  (sub body (Z.to_nat (startRow * elementSize))
     (Z.to_nat (length * elementSize)),
   dec_annotation (skipn (Z.to_nat (size * elementSize)) body)).

(** A vector of [w]-byte integers through the streamer. *)
Definition write_vec (w : nat) (data : list Z) (annotation : string) : bytes :=
  flat_map (le_split w) data ++ enc_annotation annotation.

Definition read_vec (w : nat) (myfile : bytes)
    (blockPos startRow length size : Z) : list Z * string :=
  let '(buf, annotation) :=
    fdsReadColumn_v2 myfile blockPos startRow length size (Z.of_nat w) 0 in
  (words_of_bytes w (Z.to_nat length) buf, annotation).

Definition fdsWriteIntVec_v8 (data : list Z) (nrOfRows compress : Z)
    (annotation : string) : bytes := write_vec 4 data annotation.

Definition fdsReadIntVec_v8 (myfile : bytes)
    (blockPos startRow length size : Z) : list Z * string :=
  let '(v, annotation) := read_vec 4 myfile blockPos startRow length size in
  (map to_i32 v, annotation).

Definition fdsWriteLogicalVec_v10 (data : list Z) (nrOfRows compress : Z)
    (annotation : string) : bytes := write_vec 4 data annotation.

Definition fdsReadLogicalVec_v10 (myfile : bytes)
    (blockPos startRow length size : Z) : list Z :=
  map to_i32 (fst (read_vec 4 myfile blockPos startRow length size)).

Definition fdsWriteInt64Vec_v11 (data : list Z) (nrOfRows compress : Z)
    (annotation : string) : bytes := write_vec 8 data annotation.

Definition fdsReadInt64Vec_v11 (myfile : bytes)
    (blockPos startRow length size : Z) : list Z :=
  map to_i64 (fst (read_vec 8 myfile blockPos startRow length size)).

Definition fdsWriteByteVec_v12 (data : bytes) (nrOfRows compress : Z)
    (annotation : string) : bytes := data ++ enc_annotation annotation.

Definition fdsReadByteVec_v12 (myfile : bytes)
    (blockPos startRow length size : Z) : bytes :=
  fst (fdsReadColumn_v2 myfile blockPos startRow length size 1 0).

(** The character codec: the encoding tag, then the strings. *)
Definition fdsWriteCharVec_v6 (strs : list string) (compress : Z)
    (encoding : StringEncoding) : bytes :=
  enc_encoding encoding :: enc_strs (map list_byte_of_string strs).

Definition fdsReadCharVec_v6 (myfile : bytes)
    (blockPos startRow length size : Z) : list string * StringEncoding * Z :=
  match skipn (Z.to_nat blockPos) myfile with
  | [] => ([], NATIVE, blockPos)
  | tag :: body =>
      let '(l, rest) := dec_strs body [] in
      (map string_of_list_byte
         (firstn (Z.to_nat length) (skipn (Z.to_nat startRow) l)),
       dec_encoding tag,
       Z.of_nat (List.length myfile - List.length rest))
  end.

(** The factor codec: the level vector as INT_32, then the level names as a
    character vector. *)
Definition fdsWriteFactorVec_v7 (levels : list Z) (levelNames : list string)
    (size compress : Z) (encoding : StringEncoding) (annotation : string)
    : bytes :=
  fdsWriteIntVec_v8 levels size compress annotation
    ++ fdsWriteCharVec_v6 levelNames compress encoding.

Definition fdsReadFactorVec_v7 (myfile : bytes)
    (blockPos startRow length size : Z) : list string * StringEncoding * list Z :=
  let levels := fst (fdsReadIntVec_v8 myfile blockPos startRow length size) in
  let after_int :=
    snd (dec_str (skipn (Z.to_nat (blockPos + 4 * size)) myfile) []) in
  match after_int with
  | [] => ([], NATIVE, levels)
  | tag :: body =>
      (map string_of_list_byte (fst (dec_strs body [])), dec_encoding tag,
       levels)
  end.

End Ref.

#[export] Instance ref_env : Env := {|
  FST_VERSION := 1;
  FST_HASH_SEED := 912824571;
  BLOCKSIZE_REAL := 2048;
  BATCH_SIZE_READ_DOUBLE := 25;
  XXH64 := Ref.XXH64;
  uninit := Ref.uninit;
  fdsWriteCharVec_v6 := Ref.fdsWriteCharVec_v6;
  fdsReadCharVec_v6 := Ref.fdsReadCharVec_v6;
  fdsWriteFactorVec_v7 := Ref.fdsWriteFactorVec_v7;
  fdsReadFactorVec_v7 := Ref.fdsReadFactorVec_v7;
  fdsWriteIntVec_v8 := Ref.fdsWriteIntVec_v8;
  fdsReadIntVec_v8 := Ref.fdsReadIntVec_v8;
  fdsStreamUncompressed_v2 := Ref.fdsStreamUncompressed_v2;
  fdsStreamcompressed_v2 := Ref.fdsStreamcompressed_v2;
  fdsReadColumn_v2 := Ref.fdsReadColumn_v2;
  fdsWriteLogicalVec_v10 := Ref.fdsWriteLogicalVec_v10;
  fdsReadLogicalVec_v10 := Ref.fdsReadLogicalVec_v10;
  fdsWriteInt64Vec_v11 := Ref.fdsWriteInt64Vec_v11;
  fdsReadInt64Vec_v11 := Ref.fdsReadInt64Vec_v11;
  fdsWriteByteVec_v12 := Ref.fdsWriteByteVec_v12;
  fdsReadByteVec_v12 := Ref.fdsReadByteVec_v12
|}.

(** ** Sample tables and files *)

(** No file yet, in a place where one can be created. *)
Definition no_file : FileSystem := {| fileData := None; canWrite := true |}.

Definition sample_table : IFstTable :=
  {| NrOfRows := 3;
     KeyColumns := [0; 2];
     Columns :=
       [ {| colName := "a"; colAttribute := INT_32_BASE; colScale := 0;
            colAnnotation := "x";
            colData := Int32Data [1; -2; -2147483648] |};
         {| colName := "b"; colAttribute := DOUBLE_64_BASE; colScale := 3;
            colAnnotation := "UTC";
            colData := DoubleData [1; 2; 18446744073709551615] |};
         {| colName := "c"; colAttribute := CHARACTER_BASE; colScale := 0;
            colAnnotation := "";
            colData := CharacterData ["x"; "yy"; ""]%string UTF8 |};
         {| colName := "d"; colAttribute := FACTOR_BASE; colScale := 0;
            colAnnotation := "";
            colData := FactorData [1; 0; 2] ["lo"; "hi"]%string LATIN1 |};
         {| colName := "e"; colAttribute := BOOL_2_BASE; colScale := 0;
            colAnnotation := "";
            colData := LogicalData [0; 1; -2147483648] |};
         {| colName := "f"; colAttribute := INT_64_BASE; colScale := -3;
            colAnnotation := "";
            colData := Int64Data [1; -9223372036854775808; 5] |};
         {| colName := "g"; colAttribute := BYTE_BASE; colScale := 0;
            colAnnotation := "";
            colData := ByteData [x00; x7f; xff]%byte |} ] |}.

(** A one-column INT_64 table whose column carries an annotation. *)
Definition annotated_int64_table : IFstTable :=
  {| NrOfRows := 2;
     KeyColumns := [];
     Columns :=
       [ {| colName := "t"; colAttribute := INT_64_TIME_SECONDS;
            colScale := 0; colAnnotation := "UTC";
            colData := Int64Data [1; 2] |} ] |}.

(** A table header of a later format version: [FST_VERSION_MAX] is 2, one
    column, no keys. *)
Definition future_header_body : bytes :=
  le_split 4 2 ++ le_split 4 0 ++ le_split 8 0 ++ le_split 4 2
    ++ le_split 4 1 ++ le_split 8 52 ++ le_split 4 0.

(** A file that starts with this header and its hash. *)
Definition future_version_file : FileSystem :=
  {| fileData :=
       Some (le_split 8 (header_hash (E := ref_env) future_header_body)
               ++ future_header_body);
     canWrite := true |}.

(** The same file with a hash field that does not match. *)
Definition damaged_future_version_file : FileSystem :=
  {| fileData :=
       Some (le_split 8 (header_hash (E := ref_env) future_header_body + 1)
               ++ future_header_body);
     canWrite := true |}.

(** The file written for [sample_table] with compression 50, and the state
    of [fstRead] after its headers. *)
Definition sample_file : FileSystem :=
  Eval vm_compute in snd (fstWrite (E := ref_env) no_file sample_table 50).

Definition empty_read_state : ReadState :=
  {| rs_content := []; rs_keyLength := 0; rs_nrOfCols := 0;
     rs_keyIndexHeaderSize := 0; rs_metaDataBlock := [];
     rs_blockReader := []; rs_chunkIndex := [] |}.

Definition sample_state : ReadState :=
  Eval vm_compute in
    match fstRead_headers (E := ref_env) sample_file with
    | inr st => st
    | inl _ => empty_read_state
    end.

(** A column of one of the seven types of the format. *)
Definition known_type (col : Column) : Prop := colData col <> UnknownData.

(** What [fstWrite] needs of a table to write it to the end: at least one
    column and one row, columns of the seven types, and column and key
    counts that fit the [int] arithmetic of the header sizes. *)
Record writable (t : IFstTable) : Prop := {
  writable_cols : 1 <= NrOfColumns t < 2 ^ 27;
  writable_keys : NrOfKeys t < 2 ^ 27;
  writable_rows : to_u64 (NrOfRows t) <> 0;
  writable_types : Forall known_type (Columns t)
}.

(** The size of the key index record: [keyIndexHeaderSize]. *)
Definition key_index_size (t : IFstTable) : Z :=
  if negb (NrOfKeys t =? 0) then 4 * (NrOfKeys t + 2) else 0.

(** The written file is smaller than [2 ^ 63] bytes, so that every file
    position fits a stream offset. *)
Definition file_fits {E : Env} (t : IFstTable) (compress : Z) : Prop :=
  Z.of_nat (length (written_file t compress)) < 2 ^ 63.

(** A place where no file can be created. *)
Definition read_only_place : FileSystem :=
  {| fileData := None; canWrite := false |}.

(** A table whose second column has no type the writer knows. *)
Definition unknown_column_table : IFstTable :=
  {| NrOfRows := 2;
     KeyColumns := [];
     Columns :=
       [ {| colName := "a"; colAttribute := INT_32_BASE; colScale := 0;
            colAnnotation := "";
            colData := Int32Data [1; 2] |};
         {| colName := "u"; colAttribute := NONE; colScale := 0;
            colAnnotation := "";
            colData := UnknownData |} ] |}.

(** What the header part of [fstRead] holds after it has read a written
    file: the counts of the table header, the metadata block after the table
    header, the column names, and the chunk index with the data chunk
    header. *)
Definition written_state {E : Env} (t : IFstTable) (compress : Z)
    : ReadState :=
  {| rs_content := written_file t compress;
     rs_keyLength := NrOfKeys t;
     rs_nrOfCols := NrOfColumns t;
     rs_keyIndexHeaderSize := key_index_size t;
     rs_metaDataBlock :=
       key_index_record t ++ with_hash (chunkset_header_body t)
         ++ with_hash colnames_header_body;
     rs_blockReader := map colName (Columns t);
     rs_chunkIndex :=
       with_hash (chunk_index_body t (Z.of_nat (chunk_index_start t) + 96))
         ++ with_hash (data_chunk_body (positionData_of t compress)) |}.

(** The metadata of a table as [fstMeta] reports it once the table is
    written: the four column arrays are read as [unsigned short]. *)
Definition table_meta {E : Env} (t : IFstTable) : MetaData :=
  {| m_version := to_u32 FST_VERSION;
     m_keyLength := NrOfKeys t;
     m_nrOfCols := NrOfColumns t;
     m_keyColPos := KeyColumns t;
     m_nrOfRows := NrOfRows t;
     m_colAttributeTypes := colAttributeTypes_of (Columns t);
     m_colTypes := colTypes_of (Columns t);
     m_colBaseTypes := colBaseTypes_of (Columns t);
     m_colScales := map (fun scale => scale mod 2 ^ 16) (colScales_of (Columns t));
     m_blockReader := map colName (Columns t) |}.

(** What a read of the columns "c" and "a" of [sample_file] returns. *)
Definition sample_selection : ReadOutput :=
  {| outTable :=
       {| rNrOfSelect := 2;
          rLength := 3;
          rColumns :=
            [ {| rAttribute := 2; rScale := None; rAnnotation := None;
                 rData := CharacterData ["x"; "yy"; ""]%string UTF8 |};
              {| rAttribute := 5; rScale := Some 0;
                 rAnnotation := Some "x"%string;
                 rData := Int32Data [1; -2; -2147483648] |} ] |};
     outKeyIndex := [1; 0];
     outSelectedCols := ["c"; "a"]%string |}.

(** * Properties *)

(** ** Byte buffers *)

Lemma length_sub (buf : bytes) (off len : nat) :
  (off + len <= length buf)%nat -> length (sub buf off len) = len.
Proof.
  intros H. unfold sub. rewrite length_firstn, length_skipn. lia.
Qed.

Lemma length_store (buf : bytes) (off : nat) (bs : bytes) :
  length (store buf off bs) = length buf.
Proof.
  unfold store. rewrite length_firstn, !length_app, length_firstn, length_skipn.
  lia.
Qed.

Lemma store_skip (a l : bytes) (off : nat) (bs : bytes) :
  (length a <= off)%nat ->
  store (a ++ l) off bs = a ++ store l (off - length a) bs.
Proof.
  intros H. unfold store.
  rewrite (firstn_app off a l), (firstn_all2 (n := off) a) by lia.
  rewrite (skipn_app (off + length bs) a l),
    (skipn_all2 (n := off + length bs) a) by lia.
  rewrite length_app, <- !app_assoc. cbn [app].
  rewrite firstn_app_2.
  replace (off + length bs - length a)%nat
    with (off - length a + length bs)%nat by lia.
  reflexivity.
Qed.

Lemma store_here (old l : bytes) (off : nat) (bs : bytes) :
  off = 0%nat -> length old = length bs ->
  store (old ++ l) off bs = bs ++ l.
Proof.
  intros -> H. unfold store. cbn [firstn app Nat.add].
  rewrite skipn_app, <- H, skipn_all, Nat.sub_diag. cbn [skipn app].
  rewrite length_app, H, <- length_app. apply firstn_all.
Qed.

Lemma store_all (buf : bytes) (off : nat) (bs : bytes) :
  off = 0%nat -> length buf = length bs -> store buf off bs = bs.
Proof.
  intros Hoff H. rewrite <- (app_nil_r buf), store_here by assumption.
  apply app_nil_r.
Qed.

Lemma sub_skip (a l : bytes) (off len : nat) :
  (length a <= off)%nat -> sub (a ++ l) off len = sub l (off - length a) len.
Proof.
  intros H. unfold sub.
  rewrite skipn_app, (skipn_all2 (n := off) a) by lia. reflexivity.
Qed.

Lemma sub_here (a l : bytes) (off len : nat) :
  off = 0%nat -> len = length a -> sub (a ++ l) off len = a.
Proof.
  intros -> ->. unfold sub. cbn [skipn].
  rewrite firstn_app, Nat.sub_diag, firstn_all. cbn [firstn].
  apply app_nil_r.
Qed.

Lemma sub_all (a : bytes) (off len : nat) :
  off = 0%nat -> len = length a -> sub a off len = a.
Proof.
  intros -> ->. unfold sub. cbn [skipn]. apply firstn_all.
Qed.

Lemma sub_inside (a l : bytes) (off len : nat) :
  (off + len <= length a)%nat -> sub (a ++ l) off len = sub a off len.
Proof.
  intros H. unfold sub. rewrite skipn_app, firstn_app, length_skipn.
  replace (len - (length a - off))%nat with 0%nat by lia.
  cbn [firstn]. apply app_nil_r.
Qed.

Lemma length_put_ge (content : bytes) (pos : nat) (bs : bytes) :
  (length content <= length (put content pos bs))%nat.
Proof.
  unfold put. rewrite !length_app, length_firstn, length_app, repeat_length,
    length_skipn. lia.
Qed.

Lemma put_append (content bs : bytes) (pos : nat) :
  pos = length content -> put content pos bs = content ++ bs.
Proof.
  intros ->. unfold put. rewrite Nat.sub_diag. cbn [repeat].
  rewrite app_nil_r, firstn_all, skipn_all2 by lia. now rewrite app_nil_r.
Qed.

Lemma put_skip (a l : bytes) (pos : nat) (bs : bytes) :
  (length a <= pos)%nat -> (pos <= length (a ++ l))%nat ->
  put (a ++ l) pos bs = a ++ put l (pos - length a) bs.
Proof.
  intros H1 H2. rewrite length_app in H2. unfold put.
  replace (pos - length (a ++ l))%nat with 0%nat by (rewrite length_app; lia).
  replace (pos - length a - length l)%nat with 0%nat by lia.
  cbn [repeat]. rewrite !app_nil_r.
  rewrite (firstn_app pos a l), (firstn_all2 (n := pos) a) by lia.
  rewrite (skipn_app (pos + length bs) a l),
    (skipn_all2 (n := pos + length bs) a) by lia.
  rewrite <- !app_assoc. cbn [app].
  replace (pos + length bs - length a)%nat
    with (pos - length a + length bs)%nat by lia.
  reflexivity.
Qed.

Lemma put_here (old l : bytes) (pos : nat) (bs : bytes) :
  pos = 0%nat -> length old = length bs -> put (old ++ l) pos bs = bs ++ l.
Proof.
  intros -> H. unfold put. cbn [firstn app Nat.add Nat.sub repeat].
  rewrite skipn_app, <- H, skipn_all, Nat.sub_diag. reflexivity.
Qed.

(** ** Little-endian fields *)

Lemma length_flat_map_le_split (w : nat) (v : list Z) :
  length (flat_map (le_split w) v) = (w * length v)%nat.
Proof.
  induction v as [|x v IH]; cbn [flat_map length].
  - lia.
  - rewrite length_app, length_le_split, IH. lia.
Qed.

Lemma to_i32_to_u32 (x : Z) : is_int32 x -> to_i32 (x mod 2 ^ 32) = x.
Proof.
  unfold is_int32, to_i32. intros H.
  rewrite Zplus_mod_idemp_l.
  rewrite Z.mod_small by lia. lia.
Qed.

Lemma to_i64_to_u64 (x : Z) : is_int64 x -> to_i64 (x mod 2 ^ 64) = x.
Proof.
  unfold is_int64, to_i64. intros H.
  rewrite Zplus_mod_idemp_l.
  rewrite Z.mod_small by lia. lia.
Qed.

Lemma to_i16_to_u16 (x : Z) :
  - 2 ^ 15 <= x < 2 ^ 15 -> to_i16 (x mod 2 ^ 16) = x.
Proof.
  unfold to_i16. intros H.
  rewrite Zplus_mod_idemp_l.
  rewrite Z.mod_small by lia. lia.
Qed.

Lemma header_hash_range {E : Env} (bs : bytes) :
  0 <= header_hash bs < 2 ^ 64.
Proof. unfold header_hash, to_u64. apply Z.mod_pos_bound. lia. Qed.

(** ** The key remap *)

Lemma first_index_bounds (key : Z) (colIndex : list Z) (j0 j : Z) :
  first_index key colIndex j0 = Some j ->
  j0 <= j < j0 + Z.of_nat (length colIndex).
Proof.
  revert j0. induction colIndex as [|c rest IH]; cbn [first_index length];
    intros j0 H.
  - discriminate.
  - destruct (key =? c).
    + injection H as <-. lia.
    + apply IH in H. lia.
Qed.

Lemma first_index_spec (key : Z) (colIndex : list Z) (j : Z) :
  first_index key colIndex 0 = Some j ->
  nth (Z.to_nat j) colIndex 0 = key
  /\ forall j', 0 <= j' < j -> nth (Z.to_nat j') colIndex 0 <> key.
Proof.
  enough (G : forall pre rest j0,
             j0 = Z.of_nat (length pre) ->
             (forall j', 0 <= j' < j0 ->
                         nth (Z.to_nat j') (pre ++ rest) 0 <> key) ->
             first_index key rest j0 = Some j ->
             nth (Z.to_nat j) (pre ++ rest) 0 = key
             /\ forall j', 0 <= j' < j ->
                           nth (Z.to_nat j') (pre ++ rest) 0 <> key).
  { intros H. apply (G [] colIndex 0); [reflexivity | intros; lia | exact H]. }
  intros pre rest. revert pre.
  induction rest as [|c rest IH]; cbn [first_index]; intros pre j0 Hj0 Hpre H.
  - discriminate.
  - destruct (key =? c) eqn:Hc.
    + injection H as <-. apply Z.eqb_eq in Hc. subst c j0. split; [|exact Hpre].
      rewrite Nat2Z.id, nth_middle. reflexivity.
    + apply Z.eqb_neq in Hc.
      replace (pre ++ c :: rest) with ((pre ++ [c]) ++ rest)
        by (rewrite <- app_assoc; reflexivity).
      apply (IH (pre ++ [c]) (j0 + 1)); [| |exact H].
      * rewrite length_app. cbn [length]. lia.
      * intros j' Hj'. rewrite <- app_assoc. cbn [app].
        destruct (Z.eq_dec j' j0) as [->|Hne].
        -- subst j0. rewrite Nat2Z.id, nth_middle. congruence.
        -- apply Hpre. lia.
Qed.

Lemma first_index_none (key : Z) (colIndex : list Z) (j0 : Z) :
  first_index key colIndex j0 = None <-> ~ In key colIndex.
Proof.
  revert j0. induction colIndex as [|c rest IH]; cbn [first_index In]; intros j0.
  - tauto.
  - destruct (key =? c) eqn:Hc.
    + apply Z.eqb_eq in Hc. split; [discriminate | intros H; exfalso; auto].
    + apply Z.eqb_neq in Hc. rewrite IH. intuition congruence.
Qed.

Lemma SetKeyIndex_inner_spec (key : Z) (pre rest keyIndex : list Z) :
  SetKeyIndex_inner (length rest) (Z.of_nat (length pre)) keyIndex key
    (pre ++ rest)
  = match first_index key rest (Z.of_nat (length pre)) with
    | Some j => (keyIndex ++ [j], j)
    | None => (keyIndex, Z.of_nat (length pre) + Z.of_nat (length rest))
    end.
Proof.
  revert pre. induction rest as [|c rest IH]; intros pre;
    cbn [SetKeyIndex_inner first_index length].
  - f_equal. lia.
  - rewrite Nat2Z.id, nth_middle. destruct (key =? c); [reflexivity|].
    replace (pre ++ c :: rest) with ((pre ++ [c]) ++ rest)
      by (rewrite <- app_assoc; reflexivity).
    replace (Z.of_nat (length pre) + 1) with (Z.of_nat (length (pre ++ [c])))
      by (rewrite length_app; cbn [length]; lia).
    rewrite IH. destruct (first_index key rest _); [reflexivity|].
    f_equal. rewrite length_app. cbn [length]. lia.
Qed.

Lemma SetKeyIndex_outer_spec (colIndex pre rest keyIndex : list Z) :
  SetKeyIndex_outer (length rest) (Z.of_nat (length pre)) keyIndex
    (Z.of_nat (length colIndex)) (pre ++ rest) colIndex
  = keyIndex ++ key_remap rest colIndex.
Proof.
  revert pre keyIndex. induction rest as [|key rest IH]; intros pre keyIndex;
    cbn [SetKeyIndex_outer key_remap length].
  - now rewrite app_nil_r.
  - rewrite !Nat2Z.id, nth_middle.
    pose proof (SetKeyIndex_inner_spec key [] colIndex keyIndex) as Hin.
    cbn [length app] in Hin. change (Z.of_nat 0) with 0 in Hin. rewrite Hin.
    destruct (first_index key colIndex 0) as [j|] eqn:Hj.
    + apply first_index_bounds in Hj.
      destruct (j =? Z.of_nat (length colIndex)) eqn:Hjn;
        [apply Z.eqb_eq in Hjn; lia|].
      replace (pre ++ key :: rest) with ((pre ++ [key]) ++ rest)
        by (rewrite <- app_assoc; reflexivity).
      replace (Z.of_nat (length pre) + 1)
        with (Z.of_nat (length (pre ++ [key])))
        by (rewrite length_app; cbn [length]; lia).
      rewrite IH, <- app_assoc. reflexivity.
    + rewrite Z.add_0_l, Z.eqb_refl. now rewrite app_nil_r.
Qed.

Lemma SetKeyIndex_key_remap (keyIndex keyColPos colIndex : list Z) :
  SetKeyIndex keyIndex (Z.of_nat (length keyColPos))
    (Z.of_nat (length colIndex)) keyColPos colIndex
  = keyIndex ++ key_remap keyColPos colIndex.
Proof.
  unfold SetKeyIndex. rewrite Nat2Z.id.
  apply (SetKeyIndex_outer_spec colIndex [] keyColPos keyIndex).
Qed.

(** C2.  The key remap of [SetKeyIndex] is the rule of the specification: it
    goes through the keys in order, appends for each key the first position
    [j] of the selection with [keyColPos[i] == colIndex[j]], and stops at
    the first key that is not selected.  With [keyColPos = [0,2]] and
    [colIndex = [2,0,1]] the result is [[1,0]]. *)
Theorem SetKeyIndex_prefix_until_first_miss :
  (forall keyIndex keyColPos colIndex,
      SetKeyIndex keyIndex (Z.of_nat (length keyColPos))
        (Z.of_nat (length colIndex)) keyColPos colIndex
      = keyIndex ++ key_remap keyColPos colIndex)
  /\ (forall key colIndex,
         (first_index key colIndex 0 = None <-> ~ In key colIndex)
         /\ forall j, first_index key colIndex 0 = Some j ->
                      0 <= j < Z.of_nat (length colIndex)
                      /\ nth (Z.to_nat j) colIndex 0 = key
                      /\ forall j', 0 <= j' < j ->
                                    nth (Z.to_nat j') colIndex 0 <> key)
  /\ SetKeyIndex [] 2 3 [0; 2] [2; 0; 1] = [1; 0].
Proof.
  split; [exact SetKeyIndex_key_remap|]. split; [|reflexivity].
  intros key colIndex. split; [apply first_index_none|].
  intros j Hj. split.
  - apply first_index_bounds in Hj. lia.
  - apply first_index_spec. exact Hj.
Qed.

(** ** Writing an empty table *)

(** C10.  A table without columns is refused with [EmptyTable], and a table
    with columns but without rows with [NoData]; both errors are raised
    before the output file is opened, so the file system is left as it
    was. *)
Theorem fstWrite_refuses_empty_table_before_open {E : Env}
    (fs : FileSystem) (fstTable : IFstTable) (compress : Z) :
  NrOfColumns fstTable = 0 \/ NrOfRows fstTable = 0 ->
  fstWrite fs fstTable compress
  = (inl (if NrOfColumns fstTable =? 0 then EmptyTable else NoData), fs).
Proof.
  intros H. unfold fstWrite.
  destruct (NrOfColumns fstTable =? 0) eqn:Hc; [reflexivity|].
  destruct H as [H|H]; [apply Z.eqb_neq in Hc; contradiction|].
  rewrite H. reflexivity.
Qed.

Lemma fstWrite_refuses_empty_table_witness :
  fstWrite no_file {| NrOfRows := 0; KeyColumns := []; Columns := [] |} 0
  = (inl EmptyTable, no_file)
  /\ fstWrite no_file
       {| NrOfRows := 0; KeyColumns := [];
          Columns := Columns annotated_int64_table |} 0
     = (inl NoData, no_file).
Proof.
  split.
  - apply (fstWrite_refuses_empty_table_before_open (E := ref_env) no_file
             {| NrOfRows := 0; KeyColumns := []; Columns := [] |} 0).
    left. reflexivity.
  - apply (fstWrite_refuses_empty_table_before_open (E := ref_env) no_file
             {| NrOfRows := 0; KeyColumns := [];
                Columns := Columns annotated_int64_table |} 0).
    right. reflexivity.
Defined.

(** ** Reading the table header *)

Lemma length_new_char {E : Env} (n : Z) : length (new_char n) = Z.to_nat n.
Proof.
  unfold new_char. rewrite length_firstn, length_app, repeat_length. lia.
Qed.

Lemma sub_sub (buf : bytes) (off1 len1 off2 len2 : nat) :
  (off2 + len2 <= len1)%nat ->
  sub (sub buf off1 len1) off2 len2 = sub buf (off1 + off2) len2.
Proof.
  intros H. unfold sub.
  rewrite skipn_firstn_comm, firstn_firstn, skipn_skipn.
  rewrite Nat.min_l by lia. f_equal. f_equal. lia.
Qed.

(** [ReadHeader] on a file of at least 44 bytes: the hash of the table header
    is checked first, then the version. *)
Lemma ReadHeader_spec {E : Env} (content : bytes) :
  (44 <= length content)%nat ->
  ReadHeader {| i_content := content; i_pos := 0; i_fail := false |}
  = if negb (header_hash (sub content 8 36) =? load_u64 content 0)
    then inl NonFstFile
    else if load_u32 content 24 >? to_u32 FST_VERSION
         then inl UpdateRequired
         else inr (load_u32 content 24, load_i32 content 40,
                   load_i32 content 28,
                   {| i_content := content; i_pos := 44; i_fail := false |}).
Proof.
  intros Hlen. unfold ReadHeader, i_read. cbn [i_fail i_content i_pos].
  change (Z.to_nat TABLE_META_SIZE) with 44%nat.
  change (Z.to_nat (TABLE_META_SIZE - 8)) with 36%nat.
  rewrite store_all
    by (rewrite ?length_new_char, ?length_sub by lia; reflexivity).
  rewrite length_sub by lia. cbn [Nat.ltb Nat.leb Nat.add].
  unfold load_u64, load_u32, load_i32, load_le.
  change (Z.to_nat 0) with 0%nat. change (Z.to_nat 24) with 24%nat.
  change (Z.to_nat 28) with 28%nat. change (Z.to_nat 40) with 40%nat.
  rewrite !sub_sub by lia. reflexivity.
Qed.

Lemma open_in_some (fs : FileSystem) (content : bytes) :
  fileData fs = Some content ->
  open_in fs = {| i_content := content; i_pos := 0; i_fail := false |}.
Proof. unfold open_in. now intros ->. Qed.

(** C4, as the code has it.  The version gate comes after the check of the
    table-header hash and before every other validation: a file of at least
    44 bytes whose table-header hash is right and whose [FST_VERSION_MAX]
    field exceeds [FST_VERSION] fails with [UpdateRequired] in both
    [fstMeta] and [fstRead], whatever follows the table header; a file whose
    table-header hash is wrong fails with [NonFstFile], whatever its version
    field. *)
Theorem version_gate_follows_header_hash {E : Env}
    (fs : FileSystem) (content : bytes)
    (columnSelection : option (list string)) (startRow endRow : Z)
    (keyIndex : list Z) :
  fileData fs = Some content ->
  (44 <= length content)%nat ->
  (header_hash (sub content 8 36) = load_u64 content 0 ->
   load_u32 content 24 > to_u32 FST_VERSION ->
   fstMeta fs = inl UpdateRequired
   /\ fstRead fs columnSelection startRow endRow keyIndex = inl UpdateRequired)
  /\ (header_hash (sub content 8 36) <> load_u64 content 0 ->
      fstMeta fs = inl NonFstFile
      /\ fstRead fs columnSelection startRow endRow keyIndex = inl NonFstFile).
Proof.
  intros Hfs Hlen.
  unfold fstRead, fstRead_headers, fstMeta.
  rewrite (open_in_some fs content Hfs). cbn [i_fail].
  rewrite (ReadHeader_spec content Hlen). split.
  - intros Hhash Hver. apply Z.eqb_eq in Hhash. rewrite Hhash. cbn [negb].
    apply Z.gtb_gt in Hver. rewrite Hver. split; reflexivity.
  - intros Hhash. apply Z.eqb_neq in Hhash. rewrite Hhash. cbn [negb].
    split; reflexivity.
Qed.

Lemma version_gate_follows_header_hash_witness :
  fstMeta (E := ref_env) future_version_file = inl UpdateRequired
  /\ fstRead (E := ref_env) future_version_file None 1 (-1) []
     = inl UpdateRequired.
Proof.
  refine (proj1 (version_gate_follows_header_hash (E := ref_env)
                   future_version_file
                   (le_split 8 (header_hash (E := ref_env) future_header_body)
                      ++ future_header_body)
                   None 1 (-1) [] eq_refl _) _ _).
  - vm_compute. lia.
  - vm_compute. reflexivity.
  - vm_compute. reflexivity.
Defined.

(** The claim C4 as stated fails: this file has a version field above
    [FST_VERSION], and both entry points reject it with [NonFstFile], from
    the hash check that precedes the version gate. *)
Lemma version_gate_not_first_counterexample :
  match fileData damaged_future_version_file with
  | Some content => load_u32 content 24 > to_u32 (FST_VERSION (Env := ref_env))
  | None => False
  end
  /\ fstMeta (E := ref_env) damaged_future_version_file = inl NonFstFile
  /\ fstRead (E := ref_env) damaged_future_version_file None 1 (-1) []
     = inl NonFstFile
  /\ fstRead (E := ref_env) damaged_future_version_file None 1 (-1) []
     <> inl UpdateRequired.
Proof.
  split; [vm_compute; reflexivity|].
  split; [vm_compute; reflexivity|].
  split; [vm_compute; reflexivity|].
  vm_compute. intros H. discriminate H.
Qed.

(** ** The row range *)

Lemma load_le_range (w : nat) (buf : bytes) (off : Z) :
  0 <= load_le w buf off < 2 ^ (8 * Z.of_nat w).
Proof.
  unfold load_le.
  pose proof (le_combine_bound (sub buf (Z.to_nat off) w)) as H.
  assert (Hl : (length (sub buf (Z.to_nat off) w) <= w)%nat)
    by (unfold sub; rewrite length_firstn; lia).
  assert (2 ^ (8 * Z.of_nat (length (sub buf (Z.to_nat off) w)))
          <= 2 ^ (8 * Z.of_nat w)) by (apply Z.pow_le_mono_r; lia).
  lia.
Qed.

Lemma to_i64_small (x : Z) : - 2 ^ 63 <= x < 2 ^ 63 -> to_i64 x = x.
Proof. intros H. unfold to_i64. rewrite Z.mod_small by lia. lia. Qed.

Lemma to_u64_small (x : Z) : 0 <= x < 2 ^ 64 -> to_u64 x = x.
Proof. intros H. unfold to_u64. apply Z.mod_small. lia. Qed.

Lemma to_u32_small (x : Z) : 0 <= x < 2 ^ 32 -> to_u32 x = x.
Proof. intros H. unfold to_u32. apply Z.mod_small. lia. Qed.

(** The row range that [fstRead] resolves, for row numbers that fit a
    [long long]. *)
Lemma fstRead_range_spec (st : ReadState) (startRow endRow : Z) :
  let nrOfRows := load_u64 (rs_chunkIndex st) 64 in
  let firstRow := startRow - 1 in
  nrOfRows < 2 ^ 63 ->
  - 2 ^ 63 < startRow < 2 ^ 63 ->
  - 2 ^ 63 <= endRow < 2 ^ 63 ->
  fstRead_range st startRow endRow
  = if firstRow <? 0 then inl NegativeRow
    else if firstRow >=? nrOfRows then inl RowOutOfRange
    else if endRow =? -1 then inr (firstRow, nrOfRows - firstRow)
    else if endRow <=? firstRow then inl BadRange
    else inr (firstRow, Z.min (endRow - firstRow) (nrOfRows - firstRow)).
Proof.
  intros nrOfRows firstRow Hn Hs He.
  pose proof (load_le_range 8 (rs_chunkIndex st) 64) as Hr.
  change (load_le 8 (rs_chunkIndex st) 64) with nrOfRows in Hr.
  unfold fstRead_range. fold nrOfRows.
  rewrite (to_i64_small (startRow - 1)) by lia. fold firstRow.
  rewrite (to_i64_small nrOfRows) by lia.
  destruct (firstRow <? 0) eqn:Hneg.
  - rewrite orb_true_r. reflexivity.
  - rewrite orb_false_r. apply Z.ltb_ge in Hneg.
    destruct (firstRow >=? nrOfRows) eqn:Hout; [reflexivity|].
    assert (firstRow < nrOfRows) by lia.
    rewrite (to_u64_small (nrOfRows - firstRow)) by lia.
    rewrite (to_i64_small (nrOfRows - firstRow)) by lia.
    destruct (endRow =? -1); [reflexivity|]. cbn [negb].
    destruct (endRow <=? firstRow) eqn:Hbad; [reflexivity|].
    apply Z.leb_gt in Hbad.
    rewrite (to_i64_small (endRow - firstRow)) by lia. reflexivity.
Qed.

Lemma fstRead_steps {E : Env} (fs : FileSystem)
    (columnSelection : option (list string)) (startRow endRow : Z)
    (keyIndex : list Z) (st : ReadState) (colIndex : list Z) (nrOfSelect : Z) :
  fstRead_headers fs = inr st ->
  fstRead_selection st columnSelection = inr (colIndex, nrOfSelect) ->
  fstRead fs columnSelection startRow endRow keyIndex
  = match fstRead_range st startRow endRow with
    | inl e => inl e
    | inr (firstRow, length) =>
        match read_columns st firstRow length
                (load_u64 (rs_chunkIndex st) 64) colIndex with
        | inl e => inl e
        | inr cols =>
            inr {| outTable := {| rNrOfSelect := nrOfSelect;
                                  rLength := length;
                                  rColumns := cols |};
                   outKeyIndex :=
                     SetKeyIndex keyIndex (rs_keyLength st) nrOfSelect
                       (array_i32 (rs_metaDataBlock st) 8 (rs_keyLength st))
                       colIndex;
                   outSelectedCols :=
                     map (GetElement (rs_blockReader st)) colIndex |}
        end
    end.
Proof.
  intros Hh Hs. unfold fstRead. rewrite Hh. cbn [bind]. rewrite Hs.
  cbn [bind]. destruct (fstRead_range st startRow endRow) as [e|[firstRow len]];
    [reflexivity|]. cbn [bind].
  destruct (read_columns st firstRow len _ colIndex); reflexivity.
Qed.

(** C6.  Once the headers are read and the columns selected, the row range
    decides the outcome of the read: with [firstRow = startRow - 1] it fails
    with [NegativeRow] when [firstRow < 0], with [RowOutOfRange] when
    [firstRow >= nrOfRows], and, for [endRow <> -1], with [BadRange] when
    [endRow <= firstRow]; otherwise the range is accepted and a read that
    returns hands back [nrOfRows - firstRow] rows for [endRow = -1] and
    [min (endRow - firstRow) (nrOfRows - firstRow)] rows else. *)
Theorem fstRead_row_range {E : Env} (fs : FileSystem)
    (columnSelection : option (list string)) (startRow endRow : Z)
    (keyIndex : list Z) (st : ReadState) (colIndex : list Z) (nrOfSelect : Z) :
  fstRead_headers fs = inr st ->
  fstRead_selection st columnSelection = inr (colIndex, nrOfSelect) ->
  let nrOfRows := load_u64 (rs_chunkIndex st) 64 in
  let firstRow := startRow - 1 in
  let rows :=
    if endRow =? -1 then nrOfRows - firstRow
    else Z.min (endRow - firstRow) (nrOfRows - firstRow) in
  nrOfRows < 2 ^ 63 ->
  - 2 ^ 63 < startRow < 2 ^ 63 ->
  - 2 ^ 63 <= endRow < 2 ^ 63 ->
  (firstRow < 0 ->
   fstRead fs columnSelection startRow endRow keyIndex = inl NegativeRow)
  /\ (firstRow >= nrOfRows ->
      fstRead fs columnSelection startRow endRow keyIndex = inl RowOutOfRange)
  /\ (0 <= firstRow < nrOfRows -> endRow <> -1 -> endRow <= firstRow ->
      fstRead fs columnSelection startRow endRow keyIndex = inl BadRange)
  /\ (0 <= firstRow < nrOfRows -> endRow = -1 \/ firstRow < endRow ->
      fstRead_range st startRow endRow = inr (firstRow, rows)
      /\ forall out,
           fstRead fs columnSelection startRow endRow keyIndex = inr out ->
           rLength (outTable out) = rows).
Proof.
  intros Hh Hs nrOfRows firstRow rows Hn Hstart Hend.
  pose proof (load_le_range 8 (rs_chunkIndex st) 64) as Hr.
  change (load_le 8 (rs_chunkIndex st) 64) with nrOfRows in Hr.
  rewrite (fstRead_steps fs columnSelection startRow endRow keyIndex st
             colIndex nrOfSelect Hh Hs).
  rewrite (fstRead_range_spec st startRow endRow Hn Hstart Hend).
  fold nrOfRows firstRow.
  repeat split.
  - intros H. apply Z.ltb_lt in H. rewrite H. reflexivity.
  - intros H.
    destruct (firstRow <? 0) eqn:Hneg; [apply Z.ltb_lt in Hneg; lia|].
    destruct (firstRow >=? nrOfRows) eqn:Hout; [reflexivity|]. lia.
  - intros H Hne Hle.
    destruct (firstRow <? 0) eqn:Hneg; [apply Z.ltb_lt in Hneg; lia|].
    destruct (firstRow >=? nrOfRows) eqn:Hout; [lia|].
    destruct (endRow =? -1) eqn:He; [apply Z.eqb_eq in He; lia|].
    apply Z.leb_le in Hle. rewrite Hle. reflexivity.
  - destruct (firstRow <? 0) eqn:Hneg; [apply Z.ltb_lt in Hneg; lia|].
    destruct (firstRow >=? nrOfRows) eqn:Hout; [lia|].
    unfold rows.
    destruct (endRow =? -1) eqn:He; [reflexivity|].
    apply Z.eqb_neq in He.
    destruct (endRow <=? firstRow) eqn:Hle; [apply Z.leb_le in Hle; lia|].
    reflexivity.
  - intros out.
    destruct (firstRow <? 0) eqn:Hneg; [apply Z.ltb_lt in Hneg; lia|].
    destruct (firstRow >=? nrOfRows) eqn:Hout; [lia|].
    unfold rows.
    destruct (endRow =? -1) eqn:He.
    + destruct (read_columns st firstRow _ nrOfRows colIndex);
        [discriminate|]. intros Hout'. injection Hout' as <-. reflexivity.
    + apply Z.eqb_neq in He.
      destruct (endRow <=? firstRow) eqn:Hle; [apply Z.leb_le in Hle; lia|].
      destruct (read_columns st firstRow _ nrOfRows colIndex);
        [discriminate|]. intros Hout'. injection Hout' as <-. reflexivity.
Qed.

Lemma sample_state_headers :
  fstRead_headers (E := ref_env) sample_file = inr sample_state.
Proof. vm_compute. reflexivity. Qed.

Lemma fstRead_row_range_witness :
  fstRead (E := ref_env) sample_file None 0 (-1) [] = inl NegativeRow
  /\ fstRead (E := ref_env) sample_file None 4 (-1) [] = inl RowOutOfRange
  /\ fstRead (E := ref_env) sample_file None 3 2 [] = inl BadRange
  /\ fstRead_range sample_state 2 7 = inr (1, 2).
Proof.
  assert (Hsel : fstRead_selection sample_state None
                 = inr ([0; 1; 2; 3; 4; 5; 6], 7))
    by (vm_compute; reflexivity).
  assert (Hrows : load_u64 (rs_chunkIndex sample_state) 64 < 2 ^ 63)
    by (vm_compute; reflexivity).
  split; [|split; [|split]].
  - refine (proj1 (fstRead_row_range (E := ref_env) sample_file None 0 (-1) []
                     sample_state _ _ sample_state_headers Hsel Hrows _ _) _);
      vm_compute; intuition discriminate.
  - refine (proj1 (proj2 (fstRead_row_range (E := ref_env) sample_file None
                            4 (-1) [] sample_state _ _ sample_state_headers
                            Hsel Hrows _ _)) _);
      vm_compute; intuition discriminate.
  - refine (proj1 (proj2 (proj2 (fstRead_row_range (E := ref_env) sample_file
                                   None 3 2 [] sample_state _ _
                                   sample_state_headers Hsel Hrows _ _))) _ _ _);
      vm_compute; intuition discriminate.
  - refine (proj1 (proj2 (proj2 (proj2 (fstRead_row_range (E := ref_env)
                                          sample_file None 2 7 []
                                          sample_state _ _
                                          sample_state_headers Hsel Hrows
                                          _ _))) _ _));
      vm_compute; intuition discriminate.
Defined.

(** ** The column selection *)

Lemma strcmp_eq (str1 str2 : string) :
  (strcmp str1 str2 =? 0) = true <-> str1 = str2.
Proof.
  unfold strcmp. rewrite <- String.eqb_eq.
  destruct (String.eqb str1 str2); [tauto|].
  destruct (String.compare str1 str2); cbn; intuition discriminate.
Qed.

Lemma find_column_spec (blockReader : list string) (str1 : string)
    (remaining : nat) (colNr : Z) :
  0 <= colNr ->
  let equal := find_column remaining colNr str1 blockReader in
  (equal = -1
   /\ forall colNr', colNr <= colNr' < colNr + Z.of_nat remaining ->
                     GetElement blockReader colNr' <> str1)
  \/ (equal < colNr + Z.of_nat remaining
      /\ first_match blockReader str1 colNr equal).
Proof.
  revert colNr. induction remaining as [|remaining IH]; intros colNr Hc;
    cbn [find_column].
  - left. split; [reflexivity | intros; lia].
  - fold (GetElement blockReader colNr).
    destruct (strcmp str1 (GetElement blockReader colNr) =? 0) eqn:Hcmp.
    + apply strcmp_eq in Hcmp. right. split; [lia|].
      split; [lia|]. split; [congruence | intros; lia].
    + assert (Hne : GetElement blockReader colNr <> str1).
      { intros Heq. symmetry in Heq. apply strcmp_eq in Heq. congruence. }
      destruct (IH (colNr + 1) ltac:(lia)) as [[Heq Hnone]|[Hlt Hfm]].
      * left. split; [exact Heq|]. intros colNr' Hr.
        destruct (Z.eq_dec colNr' colNr) as [->|]; [exact Hne|].
        apply Hnone. lia.
      * right. split; [lia|]. destruct Hfm as (Hle & Hget & Hfirst).
        split; [lia|]. split; [exact Hget|]. intros colNr' Hr.
        destruct (Z.eq_dec colNr' colNr) as [->|]; [exact Hne|].
        apply Hfirst. lia.
Qed.

(** [select_columns] resolves every requested name to its first match, or
    fails when one of them matches no column. *)
Lemma select_columns_spec (blockReader : list string) (nrOfCols : Z)
    (requested : list string) :
  match select_columns requested nrOfCols blockReader with
  | inr colIndex =>
      Forall2 (fun name colNr =>
                 colNr < nrOfCols /\ first_match blockReader name 0 colNr)
        requested colIndex
  | inl e =>
      e = ColumnNotFound
      /\ exists name,
           In name requested
           /\ forall colNr, 0 <= colNr < nrOfCols ->
                            GetElement blockReader colNr <> name
  end.
Proof.
  induction requested as [|str1 rest IH]; cbn [select_columns].
  - constructor.
  - pose proof (find_column_spec blockReader str1 (Z.to_nat nrOfCols) 0
                  ltac:(lia)) as Hfind.
    cbv zeta in Hfind.
    destruct Hfind as [[Heq Hnone]|[Hlt Hfm]].
    + rewrite Heq. cbn. split; [reflexivity|]. exists str1.
      split; [now left|]. intros colNr Hr. apply Hnone. lia.
    + assert (Hne : (find_column (Z.to_nat nrOfCols) 0 str1 blockReader =? -1)
                    = false).
      { apply Z.eqb_neq. destruct Hfm as (Hle & _). lia. }
      rewrite Hne.
      destruct (select_columns rest nrOfCols blockReader) as [e|colIndex];
        cbn [bind].
      * destruct IH as (-> & name & Hin & Hnone). split; [reflexivity|].
        exists name. split; [now right | exact Hnone].
      * constructor; [|exact IH]. split; [|exact Hfm].
        destruct Hfm as (Hle & _). lia.
Qed.

Lemma Forall2_first_match_names (blockReader requested : list string)
    (nrOfCols : Z) (colIndex : list Z) :
  Forall2 (fun name colNr =>
             colNr < nrOfCols /\ first_match blockReader name 0 colNr)
    requested colIndex ->
  map (GetElement blockReader) colIndex = requested.
Proof.
  induction 1 as [|name colNr requested colIndex [_ (_ & Hget & _)] _ IH].
  - reflexivity.
  - cbn [map]. now rewrite Hget, IH.
Qed.

Lemma Forall2_In_l {A B : Type} (P : A -> B -> Prop) (l1 : list A)
    (l2 : list B) (x : A) :
  Forall2 P l1 l2 -> In x l1 -> exists y, In y l2 /\ P x y.
Proof.
  induction 1 as [|a b l1 l2 Hab _ IH]; cbn [In]; [tauto|].
  intros [->|Hin].
  - exists b. split; [now left | exact Hab].
  - destruct (IH Hin) as (y & Hy & Hxy). exists y. split; [now right|exact Hxy].
Qed.

(** ** The writer, block by block *)

Lemma split_length (l : bytes) (a b : nat) :
  length l = (a + b)%nat ->
  exists l1 l2, l = l1 ++ l2 /\ length l1 = a /\ length l2 = b.
Proof.
  intros H. exists (firstn a l), (skipn a l).
  rewrite firstn_skipn, length_firstn, length_skipn. repeat split; lia.
Qed.

Lemma sub_take (a l : bytes) (off len : nat) :
  off = 0%nat -> (length a <= len)%nat ->
  sub (a ++ l) off len = a ++ sub l 0 (len - length a).
Proof.
  intros -> H. unfold sub. cbn [skipn].
  rewrite firstn_app, firstn_all2 by lia. reflexivity.
Qed.

Lemma sub_nil (l : bytes) (off len : nat) : len = 0%nat -> sub l off len = [].
Proof. intros ->. reflexivity. Qed.

Ltac solve_len :=
  repeat (rewrite length_app || rewrite length_le_split
          || rewrite length_flat_map_le_split || rewrite length_map);
  cbn [length]; lia.

Ltac store_norm :=
  repeat first [ rewrite store_here by solve_len
               | rewrite store_skip by solve_len ].

Ltac sub_norm :=
  repeat first [ rewrite sub_nil by solve_len
               | rewrite sub_here by solve_len
               | rewrite sub_skip by solve_len
               | rewrite sub_take by solve_len ].

(** [split_buf g a b g1 g2]: with [length g = a + b] among the hypotheses,
    [g] becomes [g1 ++ g2] with [length g1 = a] and [length g2 = b]. *)
Ltac split_buf g a b g1 g2 :=
  let Hs := fresh "Hsplit" in
  let H1 := fresh "Hlen" in
  let H2 := fresh "Hlen" in
  match goal with
  | H : length g = _ |- _ =>
      destruct (split_length g a b ltac:(lia)) as (g1 & g2 & Hs & H1 & H2);
      subst g; clear H
  end.

Section Writer.
Context {E : Env}.

Lemma set_table_header_spec (t : IFstTable) (g rest : bytes) :
  length g = 44%nat ->
  set_table_header t (g ++ rest) = with_hash (table_header_body t) ++ rest.
Proof.
  intros Hg.
  split_buf g 8%nat 36%nat g1 g'. split_buf g' 4%nat 32%nat g2 g.
  split_buf g 4%nat 28%nat g3 g'. split_buf g' 8%nat 20%nat g4 g.
  split_buf g 4%nat 16%nat g5 g'. split_buf g' 4%nat 12%nat g6 g.
  split_buf g 8%nat 4%nat g7 g8.
  unfold set_table_header, store_u32, store_u64, store_le.
  cbv zeta. rewrite <- !app_assoc.
  store_norm. sub_norm. store_norm.
  unfold with_hash, table_header_body. rewrite <- !app_assoc.
  rewrite ?app_nil_r. reflexivity.
Qed.

Lemma set_key_index_spec (t : IFstTable) (pre g1 g2 rest : bytes) :
  NrOfKeys t <> 0 ->
  length pre = 44%nat -> length g1 = 8%nat ->
  length g2 = (4 * length (KeyColumns t))%nat ->
  set_key_index t (4 * (NrOfKeys t + 2)) (pre ++ g1 ++ g2 ++ rest)
  = pre ++ key_index_record t ++ rest.
Proof.
  intros Hk Hpre Hg1 Hg2. unfold set_key_index, key_index_record.
  apply Z.eqb_neq in Hk. rewrite Hk. cbn [negb]. apply Z.eqb_neq in Hk.
  unfold NrOfKeys in *. unfold store_u64, store_le. cbv zeta.
  store_norm. sub_norm. store_norm.
  unfold with_hash. rewrite <- ?app_assoc. reflexivity.
Qed.

Lemma set_key_index_none (t : IFstTable) (buf : bytes) :
  NrOfKeys t = 0 ->
  set_key_index t 0 buf = buf /\ key_index_record t = [].
Proof.
  intros Hk. unfold set_key_index, key_index_record. rewrite Hk.
  split; reflexivity.
Qed.

Lemma set_chunkset_header_spec (t : IFstTable) (offset : Z)
    (pre g1 g2 rest : bytes) :
  offset = Z.of_nat (length pre) ->
  length g1 = 8%nat -> length g2 = 68%nat ->
  set_chunkset_header t offset (pre ++ g1 ++ g2 ++ rest)
  = pre ++ g1 ++ chunkset_fixed_fields t ++ rest.
Proof.
  intros Hoff Hg1 Hg2.
  split_buf g2 4%nat 64%nat f1 g. split_buf g 4%nat 60%nat f2 g2.
  split_buf g2 8%nat 52%nat f3 g. split_buf g 8%nat 44%nat f4 g2.
  split_buf g2 8%nat 36%nat f5 g. split_buf g 8%nat 28%nat f6 g2.
  split_buf g2 8%nat 20%nat f7 g. split_buf g 8%nat 12%nat f8 g2.
  split_buf g2 8%nat 4%nat f9 f10.
  unfold set_chunkset_header, store_u32, store_u64, store_le.
  cbv zeta. rewrite <- !app_assoc.
  store_norm.
  unfold chunkset_fixed_fields. rewrite <- !app_assoc. reflexivity.
Qed.

Lemma set_colnames_header_spec (offset : Z) (pre g1 g2 rest : bytes) :
  offset = Z.of_nat (length pre) ->
  length g1 = 8%nat -> length g2 = 16%nat ->
  set_colnames_header offset (pre ++ g1 ++ g2 ++ rest)
  = pre ++ g1 ++ colnames_header_body ++ rest.
Proof.
  intros Hoff Hg1 Hg2.
  split_buf g2 4%nat 12%nat f1 g. split_buf g 4%nat 8%nat f2 f3.
  unfold set_colnames_header, store_u32, store_u64, store_le.
  cbv zeta. rewrite <- !app_assoc.
  store_norm.
  unfold colnames_header_body. rewrite <- !app_assoc. reflexivity.
Qed.

Lemma length_colnames_header_body : length colnames_header_body = 16%nat.
Proof. reflexivity. Qed.

Lemma store_colnames_hash (offset : Z) (pre g1 rest : bytes) :
  offset = Z.of_nat (length pre) ->
  length g1 = 8%nat ->
  let metaDataBlock := pre ++ g1 ++ colnames_header_body ++ rest in
  store_u64 metaDataBlock offset
    (header_hash (sub metaDataBlock (Z.to_nat (offset + 8))
                    (Z.to_nat (24 - 8))))
  = pre ++ with_hash colnames_header_body ++ rest.
Proof.
  intros Hoff Hg1. cbv zeta. unfold store_u64, store_le.
  pose proof length_colnames_header_body as Hb.
  sub_norm. store_norm. unfold with_hash. rewrite <- ?app_assoc. reflexivity.
Qed.

End Writer.

Section WriterChunks.
Context {E : Env}.

(** The chunk index buffer after the header fields are set: the two hash
    slots [h1] and [h2], the first slot [p0] of [chunkPos] and the position
    data [d] are still to come, and the slots 1 to 3 of [chunkPos] and of
    [chunkRows], [pu] and [ru], keep the bytes of the fresh buffer. *)
Lemma set_chunk_headers_spec (nrOfRows : Z)
    (h1 g1 p0 pu r0 ru h2 g2 d : bytes) :
  length h1 = 8%nat -> length g1 = 24%nat -> length p0 = 8%nat ->
  length pu = 24%nat -> length r0 = 8%nat -> length ru = 24%nat ->
  length h2 = 8%nat -> length g2 = 16%nat ->
  set_chunk_headers nrOfRows
    (h1 ++ g1 ++ p0 ++ pu ++ r0 ++ ru ++ h2 ++ g2 ++ d)
  = h1 ++ (le_split 4 FST_VERSION ++ le_split 4 0 ++ le_split 8 0
           ++ le_split 2 4 ++ le_split 2 0 ++ le_split 2 0 ++ le_split 2 0)
      ++ p0 ++ pu ++ le_split 8 nrOfRows ++ ru
      ++ h2 ++ (le_split 4 FST_VERSION ++ le_split 4 0 ++ le_split 8 0) ++ d.
Proof.
  intros Hh1 Hg1 Hp0 Hpu Hr0 Hru Hh2 Hg2.
  split_buf g1 4%nat 20%nat f1 g. split_buf g 4%nat 16%nat f2 g1.
  split_buf g1 8%nat 8%nat f3 g. split_buf g 2%nat 6%nat f4 g1.
  split_buf g1 2%nat 4%nat f5 g. split_buf g 2%nat 2%nat f6 f7.
  split_buf g2 4%nat 12%nat e1 g. split_buf g 4%nat 8%nat e2 e3.
  unfold set_chunk_headers, store_u16, store_u32, store_u64, store_le.
  cbv zeta. rewrite <- !app_assoc. store_norm. reflexivity.
Qed.

End WriterChunks.

Section WriterColumns.
Context {E : Env}.

(** One turn of the column loop, on buffers cut at the entries of column
    [j]: the four array entries and the position entry are set, and the
    payload is appended to the file. *)
Lemma write_column_spec (offset nrOfCols nrOfRows compress : Z) (j r : nat)
    (col : Column) (P Ad a Ar Td ty Tr Bd b Br Sd s Sr Q C Dd d Dr : bytes)
    (content : bytes) :
  known_type col ->
  offset + 76 = Z.of_nat (length P) ->
  nrOfCols = Z.of_nat (j + 1 + r) ->
  length Ad = (2 * j)%nat -> length a = 2%nat -> length Ar = (2 * r)%nat ->
  length Td = (2 * j)%nat -> length ty = 2%nat -> length Tr = (2 * r)%nat ->
  length Bd = (2 * j)%nat -> length b = 2%nat -> length Br = (2 * r)%nat ->
  length Sd = (2 * j)%nat -> length s = 2%nat ->
  length C = 120%nat -> length Dd = (8 * j)%nat -> length d = 8%nat ->
  write_column offset nrOfCols nrOfRows compress (Z.of_nat j) col
    {| w_metaDataBlock :=
         P ++ Ad ++ a ++ Ar ++ Td ++ ty ++ Tr ++ Bd ++ b ++ Br
           ++ Sd ++ s ++ Sr ++ Q;
       w_chunkIndex := C ++ Dd ++ d ++ Dr;
       w_myfile := {| o_content := content; o_pos := length content;
                      o_fail := false |} |}
  = (None,
     {| w_metaDataBlock :=
          P ++ Ad ++ le_split 2 (FstColumnAttribute_value (colAttribute col))
            ++ Ar ++ Td ++ le_split 2 (colTypes_code (colData col))
            ++ Tr ++ Bd
            ++ le_split 2 (FstColumnType_value (ColumnData_type (colData col)))
            ++ Br ++ Sd ++ le_split 2 (colScale col) ++ Sr ++ Q;
        w_chunkIndex :=
          C ++ Dd ++ le_split 8 (Z.of_nat (length content)) ++ Dr;
        w_myfile :=
          {| o_content := content ++ column_payload nrOfRows compress col;
             o_pos := length (content ++ column_payload nrOfRows compress col);
             o_fail := false |} |}).
Proof.
  intros Hk HP Hn HAd Ha HAr HTd Hty HTr HBd Hb HBr HSd Hs HC HDd Hd.
  unfold write_column, column_payload, known_type in *.
  cbv zeta. cbn [w_metaDataBlock w_chunkIndex w_myfile].
  unfold tellp, o_write. cbn [o_fail o_content o_pos].
  unfold store_u16, store_u64, store_le.
  destruct (colData col); [contradiction|..];
    cbn [ColumnData_type colTypes_code];
    store_norm; rewrite put_append by reflexivity;
    rewrite length_app; reflexivity.
Qed.

End WriterColumns.

Section WriterLoop.
Context {E : Env}.

Lemma u16_array_cons (x : Z) (v : list Z) :
  u16_array (x :: v) = le_split 2 x ++ u16_array v.
Proof. reflexivity. Qed.

Lemma length_u16_array (v : list Z) : length (u16_array v) = (2 * length v)%nat.
Proof. apply length_flat_map_le_split. Qed.

(** The column loop on columns of known type: it fills the four column
    arrays of the chunkset header and the position data with one entry per
    column, and appends the payloads to the file in column order. *)
Lemma write_columns_spec (offset nrOfCols nrOfRows compress : Z)
    (cols : list Column) :
  Forall known_type cols ->
  forall (j : nat) (P Ad Ar Td Tr Bd Br Sd Sr Q C Dd Dr content : bytes),
    offset + 76 = Z.of_nat (length P) ->
    nrOfCols = Z.of_nat (j + length cols) ->
    length Ad = (2 * j)%nat -> length Ar = (2 * length cols)%nat ->
    length Td = (2 * j)%nat -> length Tr = (2 * length cols)%nat ->
    length Bd = (2 * j)%nat -> length Br = (2 * length cols)%nat ->
    length Sd = (2 * j)%nat -> length Sr = (2 * length cols)%nat ->
    length C = 120%nat -> length Dd = (8 * j)%nat ->
    length Dr = (8 * length cols)%nat ->
    let payloads := map (column_payload nrOfRows compress) cols in
    write_columns offset nrOfCols nrOfRows compress (Z.of_nat j) cols
      {| w_metaDataBlock := P ++ Ad ++ Ar ++ Td ++ Tr ++ Bd ++ Br ++ Sd ++ Sr ++ Q;
         w_chunkIndex := C ++ Dd ++ Dr;
         w_myfile := {| o_content := content; o_pos := length content;
                        o_fail := false |} |}
    = (None,
       {| w_metaDataBlock :=
            P ++ Ad ++ u16_array (colAttributeTypes_of cols)
              ++ Td ++ u16_array (colTypes_of cols)
              ++ Bd ++ u16_array (colBaseTypes_of cols)
              ++ Sd ++ u16_array (colScales_of cols) ++ Q;
          w_chunkIndex :=
            C ++ Dd ++ flat_map (le_split 8) (positions (length content) payloads);
          w_myfile :=
            {| o_content := content ++ concat payloads;
               o_pos := length (content ++ concat payloads);
               o_fail := false |} |}).
Proof.
  induction 1 as [|col cols Hcol Hcols IH];
    intros j P Ad Ar Td Tr Bd Br Sd Sr Q C Dd Dr content
      HP Hn HAd HAr HTd HTr HBd HBr HSd HSr HC HDd HDr payloads.
  - cbn [length] in *.
    destruct Ar; [|discriminate]. destruct Tr; [|discriminate].
    destruct Br; [|discriminate]. destruct Sr; [|discriminate].
    destruct Dr; [|discriminate].
    subst payloads. cbn. rewrite !app_nil_r. reflexivity.
  - cbn [length] in *.
    split_buf Ar 2%nat (2 * length cols)%nat a Ar'.
    split_buf Tr 2%nat (2 * length cols)%nat ty Tr'.
    split_buf Br 2%nat (2 * length cols)%nat b Br'.
    split_buf Sr 2%nat (2 * length cols)%nat s Sr'.
    split_buf Dr 8%nat (8 * length cols)%nat d Dr'.
    cbn [write_columns]. rewrite <- !app_assoc.
    rewrite (write_column_spec offset nrOfCols nrOfRows compress j
               (length cols) col P Ad a Ar' Td ty Tr' Bd b Br' Sd s Sr' Q
               C Dd d Dr' content) by (assumption || lia).
    replace (Z.of_nat j + 1) with (Z.of_nat (S j)) by lia.
    set (pa := le_split 2 (FstColumnAttribute_value (colAttribute col))).
    set (pt := le_split 2 (colTypes_code (colData col))).
    set (pb :=
           le_split 2 (FstColumnType_value (ColumnData_type (colData col)))).
    set (ps := le_split 2 (colScale col)).
    set (pd := le_split 8 (Z.of_nat (length content))).
    set (payload := column_payload nrOfRows compress col).
    assert (Hpa : length pa = 2%nat) by apply length_le_split.
    assert (Hpt : length pt = 2%nat) by apply length_le_split.
    assert (Hpb : length pb = 2%nat) by apply length_le_split.
    assert (Hps : length ps = 2%nat) by apply length_le_split.
    assert (Hpd : length pd = 8%nat) by apply length_le_split.
    replace (P ++ Ad ++ pa ++ Ar' ++ Td ++ pt ++ Tr' ++ Bd ++ pb ++ Br'
               ++ Sd ++ ps ++ Sr' ++ Q)
      with (P ++ (Ad ++ pa) ++ Ar' ++ (Td ++ pt) ++ Tr' ++ (Bd ++ pb) ++ Br'
              ++ (Sd ++ ps) ++ Sr' ++ Q)
      by (rewrite <- !app_assoc; reflexivity).
    replace (C ++ Dd ++ pd ++ Dr') with (C ++ (Dd ++ pd) ++ Dr')
      by (rewrite <- !app_assoc; reflexivity).
    rewrite (IH (S j) P (Ad ++ pa) Ar' (Td ++ pt) Tr' (Bd ++ pb) Br'
               (Sd ++ ps) Sr' Q C (Dd ++ pd) Dr' (content ++ payload))
      by (rewrite ?length_app; lia).
    subst payloads. cbn [map concat positions].
    unfold colAttributeTypes_of, colTypes_of, colBaseTypes_of, colScales_of.
    cbn [map]. rewrite !u16_array_cons. cbn [flat_map].
    fold pa pt pb ps pd payload.
    rewrite <- !app_assoc. rewrite !length_app. reflexivity.
Qed.

End WriterLoop.

Section WriterLayout.
Context {E : Env}.

Lemma length_with_hash (body : bytes) :
  length (with_hash body) = (8 + length body)%nat.
Proof. unfold with_hash. rewrite length_app, length_le_split. reflexivity. Qed.

Lemma length_table_header_body (t : IFstTable) :
  length (table_header_body t) = 36%nat.
Proof. reflexivity. Qed.

Lemma length_chunkset_fixed_fields (t : IFstTable) :
  length (chunkset_fixed_fields t) = 68%nat.
Proof. reflexivity. Qed.

Lemma length_key_index_record (t : IFstTable) :
  length (key_index_record t) = Z.to_nat (key_index_size t).
Proof.
  unfold key_index_record, key_index_size, NrOfKeys.
  destruct (Z.of_nat (length (KeyColumns t)) =? 0) eqn:Hk; cbn [negb].
  - reflexivity.
  - rewrite length_with_hash, length_flat_map_le_split. lia.
Qed.

Lemma set_key_index_any (t : IFstTable) (pre gK rest : bytes) :
  length pre = 44%nat -> length gK = Z.to_nat (key_index_size t) ->
  set_key_index t (key_index_size t) (pre ++ gK ++ rest)
  = pre ++ key_index_record t ++ rest.
Proof.
  intros Hpre HgK. unfold key_index_size in *.
  destruct (NrOfKeys t =? 0) eqn:Hk; cbn [negb] in *.
  - apply Z.eqb_eq in Hk.
    destruct (set_key_index_none t (pre ++ gK ++ rest) Hk) as [-> ->].
    destruct gK; [reflexivity | discriminate].
  - apply Z.eqb_neq in Hk.
    assert (HgK' : length gK = (8 + 4 * length (KeyColumns t))%nat)
      by (unfold NrOfKeys in *; lia).
    split_buf gK 8%nat (4 * length (KeyColumns t))%nat g1 g2.
    rewrite <- app_assoc.
    apply set_key_index_spec; assumption.
Qed.

End WriterLayout.

Section WriterMeta.
Context {E : Env}.

Lemma key_index_size_range (t : IFstTable) :
  NrOfKeys t < 2 ^ 27 -> 0 <= key_index_size t < 2 ^ 30.
Proof.
  intros H. unfold key_index_size, NrOfKeys in *.
  destruct (Z.of_nat (length (KeyColumns t)) =? 0); cbn [negb]; lia.
Qed.

(** The metadata block when the file is opened: every header is in place
    but for the hash [gh] of the chunkset header and its four column
    arrays, which still hold the bytes of the fresh buffer. *)
Lemma meta_block_spec (t : IFstTable) (g : bytes) :
  NrOfKeys t < 2 ^ 27 ->
  let n := length (Columns t) in
  let offset := 44 + key_index_size t in
  let offset' := offset + (76 + 8 * NrOfColumns t) in
  length g = Z.to_nat (offset' + 24) ->
  let metaDataBlock :=
    set_colnames_header offset'
      (set_chunkset_header t offset
         (set_key_index t (key_index_size t) (set_table_header t g))) in
  exists gh gA gT gB gS,
    length gh = 8%nat /\ length gA = (2 * n)%nat /\ length gT = (2 * n)%nat
    /\ length gB = (2 * n)%nat /\ length gS = (2 * n)%nat
    /\ store_u64 metaDataBlock offset'
         (header_hash (sub metaDataBlock (Z.to_nat (offset' + 8))
                         (Z.to_nat (24 - 8))))
       = with_hash (table_header_body t) ++ key_index_record t ++ gh
           ++ chunkset_fixed_fields t ++ gA ++ gT ++ gB ++ gS
           ++ with_hash colnames_header_body.
Proof.
  intros Hk n offset offset' Hg metaDataBlock.
  pose proof (key_index_size_range t Hk) as Hks.
  unfold NrOfColumns in *. fold n in offset', Hg.
  set (ks := Z.to_nat (key_index_size t)) in *.
  assert (Hks' : Z.of_nat ks = key_index_size t) by (subst ks; lia).
  split_buf g 44%nat (ks + 8 + 68 + 8 * n + 24)%nat gTH g'.
  split_buf g' ks (8 + 68 + 8 * n + 24)%nat gK g.
  split_buf g 8%nat (68 + 8 * n + 24)%nat gh g'.
  split_buf g' 68%nat (8 * n + 24)%nat gf g.
  split_buf g (2 * n)%nat (6 * n + 24)%nat gA g'.
  split_buf g' (2 * n)%nat (4 * n + 24)%nat gT g.
  split_buf g (2 * n)%nat (2 * n + 24)%nat gB g'.
  split_buf g' (2 * n)%nat 24%nat gS g.
  split_buf g 8%nat 16%nat gnh gn.
  exists gh, gA, gT, gB, gS. repeat (split; [assumption|]).
  subst metaDataBlock.
  rewrite set_table_header_spec by assumption.
  rewrite set_key_index_any
    by (rewrite ?length_with_hash, ?length_table_header_body; lia).
  set (TH := with_hash (table_header_body t)).
  set (KI := key_index_record t).
  assert (HTH : length TH = 44%nat)
    by (subst TH; rewrite length_with_hash; reflexivity).
  assert (HKI : length KI = ks) by (subst KI; apply length_key_index_record).
  rewrite (app_assoc TH KI).
  rewrite (set_chunkset_header_spec t offset (TH ++ KI) gh gf)
    by (rewrite ?length_app; subst offset; lia).
  set (CF := chunkset_fixed_fields t).
  assert (HCF : length CF = 68%nat) by reflexivity.
  replace ((TH ++ KI) ++ gh ++ CF ++ gA ++ gT ++ gB ++ gS ++ gnh ++ gn)
    with ((TH ++ KI ++ gh ++ CF ++ gA ++ gT ++ gB ++ gS) ++ gnh ++ gn ++ [])
    by (rewrite <- !app_assoc, app_nil_r; reflexivity).
  set (pre := TH ++ KI ++ gh ++ CF ++ gA ++ gT ++ gB ++ gS).
  assert (Hpre : offset' = Z.of_nat (length pre)).
  { subst pre offset' offset. rewrite !length_app. lia. }
  rewrite (set_colnames_header_spec offset' pre gnh gn []) by assumption.
  rewrite (store_colnames_hash offset' pre gnh []) by assumption.
  subst pre. rewrite <- !app_assoc, app_nil_r. reflexivity.
Qed.

End WriterMeta.

Section WriterFinish.
Context {E : Env}.

Lemma load_le_split (w : nat) (x : Z) (pre rest : bytes) (off : Z) :
  off = Z.of_nat (length pre) ->
  load_le w (pre ++ le_split w x ++ rest) off = x mod 2 ^ (Z.of_nat w * 8).
Proof.
  intros ->. unfold load_le. rewrite Nat2Z.id.
  rewrite sub_skip by lia. rewrite sub_here by (rewrite ?length_le_split; lia).
  apply le_combine_split.
Qed.

(** The end of [fstWrite]: the first slot of [chunkPos] and the three hashes
    that are still open are set, and the two header blocks are written over
    their placeholders in the file. *)
Lemma finish_write_spec (fs : FileSystem) (n ks : nat)
    (TH KI gh CB CN mdb0 NP h1 F1 p0 pu R8 ru h2 F2 D' ci0 PL : bytes) :
  let start := (length mdb0 + length NP)%nat in
  let pos0 := Z.of_nat (start + 120 + 8 * n) in
  pos0 < 2 ^ 64 ->
  Z.of_nat n < 2 ^ 27 -> Z.of_nat ks < 2 ^ 30 ->
  length TH = 44%nat -> length KI = ks -> length gh = 8%nat ->
  length CB = (68 + 8 * n)%nat -> length CN = 24%nat ->
  length mdb0 = (44 + ks + 76 + 8 * n + 24)%nat ->
  length h1 = 8%nat -> length F1 = 24%nat -> length p0 = 8%nat ->
  length pu = 24%nat -> length R8 = 8%nat -> length ru = 24%nat ->
  length h2 = 8%nat -> length F2 = 16%nat -> (8 + length D' = 8 * n)%nat ->
  length ci0 = (120 + 8 * n)%nat ->
  let D := le_split 8 pos0 ++ D' in
  let content := mdb0 ++ NP ++ ci0 ++ PL in
  finish_write fs (Z.of_nat n) 44 (Z.of_nat ks) (76 + 8 * Z.of_nat n)
    (120 + 8 * Z.of_nat n)
    {| w_metaDataBlock := TH ++ KI ++ gh ++ CB ++ CN;
       w_chunkIndex := h1 ++ F1 ++ p0 ++ pu ++ R8 ++ ru ++ h2 ++ F2 ++ D;
       w_myfile := {| o_content := content; o_pos := length content;
                      o_fail := false |} |}
  = (inr tt,
     {| fileData :=
          Some ((TH ++ KI ++ with_hash CB ++ CN) ++ NP
                  ++ with_hash (F1 ++ le_split 8 (Z.of_nat start + 96) ++ pu
                                  ++ R8 ++ ru)
                  ++ with_hash (F2 ++ D) ++ PL);
        canWrite := canWrite fs |}).
Proof.
  intros start pos0 Hpos Hn Hks HTH HKI Hgh HCB HCN Hmdb0 Hh1 HF1 Hp0 Hpu HR8
    Hru Hh2 HF2 HD Hci0 D content.
  unfold finish_write. cbv zeta. cbn [w_metaDataBlock w_chunkIndex w_myfile].
  change DATA_INDEX_SIZE with 24. change CHUNK_INDEX_SIZE with 96.
  rewrite (to_u32_small (44 + Z.of_nat ks)) by lia.
  (* the first slot of chunkPos *)
  assert (Hload : load_u64 (h1 ++ F1 ++ p0 ++ pu ++ R8 ++ ru ++ h2 ++ F2 ++ D)
                    120 = pos0).
  { subst D.
    replace (h1 ++ F1 ++ p0 ++ pu ++ R8 ++ ru ++ h2 ++ F2
               ++ le_split 8 pos0 ++ D')
      with ((h1 ++ F1 ++ p0 ++ pu ++ R8 ++ ru ++ h2 ++ F2)
              ++ le_split 8 pos0 ++ D')
      by (rewrite <- !app_assoc; reflexivity).
    unfold load_u64. rewrite load_le_split by (rewrite !length_app; lia).
    apply Z.mod_small. subst pos0. cbn. lia. }
  rewrite Hload.
  replace (to_u64 (pos0 - 8 * Z.of_nat n - 24)) with (Z.of_nat start + 96)
    by (subst pos0; rewrite to_u64_small; lia).
  unfold store_u64, store_le. store_norm.
  set (cp := le_split 8 (Z.of_nat start + 96)).
  assert (Hcp : length cp = 8%nat) by apply length_le_split.
  assert (HDl : length D = (8 * n)%nat)
    by (subst D; rewrite length_app, length_le_split; lia).
  (* the hash of the chunkset header *)
  assert (Hsub1 : sub (TH ++ KI ++ gh ++ CB ++ CN)
                    (Z.to_nat (44 + Z.of_nat ks + 8))
                    (Z.to_nat (76 + 8 * Z.of_nat n - 8)) = CB)
    by (sub_norm; reflexivity).
  rewrite Hsub1.
  (* the hash of the chunk index *)
  assert (Hsub2 : sub (h1 ++ F1 ++ cp ++ pu ++ R8 ++ ru ++ h2 ++ F2 ++ D) 8
                    (Z.to_nat (96 - 8)) = F1 ++ cp ++ pu ++ R8 ++ ru).
  { sub_norm. rewrite ?app_nil_r. reflexivity. }
  rewrite Hsub2.
  set (ih := le_split 8 (header_hash (F1 ++ cp ++ pu ++ R8 ++ ru))).
  assert (Hih : length ih = 8%nat) by apply length_le_split.
  (* the hash of the data chunk header *)
  assert (Hsub3 : sub (ih ++ F1 ++ cp ++ pu ++ R8 ++ ru ++ h2 ++ F2 ++ D)
                    (Z.to_nat (96 + 8))
                    (Z.to_nat (120 + 8 * Z.of_nat n - (96 + 8))) = F2 ++ D).
  { sub_norm. rewrite sub_all by lia. reflexivity. }
  rewrite Hsub3.
  set (dh := le_split 8 (header_hash (F2 ++ D))).
  assert (Hdh : length dh = 8%nat) by apply length_le_split.
  (* the position of the chunk index in the file *)
  assert (Hload2 : load_u64 (ih ++ F1 ++ cp ++ pu ++ R8 ++ ru ++ dh ++ F2 ++ D)
                     32 = Z.of_nat start + 96).
  { replace (ih ++ F1 ++ cp ++ pu ++ R8 ++ ru ++ dh ++ F2 ++ D)
      with ((ih ++ F1) ++ cp ++ pu ++ R8 ++ ru ++ dh ++ F2 ++ D)
      by (rewrite <- !app_assoc; reflexivity).
    subst cp. unfold load_u64.
    rewrite load_le_split by (rewrite !length_app; lia).
    apply Z.mod_small. subst pos0. cbn. lia. }
  rewrite Hload2.
  replace (to_u64 (Z.of_nat start + 96 - 96)) with (Z.of_nat start)
    by (rewrite to_u64_small; subst pos0; lia).
  (* the two rewrites *)
  unfold seekp, o_write. cbn [o_fail o_content o_pos]. unfold close_out.
  cbn [o_content]. subst content.
  set (ch := le_split 8 (header_hash CB)).
  assert (Hch : length ch = 8%nat) by apply length_le_split.
  rewrite (put_here mdb0 (NP ++ ci0 ++ PL) (Z.to_nat 0)
             (TH ++ KI ++ ch ++ CB ++ CN))
    by (rewrite ?length_app; lia).
  rewrite Nat2Z.id.
  rewrite (put_skip (TH ++ KI ++ ch ++ CB ++ CN))
    by (subst start; rewrite ?length_app; lia).
  rewrite (put_skip NP) by (subst start; rewrite ?length_app; lia).
  rewrite (put_here ci0 PL) by (subst start; rewrite ?length_app; lia).
  unfold with_hash. fold ch ih dh. rewrite <- !app_assoc. reflexivity.
Qed.

End WriterFinish.

Section WriterMain.
Context {E : Env}.

Lemma key_index_size_eq (t : IFstTable) :
  NrOfKeys t < 2 ^ 27 ->
  (if negb (NrOfKeys t =? 0) then to_u64 (4 * (NrOfKeys t + 2)) else 0)
  = key_index_size t.
Proof.
  intros H. unfold key_index_size.
  destruct (NrOfKeys t =? 0); cbn [negb]; [reflexivity|].
  apply to_u64_small. unfold NrOfKeys in *. lia.
Qed.

(** The file [fstWrite] leaves behind, in closed form. *)
Lemma fstWrite_layout (fs : FileSystem) (t : IFstTable) (compress : Z) :
  writable t ->
  canWrite fs = true ->
  Z.of_nat (chunk_index_start t) + 120 + 8 * NrOfColumns t < 2 ^ 64 ->
  fstWrite fs t compress
  = (inr tt,
     {| fileData := Some (written_file t compress); canWrite := canWrite fs |}).
Proof.
  intros [Hcols Hkeys Hrows Htypes] Hcw Hsize.
  pose proof (key_index_size_range t Hkeys) as Hks.
  unfold fstWrite. cbv zeta.
  destruct (NrOfColumns t =? 0) eqn:Hn0; [apply Z.eqb_eq in Hn0; lia|].
  apply Z.eqb_neq in Hrows. rewrite Hrows.
  unfold open_out. rewrite Hcw. cbn [negb o_fail].
  rewrite (key_index_size_eq t Hkeys).
  change CHUNKSET_HEADER_SIZE with 76. change CHUNK_INDEX_SIZE with 96.
  change DATA_INDEX_SIZE with 24.
  rewrite (to_u64_small (76 + 8 * NrOfColumns t)) by lia.
  rewrite (to_u64_small (44 + key_index_size t + (76 + 8 * NrOfColumns t) + 24))
    by lia.
  rewrite (to_u32_small (44 + key_index_size t)) by lia.
  rewrite (to_u32_small (44 + key_index_size t + (76 + 8 * NrOfColumns t)))
    by lia.
  rewrite (to_u64_small (96 + 24 + 8 * NrOfColumns t)) by lia.
  set (n := length (Columns t)) in *.
  assert (Hn : NrOfColumns t = Z.of_nat n) by reflexivity.
  set (ks := Z.to_nat (key_index_size t)).
  assert (Hks' : key_index_size t = Z.of_nat ks) by (subst ks; lia).
  set (R := to_u64 (NrOfRows t)) in *.
  (* the metadata block *)
  destruct (meta_block_spec t
              (new_char (44 + key_index_size t + (76 + 8 * NrOfColumns t) + 24))
              Hkeys)
    as (gh & gA & gT & gB & gS & Hgh & HgA & HgT & HgB & HgS & Hmdb).
  { rewrite length_new_char. reflexivity. }
  fold n in HgA, HgT, HgB, HgS.
  rewrite Hmdb. clear Hmdb.
  set (TH := with_hash (table_header_body t)).
  set (KI := key_index_record t).
  set (CF := chunkset_fixed_fields t).
  set (CN := with_hash colnames_header_body).
  assert (HTH : length TH = 44%nat) by reflexivity.
  assert (HKI : length KI = ks) by (subst KI ks; apply length_key_index_record).
  assert (HCF : length CF = 68%nat) by reflexivity.
  assert (HCN : length CN = 24%nat) by reflexivity.
  set (mdb0 := TH ++ KI ++ gh ++ CF ++ gA ++ gT ++ gB ++ gS ++ CN).
  assert (Hmdb0 : length mdb0 = (44 + ks + 76 + 8 * n + 24)%nat)
    by (subst mdb0; rewrite !length_app; lia).
  set (NP := fdsWriteCharVec_v6 (map colName (Columns t)) 0 NATIVE).
  (* the chunk index *)
  change (96 + 24 + 8 * NrOfColumns t) with (120 + 8 * NrOfColumns t).
  assert (Hgc : exists h1 g1 p0 pu r0 ru h2 g2 d,
             new_char (120 + 8 * NrOfColumns t)
             = h1 ++ g1 ++ p0 ++ pu ++ r0 ++ ru ++ h2 ++ g2 ++ d
             /\ length h1 = 8%nat /\ length g1 = 24%nat /\ length p0 = 8%nat
             /\ length pu = 24%nat /\ length r0 = 8%nat /\ length ru = 24%nat
             /\ length h2 = 8%nat /\ length g2 = 16%nat
             /\ length d = (8 * n)%nat).
  { assert (Hgcl : length (new_char (120 + 8 * NrOfColumns t))
                   = (120 + 8 * n)%nat) by (rewrite length_new_char; lia).
    revert Hgcl. generalize (new_char (120 + 8 * NrOfColumns t)).
    intros gc Hgcl.
    split_buf gc 8%nat (112 + 8 * n)%nat h1 g.
    split_buf g 24%nat (88 + 8 * n)%nat g1 g'.
    split_buf g' 8%nat (80 + 8 * n)%nat p0 g.
    split_buf g 24%nat (56 + 8 * n)%nat pu g'.
    split_buf g' 8%nat (48 + 8 * n)%nat r0 g.
    split_buf g 24%nat (24 + 8 * n)%nat ru g'.
    split_buf g' 8%nat (16 + 8 * n)%nat h2 g.
    split_buf g 16%nat (8 * n)%nat g2 d.
    exists h1, g1, p0, pu, r0, ru, h2, g2, d. repeat split; assumption. }
  destruct Hgc as (h1 & g1 & p0 & pu & r0 & ru & h2 & g2 & d & Hgc & Hh1 & Hg1
                   & Hp0 & Hpul & Hr0 & Hrul & Hh2 & Hg2 & Hd).
  assert (Hpu : unused_chunkPos_slots t = pu).
  { unfold unused_chunkPos_slots. rewrite Hgc. sub_norm. reflexivity. }
  assert (Hru : unused_chunkRows_slots t = ru).
  { unfold unused_chunkRows_slots. rewrite Hgc. sub_norm. reflexivity. }
  rewrite Hgc. clear Hgc.
  rewrite set_chunk_headers_spec by assumption.
  set (F1 := le_split 4 FST_VERSION ++ le_split 4 0 ++ le_split 8 0
               ++ le_split 2 4 ++ le_split 2 0 ++ le_split 2 0
               ++ le_split 2 0).
  set (F2 := le_split 4 FST_VERSION ++ le_split 4 0 ++ le_split 8 0).
  set (R8 := le_split 8 R).
  assert (HF1 : length F1 = 24%nat) by reflexivity.
  assert (HF2 : length F2 = 16%nat) by reflexivity.
  assert (HR8 : length R8 = 8%nat) by reflexivity.
  set (C := h1 ++ F1 ++ p0 ++ pu ++ R8 ++ ru ++ h2 ++ F2).
  assert (HC : length C = 120%nat) by (subst C; rewrite !length_app; lia).
  replace (h1 ++ F1 ++ p0 ++ pu ++ R8 ++ ru ++ h2 ++ F2 ++ d) with (C ++ d)
    by (subst C; rewrite <- !app_assoc; reflexivity).
  (* the placeholders in the file *)
  unfold o_write. cbn [o_fail o_content o_pos].
  rewrite (put_append [] mdb0) by reflexivity. cbn [app].
  rewrite (put_append mdb0 NP) by reflexivity.
  rewrite (put_append (mdb0 ++ NP) (C ++ d))
    by (rewrite length_app; reflexivity).
  replace (0 + length mdb0 + length NP + length (C ++ d))%nat
    with (length ((mdb0 ++ NP) ++ C ++ d)) by (rewrite !length_app; lia).
  (* the column loop *)
  set (P := TH ++ KI ++ gh ++ CF).
  assert (HP : 44 + key_index_size t + 76 = Z.of_nat (length P))
    by (subst P; rewrite !length_app; lia).
  pose proof (write_columns_spec (44 + key_index_size t) (NrOfColumns t) R
                compress (Columns t) Htypes 0%nat P [] gA [] gT [] gB [] gS CN
                C [] d ((mdb0 ++ NP) ++ C ++ d) HP) as Hloop.
  cbv zeta in Hloop. cbn [app] in Hloop.
  replace mdb0 with (P ++ gA ++ gT ++ gB ++ gS ++ CN) at 1
    by (subst mdb0 P; rewrite <- !app_assoc; reflexivity).
  change (Z.of_nat 0) with 0 in Hloop.
  rewrite Hloop by (assumption || reflexivity || lia). clear Hloop.
  (* the end of the function *)
  set (PL := concat (map (column_payload R compress) (Columns t))).
  set (CB := chunkset_header_body t).
  assert (HCB : length CB = (68 + 8 * n)%nat).
  { subst CB. unfold chunkset_header_body. fold CF.
    rewrite !length_app, !length_u16_array.
    unfold colAttributeTypes_of, colTypes_of, colBaseTypes_of, colScales_of.
    rewrite !length_map. fold n. lia. }
  assert (Hmeta : length (metadata t) = length mdb0).
  { unfold metadata. fold TH KI CB CN. rewrite !length_app, length_with_hash.
    lia. }
  assert (Hstart : length ((mdb0 ++ NP) ++ C ++ d)
                   = (chunk_index_start t + 120 + 8 * n)%nat).
  { unfold chunk_index_start, names_payload. fold NP.
    rewrite !length_app. lia. }
  rewrite Hstart.
  assert (HD : exists D',
             flat_map (le_split 8)
               (positions (chunk_index_start t + 120 + 8 * n)
                  (map (column_payload R compress) (Columns t)))
             = le_split 8 (Z.of_nat (chunk_index_start t + 120 + 8 * n)) ++ D'
             /\ (8 + length D' = 8 * n)%nat).
  { subst n. unfold NrOfColumns in Hcols. destruct (Columns t) as [|col cols].
    - cbn in Hcols. lia.
    - cbn [map positions flat_map]. eexists. split; [reflexivity|].
      rewrite length_flat_map_le_split.
      assert (Hlp : forall s l, length (positions s l) = length l)
        by (intros s l; revert s; induction l; intros s; cbn;
            [reflexivity | now rewrite IHl]).
      rewrite Hlp, length_map. cbn [length]. lia. }
  destruct HD as (D' & HD & HD').
  replace (P ++ u16_array (colAttributeTypes_of (Columns t))
             ++ u16_array (colTypes_of (Columns t))
             ++ u16_array (colBaseTypes_of (Columns t))
             ++ u16_array (colScales_of (Columns t)) ++ CN)
    with (TH ++ KI ++ gh ++ CB ++ CN)
    by (subst P CB; unfold chunkset_header_body; rewrite <- !app_assoc;
        reflexivity).
  replace (((mdb0 ++ NP) ++ C ++ d) ++ PL) with (mdb0 ++ NP ++ (C ++ d) ++ PL)
    by (rewrite <- !app_assoc; reflexivity).
  subst C. rewrite <- !app_assoc.
  replace (h1 ++ F1 ++ p0 ++ pu ++ R8 ++ ru ++ h2 ++ F2 ++ d ++ PL)
    with ((h1 ++ F1 ++ p0 ++ pu ++ R8 ++ ru ++ h2 ++ F2 ++ d) ++ PL)
    by (rewrite <- !app_assoc; reflexivity).
  assert (Hcs : chunk_index_start t = (length mdb0 + length NP)%nat)
    by (unfold chunk_index_start, names_payload; fold NP; lia).
  rewrite HD, Hn, Hks', Hcs.
  rewrite (finish_write_spec fs n ks TH KI gh CB CN mdb0 NP h1 F1 p0 pu R8 ru
             h2 F2 D' (h1 ++ F1 ++ p0 ++ pu ++ R8 ++ ru ++ h2 ++ F2 ++ d) PL)
    by (rewrite ?length_app; first [assumption | lia]).
  (* the file is the layout *)
  rewrite Hcw. do 3 f_equal.
  unfold written_file, metadata, chunk_index_body, data_chunk_body,
    positionData_of, payloads, names_payload.
  fold TH KI CB CN NP R n PL F2.
  rewrite Hpu, Hru, HD, Hcs. fold R8.
  subst F1. rewrite <- !app_assoc. reflexivity.
Qed.

(** X1. For a table with at least one column and one row, whose columns have
    one of the seven column types and whose counts fit the [int] fields,
    written where the file can be opened, [fstWrite] succeeds and the file
    is exactly the layout of the format: table header, key index when there
    are keys, chunkset header with its four column arrays, column names
    header (each after its hash), the column names, the chunk index and the
    data chunk header with the position array, then the column payloads in
    column order. *)
Theorem fstWrite_written_file (fs : FileSystem) (t : IFstTable)
    (compress : Z) :
  writable t ->
  canWrite fs = true ->
  Z.of_nat (chunk_index_start t) + 120 + 8 * NrOfColumns t < 2 ^ 64 ->
  fstWrite fs t compress
  = (inr tt,
     {| fileData := Some (written_file t compress); canWrite := canWrite fs |}).
Proof. exact (fstWrite_layout fs t compress). Qed.

End WriterMain.

Lemma sample_table_writable : writable sample_table.
Proof.
  split.
  - vm_compute. split; [intros H; discriminate H | reflexivity].
  - vm_compute. reflexivity.
  - vm_compute. intros H. discriminate H.
  - repeat constructor; intros H; discriminate H.
Qed.

Lemma fstWrite_written_file_witness :
  fstWrite (E := ref_env) no_file sample_table 50
  = (inr tt,
     {| fileData := Some (written_file (E := ref_env) sample_table 50);
        canWrite := true |}).
Proof.
  apply (fstWrite_written_file (E := ref_env) no_file sample_table 50).
  - exact sample_table_writable.
  - reflexivity.
  - vm_compute. reflexivity.
Defined.

(** ** What a written file holds *)

Lemma concat_split_nth (l : list bytes) (i : nat) :
  (i < length l)%nat ->
  concat l = concat (firstn i l) ++ nth i l [] ++ concat (skipn (S i) l).
Proof.
  revert i. induction l as [|x l IH]; intros i Hi; cbn [length] in Hi.
  - lia.
  - destruct i as [|i]; cbn [firstn skipn nth concat app].
    + reflexivity.
    + rewrite (IH i) at 1 by lia. rewrite <- app_assoc. reflexivity.
Qed.

Lemma length_positions (s : nat) (l : list bytes) :
  length (positions s l) = length l.
Proof.
  revert s. induction l as [|x l IH]; intros s; cbn [positions length].
  - reflexivity.
  - now rewrite IH.
Qed.

Lemma positions_nth (l : list bytes) (s i : nat) :
  (i < length l)%nat ->
  nth i (positions s l) 0 = Z.of_nat (s + length (concat (firstn i l))).
Proof.
  revert s i. induction l as [|x l IH]; intros s i Hi; cbn [length] in Hi.
  - lia.
  - destruct i as [|i]; cbn [positions nth firstn concat].
    + cbn [length]. f_equal. lia.
    + rewrite IH by lia. rewrite length_app. f_equal. lia.
Qed.

Lemma sub_flat_map_le_split (w : nat) (v : list Z) (rest : bytes) (i : nat) :
  (i < length v)%nat ->
  sub (flat_map (le_split w) v ++ rest) (w * i) w = le_split w (nth i v 0).
Proof.
  revert i. induction v as [|x v IH]; intros i Hi; cbn [length] in Hi.
  - lia.
  - cbn [flat_map]. rewrite <- app_assoc. destruct i as [|i]; cbn [nth].
    + apply sub_here; [lia | now rewrite length_le_split].
    + rewrite sub_skip by (rewrite length_le_split; lia).
      rewrite length_le_split.
      replace (w * S i - w)%nat with (w * i)%nat by lia.
      apply IH. lia.
Qed.

Lemma load_le_array (w : nat) (v : list Z) (pre rest : bytes) (off : Z)
    (i : nat) :
  (i < length v)%nat ->
  off = Z.of_nat (length pre + w * i) ->
  load_le w (pre ++ flat_map (le_split w) v ++ rest) off
  = nth i v 0 mod 2 ^ (Z.of_nat w * 8).
Proof.
  intros Hi ->. unfold load_le. rewrite Nat2Z.id.
  rewrite sub_skip by lia.
  replace (length pre + w * i - length pre)%nat with (w * i)%nat by lia.
  rewrite sub_flat_map_le_split by assumption.
  apply le_combine_split.
Qed.

Section WrittenFile.
Context {E : Env}.

Lemma length_metadata (t : IFstTable) :
  length (metadata t)
  = (44 + Z.to_nat (key_index_size t) + 76 + 8 * length (Columns t) + 24)%nat.
Proof.
  unfold metadata, chunkset_header_body.
  rewrite !length_app, !length_with_hash, !length_app, !length_u16_array,
    length_key_index_record.
  unfold colAttributeTypes_of, colTypes_of, colBaseTypes_of, colScales_of.
  rewrite !length_map, length_table_header_body, length_chunkset_fixed_fields.
  change (length colnames_header_body) with 16%nat. lia.
Qed.

Lemma length_chunk_index_body (t : IFstTable) (chunkPos : Z) :
  length (chunk_index_body t chunkPos) = 88%nat.
Proof.
  unfold chunk_index_body, unused_chunkPos_slots, unused_chunkRows_slots.
  rewrite !length_app, !length_le_split.
  rewrite !length_sub
    by (rewrite length_new_char; unfold NrOfColumns; lia).
  reflexivity.
Qed.

Lemma length_data_chunk_body (positionData : list Z) :
  length (data_chunk_body positionData) = (16 + 8 * length positionData)%nat.
Proof.
  unfold data_chunk_body.
  rewrite !length_app, !length_le_split, length_flat_map_le_split. lia.
Qed.

End WrittenFile.

Section WrittenChunks.
Context {E : Env}.

Lemma length_written_file (t : IFstTable) (compress : Z) :
  length (written_file t compress)
  = (chunk_index_start t + 120 + 8 * length (Columns t)
     + length (concat (payloads t compress)))%nat.
Proof.
  unfold written_file, chunk_index_start.
  rewrite !length_app, !length_with_hash, length_chunk_index_body,
    length_data_chunk_body.
  unfold positionData_of. rewrite length_positions.
  unfold payloads. rewrite length_map. lia.
Qed.

Lemma file_fits_start (t : IFstTable) (compress : Z) :
  file_fits t compress ->
  Z.of_nat (chunk_index_start t) + 120 + 8 * NrOfColumns t < 2 ^ 64.
Proof.
  unfold file_fits, NrOfColumns. rewrite length_written_file. lia.
Qed.

(** The chunk index and the data chunk header of a written file, read at
    their place [ci] in the file. *)
Lemma written_chunk_fields (t : IFstTable) (compress : Z) :
  1 <= NrOfColumns t ->
  file_fits t compress ->
  let content := written_file t compress in
  let ci := Z.of_nat (chunk_index_start t) in
  load_u16 content (ci + 24) = 4
  /\ load_u64 content (ci + 32) = ci + 96
  /\ sub content (chunk_index_start t + 40) 24 = unused_chunkPos_slots t
  /\ load_u64 content (ci + 64) = to_u64 (NrOfRows t)
  /\ sub content (chunk_index_start t + 72) 24 = unused_chunkRows_slots t
  /\ load_u64 content (ci + 120) = ci + 120 + 8 * NrOfColumns t.
Proof.
  intros Hcols Hfits content ci.
  pose proof (file_fits_start t compress Hfits) as Hstart.
  unfold NrOfColumns in *.
  set (MD := metadata t) in *. set (NP := names_payload t) in *.
  assert (Hci : chunk_index_start t = (length MD + length NP)%nat)
    by reflexivity.
  assert (Hpu : length (unused_chunkPos_slots t) = 24%nat).
  { unfold unused_chunkPos_slots.
    apply length_sub. rewrite length_new_char. unfold NrOfColumns. lia. }
  assert (Hru : length (unused_chunkRows_slots t) = 24%nat).
  { unfold unused_chunkRows_slots.
    apply length_sub. rewrite length_new_char. unfold NrOfColumns. lia. }
  set (pu := unused_chunkPos_slots t) in *.
  set (ru := unused_chunkRows_slots t) in *.
  set (PD := positionData_of t compress).
  set (PL := concat (payloads t compress)).
  set (cib := chunk_index_body t (ci + 96)).
  set (F1 := le_split 4 FST_VERSION ++ le_split 4 0 ++ le_split 8 0).
  set (F2 := le_split 4 FST_VERSION ++ le_split 4 0 ++ le_split 8 0).
  set (hd := le_split 8 (header_hash (data_chunk_body PD))).
  assert (Hcontent :
            content
            = (MD ++ NP ++ le_split 8 (header_hash cib) ++ F1)
                ++ le_split 2 4
                ++ (le_split 2 0 ++ le_split 2 0 ++ le_split 2 0)
                ++ le_split 8 (ci + 96) ++ pu
                ++ le_split 8 (to_u64 (NrOfRows t)) ++ ru
                ++ (hd ++ F2) ++ flat_map (le_split 8) PD ++ PL).
  { subst content cib F1 F2 hd. unfold written_file, with_hash.
    fold MD NP PD PL ci. unfold chunk_index_body, data_chunk_body.
    fold pu ru. rewrite <- !app_assoc. reflexivity. }
  set (pre := MD ++ NP ++ le_split 8 (header_hash cib) ++ F1) in *.
  assert (Hpre : length pre = (chunk_index_start t + 24)%nat)
    by (subst pre F1; rewrite !length_app, !length_le_split; lia).
  assert (HhdF2 : length (hd ++ F2) = 24%nat) by reflexivity.
  assert (Hz3 : length (le_split 2 0 ++ le_split 2 0 ++ le_split 2 0) = 6%nat)
    by reflexivity.
  set (z3 := le_split 2 0 ++ le_split 2 0 ++ le_split 2 0) in *.
  set (hf := hd ++ F2) in *.
  rewrite Hcontent. repeat split.
  - unfold load_u16. rewrite load_le_split by lia.
    reflexivity.
  - unfold load_u64.
    replace (pre ++ le_split 2 4 ++ z3 ++ le_split 8 (ci + 96) ++ pu
               ++ le_split 8 (to_u64 (NrOfRows t)) ++ ru ++ hf
               ++ flat_map (le_split 8) PD ++ PL)
      with ((pre ++ le_split 2 4 ++ z3) ++ le_split 8 (ci + 96) ++ pu
              ++ le_split 8 (to_u64 (NrOfRows t)) ++ ru ++ hf
              ++ flat_map (le_split 8) PD ++ PL)
      by (rewrite <- !app_assoc; reflexivity).
    rewrite load_le_split
      by (rewrite !length_app, !length_le_split; subst ci; lia).
    apply Z.mod_small. subst ci. cbn. lia.
  - sub_norm. reflexivity.
  - unfold load_u64.
    replace (pre ++ le_split 2 4 ++ z3 ++ le_split 8 (ci + 96) ++ pu
               ++ le_split 8 (to_u64 (NrOfRows t)) ++ ru ++ hf
               ++ flat_map (le_split 8) PD ++ PL)
      with ((pre ++ le_split 2 4 ++ z3 ++ le_split 8 (ci + 96) ++ pu)
              ++ le_split 8 (to_u64 (NrOfRows t)) ++ ru ++ hf
              ++ flat_map (le_split 8) PD ++ PL)
      by (rewrite <- !app_assoc; reflexivity).
    rewrite load_le_split
      by (rewrite !length_app, !length_le_split; subst ci; lia).
    change (Z.of_nat 8 * 8) with 64. unfold to_u64.
    apply Z.mod_mod. lia.
  - sub_norm. reflexivity.
  - unfold load_u64.
    replace (pre ++ le_split 2 4 ++ z3 ++ le_split 8 (ci + 96) ++ pu
               ++ le_split 8 (to_u64 (NrOfRows t)) ++ ru ++ hf
               ++ flat_map (le_split 8) PD ++ PL)
      with ((pre ++ le_split 2 4 ++ z3 ++ le_split 8 (ci + 96) ++ pu
               ++ le_split 8 (to_u64 (NrOfRows t)) ++ ru ++ hf)
              ++ flat_map (le_split 8) PD ++ PL)
      by (rewrite <- !app_assoc; reflexivity).
    assert (HPD : (0 < length PD)%nat).
    { subst PD. unfold positionData_of, payloads.
      rewrite length_positions, length_map. lia. }
    rewrite (load_le_array 8 PD _ PL (ci + 120) 0 HPD)
      by (rewrite !length_app, !length_le_split; subst ci; lia).
    subst PD. unfold positionData_of.
    rewrite positions_nth
      by (unfold payloads; rewrite length_map; lia).
    cbn [firstn concat length]. change (Z.of_nat 8 * 8) with 64.
    subst ci. rewrite Z.mod_small; lia.
Qed.

End WrittenChunks.

Lemma sample_file_fits : file_fits (E := ref_env) sample_table 50.
Proof. unfold file_fits. vm_compute. reflexivity. Qed.

Section WrittenChunkTheorems.
Context {E : Env}.

(** The written file is its headers followed by the payloads. *)
Lemma written_file_payloads (t : IFstTable) (compress : Z) :
  exists headers,
    written_file t compress = headers ++ concat (payloads t compress)
    /\ length headers
       = (chunk_index_start t + 120 + 8 * length (Columns t))%nat.
Proof.
  exists (metadata t ++ names_payload t
            ++ with_hash (chunk_index_body t (Z.of_nat (chunk_index_start t) + 96))
            ++ with_hash (data_chunk_body (positionData_of t compress))).
  split.
  - unfold written_file. rewrite <- !app_assoc. reflexivity.
  - rewrite !length_app, !length_with_hash, length_chunk_index_body,
      length_data_chunk_body.
    unfold positionData_of, chunk_index_start.
    rewrite length_positions. unfold payloads. rewrite length_map. lia.
Qed.

(** X2. Where the chunk index and the data chunk lie in a written file: the
    first slot of [chunkPos] holds [positionData[0] - 8 * nrOfCols -
    DATA_INDEX_SIZE]; this is the position of the data chunk header, which
    comes [CHUNK_INDEX_SIZE] bytes after the start of the chunk index, itself
    right after the column names; the first column's payload starts at
    [positionData[0]], right after the position array, and the payloads run
    to the end of the file. *)
Theorem fstWrite_chunk_position (fs : FileSystem) (t : IFstTable)
    (compress : Z) :
  writable t -> canWrite fs = true -> file_fits t compress ->
  exists content,
    fstWrite fs t compress
    = (inr tt, {| fileData := Some content; canWrite := canWrite fs |})
    /\ let ci := Z.of_nat (chunk_index_start t) in
       let chunkPos := load_u64 content (ci + 32) in
       let positionData0 :=
         load_u64 content (ci + CHUNK_INDEX_SIZE + DATA_INDEX_SIZE) in
       chunkPos = positionData0 - 8 * NrOfColumns t - DATA_INDEX_SIZE
       /\ chunkPos = ci + CHUNK_INDEX_SIZE
       /\ sub content (Z.to_nat positionData0)
            (length (concat (payloads t compress)))
          = concat (payloads t compress)
       /\ Z.of_nat (length content)
          = positionData0 + Z.of_nat (length (concat (payloads t compress))).
Proof.
  intros Hw Hcan Hfits. exists (written_file t compress). split.
  - apply fstWrite_layout;
      [assumption | assumption | apply (file_fits_start _ _ Hfits)].
  - destruct (written_chunk_fields t compress (proj1 (writable_cols t Hw)) Hfits)
      as (_ & Hcp & _ & _ & _ & Hpd).
    cbv zeta. unfold CHUNK_INDEX_SIZE, DATA_INDEX_SIZE.
    replace (Z.of_nat (chunk_index_start t) + 96 + 24)
      with (Z.of_nat (chunk_index_start t) + 120) by lia.
    rewrite Hcp, Hpd.
    destruct (written_file_payloads t compress) as (hs & Hsplit & Hlen).
    unfold NrOfColumns. repeat split; try lia.
    + rewrite Hsplit. rewrite sub_skip by lia. apply sub_all; lia.
    + rewrite Hsplit, length_app. lia.
Qed.

(** X3. The chunk index of a written file: [nrOfChunkSlots] is 4, the first
    slot of [chunkRows] holds the number of rows, and the slots 1 to 3 of
    [chunkPos] and of [chunkRows] hold whatever the fresh buffer
    [new char[chunkIndexSize]] held at the bytes 40 to 63 and 72 to 95: the
    writer never assigns them. *)
Theorem fstWrite_chunk_slots (fs : FileSystem) (t : IFstTable)
    (compress : Z) :
  writable t -> canWrite fs = true -> file_fits t compress ->
  exists content,
    fstWrite fs t compress
    = (inr tt, {| fileData := Some content; canWrite := canWrite fs |})
    /\ let ci := chunk_index_start t in
       let chunkIndex :=
         new_char (CHUNK_INDEX_SIZE + DATA_INDEX_SIZE + 8 * NrOfColumns t) in
       load_u16 content (Z.of_nat ci + 24) = 4
       /\ load_u64 content (Z.of_nat ci + 64) = to_u64 (NrOfRows t)
       /\ sub content (ci + 40) 24 = sub chunkIndex 40 24
       /\ sub content (ci + 72) 24 = sub chunkIndex 72 24.
Proof.
  intros Hw Hcan Hfits. exists (written_file t compress). split.
  - apply fstWrite_layout;
      [assumption | assumption | apply (file_fits_start _ _ Hfits)].
  - destruct (written_chunk_fields t compress (proj1 (writable_cols t Hw)) Hfits)
      as (Hn & _ & Hpu & Hr & Hru & _).
    cbv zeta. unfold CHUNK_INDEX_SIZE, DATA_INDEX_SIZE.
    replace (96 + 24 + 8 * NrOfColumns t) with (120 + 8 * NrOfColumns t)
      by lia.
    auto.
Qed.

(** The slots the writer leaves alone take the bytes of the allocator: where
    a fresh buffer is filled with the byte [b], each of the six slots is
    made of eight bytes [b], zero only when [b] is. *)
Lemma unused_slots_of_fill (t : IFstTable) (b : byte) :
  1 <= NrOfColumns t ->
  (forall n, uninit n = repeat b n) ->
  sub (new_char (CHUNK_INDEX_SIZE + DATA_INDEX_SIZE + 8 * NrOfColumns t)) 40 24
  = repeat b 24
  /\ sub (new_char (CHUNK_INDEX_SIZE + DATA_INDEX_SIZE + 8 * NrOfColumns t))
       72 24
     = repeat b 24.
Proof.
  intros Hcols Hfill. unfold new_char, CHUNK_INDEX_SIZE, DATA_INDEX_SIZE.
  rewrite Hfill.
  set (k := Z.to_nat (96 + 24 + 8 * NrOfColumns t)).
  assert (Hk : (120 <= k)%nat) by (subst k; lia).
  rewrite firstn_app, repeat_length, Nat.sub_diag. cbn [firstn].
  rewrite app_nil_r, firstn_all2 by (rewrite repeat_length; lia).
  replace k with (40 + (24 + (8 + (24 + (k - 96)))))%nat by lia.
  rewrite !repeat_app. split.
  - rewrite sub_skip by (rewrite repeat_length; lia).
    apply sub_here; rewrite repeat_length; lia.
  - rewrite sub_skip by (rewrite repeat_length; lia).
    rewrite sub_skip by (rewrite !repeat_length; lia).
    rewrite sub_skip by (rewrite !repeat_length; lia).
    apply sub_here; rewrite !repeat_length; lia.
Qed.

End WrittenChunkTheorems.

Lemma fstWrite_chunk_position_witness :
  exists content,
    fstWrite (E := ref_env) no_file sample_table 50
    = (inr tt, {| fileData := Some content; canWrite := true |})
    /\ load_u64 content (Z.of_nat (chunk_index_start sample_table) + 32)
       = Z.of_nat (chunk_index_start sample_table) + 96.
Proof.
  destruct (fstWrite_chunk_position (E := ref_env) no_file sample_table 50
              sample_table_writable eq_refl sample_file_fits)
    as (content & Hw & _ & Hcp & _).
  exists content. split; [exact Hw | exact Hcp].
Defined.

Lemma fstWrite_chunk_slots_witness :
  exists content,
    fstWrite (E := ref_env) no_file sample_table 50
    = (inr tt, {| fileData := Some content; canWrite := true |})
    /\ load_u16 content (Z.of_nat (chunk_index_start sample_table) + 24) = 4.
Proof.
  destruct (fstWrite_chunk_slots (E := ref_env) no_file sample_table 50
              sample_table_writable eq_refl sample_file_fits)
    as (content & Hw & Hn & _).
  exists content. split; [exact Hw | exact Hn].
Defined.

Section WrittenColumns.
Context {E : Env}.

(** X5. The position array of a written file: for each column [i], the
    entry [positionData[i]] read back from the file is the place where the
    bytes written for that column start; the payloads follow one another in
    column order, the first one right after the position array. *)
Theorem fstWrite_column_positions (fs : FileSystem) (t : IFstTable)
    (compress : Z) (i : nat) :
  writable t -> canWrite fs = true -> file_fits t compress ->
  (i < length (Columns t))%nat ->
  exists content,
    fstWrite fs t compress
    = (inr tt, {| fileData := Some content; canWrite := canWrite fs |})
    /\ let ci := Z.of_nat (chunk_index_start t) in
       let position :=
         load_u64 content
           (ci + CHUNK_INDEX_SIZE + DATA_INDEX_SIZE + 8 * Z.of_nat i) in
       let payload := nth i (payloads t compress) [] in
       position
       = ci + CHUNK_INDEX_SIZE + DATA_INDEX_SIZE + 8 * NrOfColumns t
         + Z.of_nat (length (concat (firstn i (payloads t compress))))
       /\ sub content (Z.to_nat position) (length payload) = payload.
Proof.
  intros Hw Hcan Hfits Hi. exists (written_file t compress). split.
  - apply fstWrite_layout;
      [assumption | assumption | apply (file_fits_start _ _ Hfits)].
  - cbv zeta. unfold CHUNK_INDEX_SIZE, DATA_INDEX_SIZE, NrOfColumns.
    assert (HiP : (i < length (payloads t compress))%nat)
      by (unfold payloads; rewrite length_map; exact Hi).
    pose proof (concat_split_nth (payloads t compress) i HiP) as Hcat.
    pose proof Hcat as Hcat'.
    pose proof (length_written_file t compress) as Hlen.
    unfold file_fits in Hfits. rewrite Hlen in Hfits.
    assert (Hle : (length (concat (firstn i (payloads t compress)))
                   + length (nth i (payloads t compress) [])
                   <= length (concat (payloads t compress)))%nat).
    { apply (f_equal (@length byte)) in Hcat'.
      rewrite !length_app in Hcat'. lia. }
    assert (Hpos :
              load_u64 (written_file t compress)
                (Z.of_nat (chunk_index_start t) + 96 + 24 + 8 * Z.of_nat i)
              = Z.of_nat (chunk_index_start t) + 96 + 24
                + 8 * Z.of_nat (length (Columns t))
                + Z.of_nat (length (concat (firstn i (payloads t compress))))).
    { unfold load_u64.
      replace (written_file t compress)
        with ((metadata t ++ names_payload t
                 ++ with_hash
                      (chunk_index_body t
                         (Z.of_nat (chunk_index_start t) + 96))
                 ++ le_split 8
                      (header_hash
                         (data_chunk_body (positionData_of t compress)))
                 ++ le_split 4 FST_VERSION ++ le_split 4 0 ++ le_split 8 0)
                ++ flat_map (le_split 8) (positionData_of t compress)
                ++ concat (payloads t compress))
        by (unfold written_file, with_hash, data_chunk_body;
            rewrite <- !app_assoc; reflexivity).
      assert (HiPD : (i < length (positionData_of t compress))%nat)
        by (unfold positionData_of; rewrite length_positions; exact HiP).
      rewrite (load_le_array 8 _ _ _ _ i HiPD).
      - unfold positionData_of. rewrite positions_nth by exact HiP.
        change (Z.of_nat 8 * 8) with 64. rewrite Z.mod_small; lia.
      - rewrite !length_app, length_with_hash, length_chunk_index_body,
          !length_le_split.
        unfold chunk_index_start. lia. }
    rewrite Hpos. split; [reflexivity|].
    destruct (written_file_payloads t compress) as (hs & Hsplit & Hhs).
    rewrite Hsplit, Hcat.
    rewrite sub_skip by lia. rewrite sub_skip by lia.
    apply sub_here; lia.
Qed.

End WrittenColumns.

Lemma fstWrite_column_positions_witness :
  exists content,
    fstWrite (E := ref_env) no_file sample_table 50
    = (inr tt, {| fileData := Some content; canWrite := true |})
    /\ sub content
         (Z.to_nat
            (load_u64 content
               (Z.of_nat (chunk_index_start sample_table) + CHUNK_INDEX_SIZE
                + DATA_INDEX_SIZE + 8 * Z.of_nat 2)))
         (length (nth 2 (payloads sample_table 50) []))
       = nth 2 (payloads sample_table 50) [].
Proof.
  destruct (fstWrite_column_positions (E := ref_env) no_file sample_table 50 2
              sample_table_writable eq_refl sample_file_fits)
    as (content & Hw & _ & Hsub).
  - vm_compute. lia.
  - exists content. split; [exact Hw | exact Hsub].
Defined.

(** ** Errors of the read entry points *)

Ltac break_match_in H :=
  repeat match type of H with
         | context [match ?x with _ => _ end] => destruct x eqn:?
         end.

Section ReadErrors.
Context {E : Env}.

Lemma ReadHeader_errors (myfile : ifstream) (e : FstError) :
  ReadHeader myfile = inl e ->
  e = CannotOpenRead \/ e = NonFstFile \/ e = UpdateRequired.
Proof.
  unfold ReadHeader. intros H. break_match_in H; inversion H; auto.
Qed.

Lemma fstRead_headers_errors (fs : FileSystem) (e : FstError) :
  fstRead_headers fs = inl e ->
  In e [CannotOpenFile; CannotOpenRead; NonFstFile; UpdateRequired;
        DamagedHeader; DamagedChunkIndex].
Proof.
  unfold fstRead_headers. intros H.
  destruct (i_fail (open_in fs)); [inversion H; cbn; auto|].
  destruct (ReadHeader (open_in fs)) as [e'|[[[version keyLength] nrOfCols] f]]
    eqn:Hh; cbn [bind] in H.
  - inversion H; subst. apply ReadHeader_errors in Hh.
    destruct Hh as [Hh|[Hh|Hh]]; subst e; cbn; auto 10.
  - break_match_in H; inversion H; cbn; auto 10.
Qed.

Lemma fstRead_selection_errors (st : ReadState)
    (columnSelection : option (list string)) (e : FstError) :
  fstRead_selection st columnSelection = inl e -> e = ColumnNotFound.
Proof.
  destruct columnSelection as [names|]; cbn [fstRead_selection];
    [|discriminate].
  pose proof (select_columns_spec (rs_blockReader st) (rs_nrOfCols st) names)
    as Hs.
  destruct (select_columns names (rs_nrOfCols st) (rs_blockReader st));
    cbn [bind]; intros H; inversion H; subst. tauto.
Qed.

Lemma fstRead_range_errors (st : ReadState) (startRow endRow : Z)
    (e : FstError) :
  fstRead_range st startRow endRow = inl e ->
  e = NegativeRow \/ e = RowOutOfRange
  \/ (e = BadRange /\ endRow <> -1 /\ endRow <= to_i64 (startRow - 1)).
Proof.
  unfold fstRead_range. intros H.
  destruct (_ || _); [destruct (_ <? 0); inversion H; auto|].
  destruct (endRow =? -1) eqn:He; cbn [negb] in H; [discriminate|].
  destruct (endRow <=? to_i64 (startRow - 1)) eqn:Hle; [|discriminate].
  inversion H. right. right. repeat split; lia.
Qed.

Lemma read_column_errors (st : ReadState) (firstRow length nrOfRows : Z)
    (colNr : Z) (e : FstError) :
  read_column st firstRow length nrOfRows colNr = inl e ->
  (e = ColumnOutOfRange /\ ~ 0 <= colNr < rs_nrOfCols st)
  \/ (e = UnknownType /\ 0 <= colNr < rs_nrOfCols st).
Proof.
  unfold read_column. intros H.
  destruct (_ || _) eqn:Hr.
  - inversion H. left. split; [reflexivity|lia].
  - right. split; [|lia]. break_match_in H; inversion H; reflexivity.
Qed.

Lemma read_columns_errors (st : ReadState) (firstRow length nrOfRows : Z)
    (colIndex : list Z) (e : FstError) :
  Forall (fun colNr => 0 <= colNr < rs_nrOfCols st) colIndex ->
  read_columns st firstRow length nrOfRows colIndex = inl e ->
  e = UnknownType.
Proof.
  induction 1 as [|colNr rest Hin Hrest IH]; cbn [read_columns]; intros H.
  - discriminate.
  - destruct (read_column st firstRow length nrOfRows colNr) as [e'|col]
      eqn:Hc; cbn [bind] in H.
    + inversion H; subst. apply read_column_errors in Hc. tauto.
    + destruct (read_columns st firstRow length nrOfRows rest);
        cbn [bind] in H; [inversion H; subst; auto | discriminate].
Qed.

(** The columns the selection step chooses are columns of the file. *)
Lemma fstRead_selection_in_range (st : ReadState)
    (columnSelection : option (list string)) (colIndex : list Z)
    (nrOfSelect : Z) :
  fstRead_selection st columnSelection = inr (colIndex, nrOfSelect) ->
  Forall (fun colNr => 0 <= colNr < rs_nrOfCols st) colIndex.
Proof.
  destruct columnSelection as [names|]; cbn [fstRead_selection].
  - pose proof (select_columns_spec (rs_blockReader st) (rs_nrOfCols st)
                  names) as Hs.
    destruct (select_columns names (rs_nrOfCols st) (rs_blockReader st))
      as [e|ci]; cbn [bind]; intros H; inversion H; subst.
    clear H. induction Hs as [|name colNr ns cs [Hlt [Hge _]] _ IH];
      constructor; [lia | assumption].
  - intros H. inversion H; subst. apply Forall_forall. intros x Hx.
    apply in_map_iff in Hx. destruct Hx as (i & <- & Hi).
    apply in_seq in Hi. lia.
Qed.

Lemma fstRead_stages (fs : FileSystem)
    (columnSelection : option (list string)) (startRow endRow : Z)
    (keyIndex : list Z) (e : FstError) :
  fstRead fs columnSelection startRow endRow keyIndex = inl e ->
  fstRead_headers fs = inl e
  \/ exists st,
       fstRead_headers fs = inr st
       /\ (fstRead_selection st columnSelection = inl e
           \/ exists colIndex nrOfSelect,
                fstRead_selection st columnSelection
                = inr (colIndex, nrOfSelect)
                /\ (fstRead_range st startRow endRow = inl e
                    \/ exists firstRow length,
                         fstRead_range st startRow endRow
                         = inr (firstRow, length)
                         /\ read_columns st firstRow length
                              (load_u64 (rs_chunkIndex st) 64) colIndex
                            = inl e)).
Proof.
  unfold fstRead. intros H.
  destruct (fstRead_headers fs) as [e1|st]; cbn [bind] in H;
    [left; congruence|]. right. exists st. split; [reflexivity|].
  destruct (fstRead_selection st columnSelection) as [e2|[colIndex n]];
    cbn [bind] in H; [left; congruence|]. right. exists colIndex, n.
  split; [reflexivity|].
  destruct (fstRead_range st startRow endRow) as [e3|[firstRow len]];
    cbn [bind] in H; [left; congruence|]. right. exists firstRow, len.
  split; [reflexivity|].
  destruct (read_columns st firstRow len _ colIndex); cbn [bind] in H;
    [congruence | discriminate].
Qed.

(** X6. The check [colNr < 0 || colNr >= nrOfCols] of the column loop never
    fires: the column numbers come from the selection step, which yields
    numbers of on-disk columns only, so [fstRead] never fails with "Column
    selection is out of range", whatever the file and the arguments. *)
Theorem fstRead_never_column_out_of_range (fs : FileSystem)
    (columnSelection : option (list string)) (startRow endRow : Z)
    (keyIndex : list Z) :
  fstRead fs columnSelection startRow endRow keyIndex <> inl ColumnOutOfRange.
Proof.
  intros H. apply fstRead_stages in H.
  destruct H as [H|(st & _ & [H|(colIndex & n & Hsel & [H|H])])].
  - apply fstRead_headers_errors in H. cbn in H.
    repeat (destruct H as [H|H]; [discriminate|]). exact H.
  - apply fstRead_selection_errors in H. discriminate.
  - apply fstRead_range_errors in H.
    destruct H as [H|[H|[H _]]]; discriminate.
  - destruct H as (firstRow & len & _ & H).
    apply read_columns_errors in H; [discriminate|].
    eapply fstRead_selection_in_range; eassumption.
Qed.

(** X7. "Incorrect row range specified" is raised only for an [endRow]
    other than -1 that lies before [startRow]; a read of the single row
    [startRow = endRow] (the first row, [1, 1], among them) passes the range
    check with one row whenever the row exists. *)
Theorem fstRead_single_row (fs : FileSystem)
    (columnSelection : option (list string)) (startRow endRow : Z)
    (keyIndex : list Z) :
  - 2 ^ 63 < startRow < 2 ^ 63 ->
  (fstRead fs columnSelection startRow endRow keyIndex = inl BadRange ->
   endRow <> -1 /\ endRow < startRow)
  /\ (forall st,
        fstRead_headers fs = inr st ->
        1 <= startRow <= load_u64 (rs_chunkIndex st) 64 ->
        load_u64 (rs_chunkIndex st) 64 < 2 ^ 63 ->
        fstRead_range st startRow startRow = inr (startRow - 1, 1)
        /\ forall out,
             fstRead fs columnSelection startRow startRow keyIndex = inr out ->
             rLength (outTable out) = 1).
Proof.
  intros Hs. split.
  - intros H. apply fstRead_stages in H.
    destruct H as [H|(st & _ & [H|(colIndex & n & Hsel & [H|H])])].
    + apply fstRead_headers_errors in H. cbn in H.
      repeat (destruct H as [H|H]; [discriminate|]). destruct H.
    + apply fstRead_selection_errors in H. discriminate.
    + apply fstRead_range_errors in H.
      destruct H as [H|[H|(_ & Hne & Hle)]]; try discriminate.
      rewrite to_i64_small in Hle by lia. lia.
    + destruct H as (firstRow & len & _ & H).
      apply read_columns_errors in H; [discriminate|].
      eapply fstRead_selection_in_range; eassumption.
  - intros st Hh Hrows Hbound.
    assert (Hr : fstRead_range st startRow startRow = inr (startRow - 1, 1)).
    { rewrite fstRead_range_spec by lia.
      destruct (startRow - 1 <? 0) eqn:H1; [lia|].
      destruct (startRow - 1 >=? load_u64 (rs_chunkIndex st) 64) eqn:H2;
        [lia|].
      destruct (startRow =? -1) eqn:H3; [lia|].
      destruct (startRow <=? startRow - 1) eqn:H4; [lia|].
      do 2 f_equal. lia. }
    split; [exact Hr|].
    intros out. unfold fstRead. rewrite Hh. cbn [bind].
    destruct (fstRead_selection st columnSelection) as [e|[colIndex n]];
      cbn [bind]; [discriminate|].
    rewrite Hr. cbn [bind].
    destruct (read_columns _ _ _ _ _); cbn [bind]; [discriminate|].
    intros H. inversion H. reflexivity.
Qed.

End ReadErrors.

Lemma fstRead_single_row_witness :
  fstRead_range sample_state 1 1 = inr (0, 1).
Proof.
  refine (proj1 (proj2 (fstRead_single_row (E := ref_env) sample_file None
                          1 1 [] _) sample_state sample_state_headers _ _)).
  all: vm_compute; intuition discriminate.
Defined.

(** ** Errors of [fstWrite] *)

Section WriteErrors.
Context {E : Env}.

Lemma write_columns_unknown (offset nrOfCols nrOfRows compress colNr : Z)
    (cols : list Column) (st : WriteState) :
  Exists (fun col => colData col = UnknownData) cols ->
  fst (write_columns offset nrOfCols nrOfRows compress colNr cols st)
  = Some UnknownType.
Proof.
  revert colNr st. induction cols as [|col rest IH]; intros colNr st Hex.
  - inversion Hex.
  - cbn [write_columns]. unfold write_column. cbv zeta.
    destruct (colData col) eqn:Hd; try reflexivity;
      (apply IH; inversion Hex as [? ? Hh|? ? Ht]; subst;
       [congruence | exact Ht]).
Qed.

Lemma write_columns_known (offset nrOfCols nrOfRows compress colNr : Z)
    (cols : list Column) (st : WriteState) :
  Forall known_type cols ->
  fst (write_columns offset nrOfCols nrOfRows compress colNr cols st) = None.
Proof.
  revert colNr st. induction cols as [|col rest IH]; intros colNr st Hall.
  - reflexivity.
  - inversion Hall as [|? ? Hk Hrest]; subst.
    cbn [write_columns]. unfold write_column. cbv zeta.
    unfold known_type in Hk.
    destruct (colData col) eqn:Hd; try congruence; apply IH; exact Hrest.
Qed.

(** Once the two checks of the table are passed, [fstWrite] looks at the
    file only through the stream it opens. *)
Lemma fstWrite_overwrites (fs fs' : FileSystem) (t : IFstTable)
    (compress : Z) :
  NrOfColumns t <> 0 -> to_u64 (NrOfRows t) <> 0 ->
  canWrite fs = true -> canWrite fs' = true ->
  fstWrite fs t compress = fstWrite fs' t compress.
Proof.
  intros Hc Hr Hw Hw'. unfold fstWrite. cbv zeta.
  destruct (NrOfColumns t =? 0) eqn:H0; [lia|].
  destruct (to_u64 (NrOfRows t) =? 0) eqn:H1; [lia|].
  unfold open_out, finish_write, close_out. rewrite Hw, Hw'. reflexivity.
Qed.

(** X8. The order of the failures of [fstWrite] when the file cannot be
    opened for writing: a table without columns is refused first, then one
    without rows, then the file that cannot be opened; in all three cases
    the file is left as it was. *)
Theorem fstWrite_cannot_open (fs : FileSystem) (t : IFstTable)
    (compress : Z) :
  canWrite fs = false ->
  fstWrite fs t compress
  = (inl (if NrOfColumns t =? 0 then EmptyTable
          else if to_u64 (NrOfRows t) =? 0 then NoData
               else CannotOpenWrite),
     fs).
Proof.
  intros Hw. unfold fstWrite. cbv zeta.
  destruct (NrOfColumns t =? 0); [reflexivity|].
  destruct (to_u64 (NrOfRows t) =? 0); [reflexivity|].
  unfold open_out. rewrite Hw. reflexivity.
Qed.

(** X9. A column of a type the writer does not know is found only in the
    column loop, after the file was opened and the headers were written: the
    write fails with "Unknown type found in column" exactly when such a
    column exists, and then the file that was there before is replaced by
    what had been written up to that column. *)
Theorem fstWrite_unknown_type (t : IFstTable) (compress : Z) :
  NrOfColumns t <> 0 -> to_u64 (NrOfRows t) <> 0 ->
  (Exists (fun col => colData col = UnknownData) (Columns t) ->
   exists content,
     forall fs,
       canWrite fs = true ->
       fstWrite fs t compress
       = (inl UnknownType,
          {| fileData := Some content; canWrite := true |}))
  /\ (forall fs,
        canWrite fs = true ->
        fst (fstWrite fs t compress) = inl UnknownType ->
        Exists (fun col => colData col = UnknownData) (Columns t)).
Proof.
  intros Hc Hr. split.
  - intros Hex.
    assert (Hrun : exists content,
               fstWrite no_file t compress
               = (inl UnknownType,
                  {| fileData := Some content; canWrite := true |})).
    { unfold fstWrite. cbv zeta.
      destruct (NrOfColumns t =? 0) eqn:H0; [lia|].
      destruct (to_u64 (NrOfRows t) =? 0) eqn:H1; [lia|].
      cbn [open_out no_file canWrite negb o_fail].
      match goal with
      | |- context [write_columns ?a ?b ?c ?d ?e ?f ?g] =>
          pose proof (write_columns_unknown a b c d e f g Hex) as Hu;
          destruct (write_columns a b c d e f g) as [[e0|] st']
      end; cbn [fst] in Hu; [|discriminate].
      inversion Hu; subst. eexists. reflexivity. }
    destruct Hrun as (content & Hrun). exists content. intros fs Hw.
    rewrite (fstWrite_overwrites fs no_file t compress Hc Hr Hw eq_refl).
    exact Hrun.
  - intros fs Hw Hres.
    destruct (Exists_dec (fun col => colData col = UnknownData) (Columns t))
      as [Hex|Hno]; [|exact Hex|].
    + intros col. destruct (colData col); (left; reflexivity)
        || (right; discriminate).
    + exfalso.
      assert (Hall : Forall known_type (Columns t)).
      { apply Forall_forall. intros col Hin Hd. apply Hno.
        apply Exists_exists. exists col. auto. }
      revert Hres. unfold fstWrite. cbv zeta.
      destruct (NrOfColumns t =? 0) eqn:H0; [lia|].
      destruct (to_u64 (NrOfRows t) =? 0) eqn:H1; [lia|].
      unfold open_out. rewrite Hw. cbn [negb o_fail].
      match goal with
      | |- context [write_columns ?a ?b ?c ?d ?e ?f ?g] =>
          pose proof (write_columns_known a b c d e f g Hall) as Hk;
          destruct (write_columns a b c d e f g) as [[e0|] st']
      end; cbn [fst] in Hk; [discriminate|].
      unfold finish_write. cbv zeta.
      destruct (o_fail _); cbn [fst]; discriminate.
Qed.

End WriteErrors.

Lemma fstWrite_cannot_open_witness :
  fstWrite (E := ref_env) read_only_place sample_table 50
  = (inl CannotOpenWrite, read_only_place).
Proof.
  exact (fstWrite_cannot_open (E := ref_env) read_only_place sample_table 50
           eq_refl).
Defined.

Lemma fstWrite_unknown_type_witness :
  exists content,
    forall fs,
      canWrite fs = true ->
      fstWrite (E := ref_env) fs unknown_column_table 0
      = (inl UnknownType, {| fileData := Some content; canWrite := true |}).
Proof.
  refine (proj1 (fstWrite_unknown_type (E := ref_env) unknown_column_table 0
                   _ _) _).
  - vm_compute. intros H. discriminate H.
  - vm_compute. intros H. discriminate H.
  - apply Exists_cons_tl. apply Exists_cons_hd. reflexivity.
Defined.

(** ** [fstMeta] and [fstRead] on the same file *)

Section MetaAndRead.
Context {E : Env}.

Ltac split_goal_match :=
  match goal with
  | |- context [match ?x with _ => _ end] => destruct x eqn:?
  end.

(** [fstMeta] and the header part of [fstRead] run the same checks; the
    reader goes on with the two hashes of the chunk index. *)
Lemma fstMeta_fstRead_headers (fs : FileSystem) :
  match fstMeta fs with
  | inl e => fstRead_headers fs = inl e
  | inr meta =>
      match fstRead_headers fs with
      | inl e => e = DamagedChunkIndex
      | inr st =>
          rs_nrOfCols st = m_nrOfCols meta
          /\ rs_keyLength st = m_keyLength meta
          /\ rs_blockReader st = m_blockReader meta
          /\ array_i32 (rs_metaDataBlock st) 8 (rs_keyLength st)
             = (if negb (m_keyLength meta =? 0) then m_keyColPos meta
                else array_i32 (rs_metaDataBlock st) 8 (rs_keyLength st))
      end
  end.
Proof.
  unfold fstMeta, fstRead_headers.
  destruct (i_fail (open_in fs)); [reflexivity|].
  destruct (ReadHeader (open_in fs))
    as [e|[[[version keyLength] nrOfCols] myfile]]; cbn [bind];
    [reflexivity|].
  cbv zeta.
  destruct (i_read myfile _ _) as [metaDataBlock myfile'].
  destruct (negb (keyLength =? 0) && _); [reflexivity|].
  destruct (negb (load_u64 metaDataBlock _ =? _)); [reflexivity|].
  destruct (negb (load_u64 metaDataBlock _ =? _)); [reflexivity|].
  destruct (fdsReadCharVec_v6 _ _ _ _ _) as [[blockReader encoding] pos].
  destruct (i_read _ _ _) as [chunkIndex myfile''].
  destruct (negb (load_u64 chunkIndex _ =? _)); [reflexivity|].
  destruct (negb (load_u64 chunkIndex _ =? _)); [reflexivity|].
  cbn [rs_nrOfCols rs_keyLength rs_blockReader rs_metaDataBlock
       m_nrOfCols m_keyLength m_blockReader m_keyColPos].
  repeat split. destruct (negb (keyLength =? 0)); reflexivity.
Qed.

Lemma fstRead_of_fstMeta_error (fs : FileSystem)
    (columnSelection : option (list string)) (startRow endRow : Z)
    (keyIndex : list Z) (e : FstError) :
  fstMeta fs = inl e ->
  fstRead fs columnSelection startRow endRow keyIndex = inl e.
Proof.
  intros He. pose proof (fstMeta_fstRead_headers fs) as H.
  rewrite He in H. unfold fstRead. rewrite H. reflexivity.
Qed.

(** X10. Whatever makes [fstMeta] fail on a file makes [fstRead] fail on it
    with the same error, for every selection and row range; and a file whose
    metadata [fstMeta] returns can still be refused by [fstRead] for its
    headers only with "damaged chunk index". *)
Theorem fstMeta_error_is_fstRead_error (fs : FileSystem)
    (columnSelection : option (list string)) (startRow endRow : Z)
    (keyIndex : list Z) :
  (forall e,
      fstMeta fs = inl e ->
      fstRead fs columnSelection startRow endRow keyIndex = inl e)
  /\ (forall meta e,
         fstMeta fs = inr meta ->
         fstRead_headers fs = inl e -> e = DamagedChunkIndex)
  /\ (forall meta out,
         fstMeta fs = inr meta ->
         fstRead fs None startRow endRow keyIndex = inr out ->
         rNrOfSelect (outTable out) = m_nrOfCols meta
         /\ outSelectedCols out
            = map (GetElement (m_blockReader meta))
                (map Z.of_nat (seq 0 (Z.to_nat (m_nrOfCols meta))))).
Proof.
  pose proof (fstMeta_fstRead_headers fs) as H.
  split; [|split].
  - intros e He. apply fstRead_of_fstMeta_error. exact He.
  - intros meta e Hm He. rewrite Hm, He in H. exact H.
  - intros meta out Hm. rewrite Hm in H. unfold fstRead.
    destruct (fstRead_headers fs) as [e|st]; cbn [bind]; [discriminate|].
    destruct H as (Hn & Hk & Hb & _).
    cbn [fstRead_selection bind].
    destruct (fstRead_range st startRow endRow) as [e|[firstRow len]];
      cbn [bind]; [discriminate|].
    destruct (read_columns _ _ _ _ _); cbn [bind]; [discriminate|].
    intros Hout. inversion Hout; subst out.
    cbn [outTable rNrOfSelect outSelectedCols].
    rewrite Hn, Hb. split; reflexivity.
Qed.

Lemma i_read_short (content buf : bytes) (n : nat) :
  (length content < n)%nat ->
  i_fail (snd (i_read {| i_content := content; i_pos := 0; i_fail := false |}
                 buf n)) = true.
Proof.
  intros H. unfold i_read. cbn [i_fail i_content i_pos snd].
  apply Nat.ltb_lt. unfold sub. rewrite length_firstn. cbn [skipn]. lia.
Qed.

(** X11. The two failures to open: a file that does not exist makes both
    read entry points fail with "error opening file", and a file shorter than
    the 44 bytes of the table header makes both fail with "error opening
    file for reading", before any hash is looked at. *)
Theorem fstRead_fstMeta_open_errors (fs : FileSystem)
    (columnSelection : option (list string)) (startRow endRow : Z)
    (keyIndex : list Z) :
  (fileData fs = None ->
   fstMeta fs = inl CannotOpenFile
   /\ fstRead fs columnSelection startRow endRow keyIndex
      = inl CannotOpenFile)
  /\ (forall content,
         fileData fs = Some content ->
         (length content < 44)%nat ->
         fstMeta fs = inl CannotOpenRead
         /\ fstRead fs columnSelection startRow endRow keyIndex
            = inl CannotOpenRead).
Proof.
  split.
  - intros Hnone.
    assert (Hm : fstMeta fs = inl CannotOpenFile).
    { unfold fstMeta, open_in. rewrite Hnone. reflexivity. }
    split; [exact Hm|].
    apply fstRead_of_fstMeta_error. exact Hm.
  - intros content Hsome Hshort.
    assert (Hm : fstMeta fs = inl CannotOpenRead).
    { unfold fstMeta. rewrite (open_in_some fs content Hsome).
      cbn [i_fail]. unfold ReadHeader.
      pose proof (i_read_short content (new_char TABLE_META_SIZE)
                    (Z.to_nat TABLE_META_SIZE)) as Hf.
      destruct (i_read _ _ _) as [tableMeta myfile]. cbn [snd] in Hf.
      rewrite Hf by (unfold TABLE_META_SIZE; lia). reflexivity. }
    split; [exact Hm|].
    apply fstRead_of_fstMeta_error. exact Hm.
Qed.

End MetaAndRead.

Lemma fstMeta_error_is_fstRead_error_witness :
  fstRead (E := ref_env) future_version_file None 1 (-1) []
  = inl UpdateRequired.
Proof.
  apply (proj1 (fstMeta_error_is_fstRead_error (E := ref_env)
                  future_version_file None 1 (-1) [])).
  vm_compute. reflexivity.
Defined.

Lemma fstRead_fstMeta_open_errors_witness :
  fstMeta (E := ref_env) read_only_place = inl CannotOpenFile
  /\ fstRead (E := ref_env) read_only_place None 1 (-1) []
     = inl CannotOpenFile.
Proof.
  apply (proj1 (fstRead_fstMeta_open_errors (E := ref_env) read_only_place
                  None 1 (-1) [])).
  reflexivity.
Defined.

(** ** Reading a written file back *)

Lemma i_read_spec (content buf pre got rest : bytes) (pos n : nat) :
  content = pre ++ got ++ rest ->
  length pre = pos -> length got = n -> length buf = n ->
  i_read {| i_content := content; i_pos := pos; i_fail := false |} buf n
  = (got, {| i_content := content; i_pos := pos + n; i_fail := false |}).
Proof.
  intros -> Hpre Hgot Hbuf. unfold i_read. cbn [i_fail i_content i_pos].
  rewrite sub_skip by lia. rewrite sub_here by lia.
  rewrite store_all by lia. rewrite Hgot.
  replace (n <? n)%nat with false by (symmetry; apply Nat.ltb_irrefl).
  reflexivity.
Qed.

Lemma load_le_with_hash {E : Env} (body rest : bytes) (pre : bytes) (off : Z) :
  off = Z.of_nat (length pre) ->
  load_u64 (pre ++ with_hash body ++ rest) off = header_hash body.
Proof.
  intros Hoff. unfold load_u64, with_hash. rewrite <- app_assoc.
  rewrite load_le_split by exact Hoff.
  apply Z.mod_small. apply header_hash_range.
Qed.

Section ReadBackHeaders.
Context {E : Env}.

Lemma table_header_fields (t : IFstTable) (rest : bytes) :
  NrOfKeys t < 2 ^ 27 -> NrOfColumns t < 2 ^ 27 ->
  let content := with_hash (table_header_body t) ++ rest in
  sub content 8 36 = table_header_body t
  /\ load_u64 content 0 = header_hash (table_header_body t)
  /\ load_u32 content 24 = to_u32 FST_VERSION
  /\ load_i32 content 28 = NrOfColumns t
  /\ load_i32 content 40 = NrOfKeys t.
Proof.
  intros Hk Hn content. subst content.
  pose proof (length_table_header_body t) as Hlen.
  assert (Hk0 : 0 <= NrOfKeys t) by (unfold NrOfKeys; lia).
  assert (Hn0 : 0 <= NrOfColumns t) by (unfold NrOfColumns; lia).
  split; [|split; [|split; [|split]]].
  - unfold with_hash. rewrite <- app_assoc.
    rewrite sub_skip by (rewrite length_le_split; lia).
    apply sub_here; rewrite ?length_le_split; lia.
  - apply (load_le_with_hash (table_header_body t) rest []). reflexivity.
  - unfold load_u32, with_hash, table_header_body.
    replace ((le_split 8 _ ++ _) ++ rest)
      with ((le_split 8 (header_hash (table_header_body t))
               ++ le_split 4 FST_VERSION ++ le_split 4 0 ++ le_split 8 0)
              ++ le_split 4 FST_VERSION
              ++ (le_split 4 (NrOfColumns t)
                    ++ le_split 8 (52 + 4 * NrOfKeys t)
                    ++ le_split 4 (NrOfKeys t) ++ rest))
      by (unfold table_header_body; rewrite <- !app_assoc; reflexivity).
    rewrite load_le_split by reflexivity. reflexivity.
  - unfold load_i32, with_hash, table_header_body.
    replace ((le_split 8 _ ++ _) ++ rest)
      with ((le_split 8 (header_hash (table_header_body t))
               ++ le_split 4 FST_VERSION ++ le_split 4 0 ++ le_split 8 0
               ++ le_split 4 FST_VERSION)
              ++ le_split 4 (NrOfColumns t)
              ++ (le_split 8 (52 + 4 * NrOfKeys t)
                    ++ le_split 4 (NrOfKeys t) ++ rest))
      by (unfold table_header_body; rewrite <- !app_assoc; reflexivity).
    rewrite load_le_split by reflexivity.
    apply to_i32_to_u32. unfold is_int32. lia.
  - unfold load_i32, with_hash, table_header_body.
    replace ((le_split 8 _ ++ _) ++ rest)
      with ((le_split 8 (header_hash (table_header_body t))
               ++ le_split 4 FST_VERSION ++ le_split 4 0 ++ le_split 8 0
               ++ le_split 4 FST_VERSION ++ le_split 4 (NrOfColumns t)
               ++ le_split 8 (52 + 4 * NrOfKeys t))
              ++ le_split 4 (NrOfKeys t) ++ rest)
      by (unfold table_header_body; rewrite <- !app_assoc; reflexivity).
    rewrite load_le_split by reflexivity.
    apply to_i32_to_u32. unfold is_int32. lia.
Qed.

End ReadBackHeaders.

Lemma hash_check {E : Env} (pre body rest : bytes) (off : Z) (len : nat) :
  off = Z.of_nat (length pre) -> len = length body ->
  (load_u64 (pre ++ with_hash body ++ rest) off
   =? header_hash (sub (pre ++ with_hash body ++ rest) (Z.to_nat (off + 8))
                     len)) = true.
Proof.
  intros Hoff Hlen. rewrite load_le_with_hash by exact Hoff.
  unfold with_hash. rewrite <- app_assoc.
  rewrite sub_skip by lia. rewrite sub_skip by (rewrite length_le_split; lia).
  rewrite sub_here by (rewrite ?length_le_split; lia).
  apply Z.eqb_refl.
Qed.

Lemma hash_check_head {E : Env} (body rest : bytes) (len : nat) :
  len = length body ->
  (load_u64 (with_hash body ++ rest) 0
   =? header_hash (sub (with_hash body ++ rest) 8 len)) = true.
Proof.
  intros Hlen. exact (hash_check [] body rest 0 len eq_refl Hlen).
Qed.

Section ReadBack.
Context {E : Env} (HC : CodecContract E).

Lemma fstRead_headers_written (fs : FileSystem) (t : IFstTable)
    (compress : Z) :
  table_ok t -> file_fits t compress ->
  fileData fs = Some (written_file t compress) ->
  fstRead_headers fs = inr (written_state t compress).
Proof.
  intros [Hrows Hcols [Hkeys Hkeycols] Hcolumns] Hfits Hfile.
  unfold written_state.
  assert (Hk : NrOfKeys t < 2 ^ 27) by lia.
  pose proof (key_index_size_range t Hk) as Hks.
  pose proof (length_key_index_record t) as HlenKI.
  pose proof (length_metadata t) as HlenMD.
  pose proof (length_written_file t compress) as HlenF.
  unfold file_fits in Hfits.
  assert (HlenCS : length (chunkset_header_body t)
                   = (68 + 8 * length (Columns t))%nat).
  { unfold chunkset_header_body.
    rewrite !length_app, length_chunkset_fixed_fields, !length_u16_array.
    unfold colAttributeTypes_of, colTypes_of, colBaseTypes_of, colScales_of.
    rewrite !length_map. lia. }
  pose proof length_colnames_header_body as HlenCN.
  pose proof (length_chunk_index_body t (Z.of_nat (chunk_index_start t) + 96))
    as HlenCI.
  pose proof (length_data_chunk_body (positionData_of t compress)) as HlenDC.
  assert (HlenPD : length (positionData_of t compress) = length (Columns t)).
  { unfold positionData_of, payloads. rewrite length_positions, length_map.
    reflexivity. }
  rewrite HlenPD in HlenDC.
  unfold fstRead_headers. rewrite (open_in_some fs _ Hfile). cbn [i_fail].
  rewrite ReadHeader_spec by lia.
  destruct (table_header_fields t
              (key_index_record t ++ with_hash (chunkset_header_body t)
                 ++ with_hash colnames_header_body ++ names_payload t
                 ++ with_hash
                      (chunk_index_body t
                         (Z.of_nat (chunk_index_start t) + 96))
                 ++ with_hash (data_chunk_body (positionData_of t compress))
                 ++ concat (payloads t compress)) Hk (proj2 Hcols))
    as (Hsub & Hhash & Hver & Hn & Hkl).
  assert (Hcontent :
            written_file t compress
            = with_hash (table_header_body t)
                ++ key_index_record t ++ with_hash (chunkset_header_body t)
                ++ with_hash colnames_header_body ++ names_payload t
                ++ with_hash
                     (chunk_index_body t
                        (Z.of_nat (chunk_index_start t) + 96))
                ++ with_hash (data_chunk_body (positionData_of t compress))
                ++ concat (payloads t compress)).
  { unfold written_file, metadata. rewrite <- !app_assoc. reflexivity. }
  rewrite <- Hcontent in Hsub, Hhash, Hver, Hn, Hkl.
  rewrite Hsub, Hhash, Hver, Hn, Hkl. rewrite Z.eqb_refl. cbn [negb].
  replace (to_u32 FST_VERSION >? to_u32 FST_VERSION) with false
    by (symmetry; rewrite Z.gtb_ltb; apply Z.ltb_irrefl).
  cbn [bind]. cbv zeta.
  rewrite (key_index_size_eq t Hk).
  unfold CHUNKSET_HEADER_SIZE, CHUNK_INDEX_SIZE, DATA_INDEX_SIZE,
    TABLE_META_SIZE.
  set (n := NrOfColumns t) in *. set (ks := key_index_size t) in *.
  assert (Hnlen : Z.of_nat (length (Columns t)) = n) by reflexivity.
  rewrite (to_u64_small (76 + 8 * n)) by lia.
  rewrite (to_u64_small (ks + (76 + 8 * n) + 24)) by lia.
  rewrite (to_u64_small (ks + (76 + 8 * n))) by lia.
  rewrite (to_u64_small (ks + (76 + 8 * n) + 24 + 44)) by lia.
  rewrite (to_u64_small (96 + 24 + 8 * n)) by lia.
  rewrite (to_u32_small n) by lia.
  set (KI := key_index_record t) in *.
  set (CS := chunkset_header_body t) in *.
  set (CN := colnames_header_body) in *.
  set (NP := names_payload t) in *.
  set (CI := chunk_index_body t (Z.of_nat (chunk_index_start t) + 96)) in *.
  set (DC := data_chunk_body (positionData_of t compress)) in *.
  set (PL := concat (payloads t compress)) in *.
  set (TH := table_header_body t) in *.
  rewrite (i_read_spec (written_file t compress) _ (with_hash TH)
             (KI ++ with_hash CS ++ with_hash CN)
             (NP ++ with_hash CI ++ with_hash DC ++ PL) 44);
    [ | rewrite Hcontent, <- !app_assoc; reflexivity
      | rewrite length_with_hash; subst TH;
        rewrite length_table_header_body; reflexivity
      | rewrite !length_app, !length_with_hash; lia
      | rewrite length_new_char; reflexivity ].
  cbv beta iota. cbn [i_content].
  (* the key index *)
  assert (Hkey :
            negb (NrOfKeys t =? 0)
            && negb (load_u64 (KI ++ with_hash CS ++ with_hash CN) 0
                     =? header_hash
                          (sub (KI ++ with_hash CS ++ with_hash CN) 8
                             (Z.to_nat (ks - 8)))) = false).
  { subst KI ks. unfold key_index_record, key_index_size.
    destruct (NrOfKeys t =? 0) eqn:Hk0; cbn [negb andb]; [reflexivity|].
    rewrite hash_check_head; [reflexivity|].
    rewrite length_flat_map_le_split. unfold NrOfKeys. lia. }
  rewrite Hkey.
  rewrite (hash_check KI CS (with_hash CN) ks) by lia.
  cbn [negb].
  replace (KI ++ with_hash CS ++ with_hash CN)
    with ((KI ++ with_hash CS) ++ with_hash CN ++ [])
    by (rewrite app_nil_r, <- app_assoc; reflexivity).
  rewrite (hash_check (KI ++ with_hash CS) CN [] (ks + (76 + 8 * n)))
    by (rewrite ?length_app, ?length_with_hash; lia).
  cbn [negb].
  rewrite app_nil_r, <- app_assoc.
  (* the column names *)
  pose proof (char_round_trip E HC (metadata t)
                (with_hash CI ++ with_hash DC ++ PL)
                (map colName (Columns t)) 0 NATIVE ltac:(lia)) as Hnames.
  cbv zeta in Hnames. unfold at_pos in Hnames. fold NP in Hnames.
  rewrite length_map, Hnlen in Hnames.
  replace (metadata t ++ NP ++ with_hash CI ++ with_hash DC ++ PL)
    with (written_file t compress) in Hnames
    by (unfold written_file; reflexivity).
  replace (ks + (76 + 8 * n) + 24 + 44)
    with (Z.of_nat (length (metadata t))) by lia.
  rewrite Hnames. cbv beta iota. unfold seekg. cbn [i_content i_fail].
  rewrite Nat2Z.id.
  rewrite (i_read_spec (written_file t compress) _ (metadata t ++ NP)
             (with_hash CI ++ with_hash DC) PL);
    [ | unfold written_file; rewrite <- !app_assoc; reflexivity
      | rewrite length_app; reflexivity
      | rewrite !length_app, !length_with_hash; lia
      | rewrite length_new_char; reflexivity ].
  cbv beta iota. cbn [i_content].
  rewrite hash_check_head by lia. cbn [negb].
  replace (with_hash CI ++ with_hash DC)
    with (with_hash CI ++ with_hash DC ++ [])
    by (rewrite app_nil_r; reflexivity).
  rewrite (hash_check (with_hash CI) DC [] 96)
    by (rewrite ?length_with_hash; lia).
  cbn [negb]. rewrite app_nil_r. reflexivity.
Qed.

End ReadBack.

(** ** The DOUBLE_64 codec *)

Lemma u64s_of_bytes_of_u64s (v : list Z) (rest : bytes) :
  Forall is_u64 v ->
  u64s_of_bytes (length v) (bytes_of_u64s v ++ rest) = v.
Proof.
  unfold bytes_of_u64s.
  induction 1 as [|x v Hx Hv IH]; [reflexivity|].
  cbn [length u64s_of_bytes flat_map]. rewrite <- app_assoc.
  change (firstn 8 (le_split 8 x ++ flat_map (le_split 8) v ++ rest))
    with (sub (le_split 8 x ++ flat_map (le_split 8) v ++ rest) 0 8).
  rewrite sub_here by (rewrite ?length_le_split; lia).
  rewrite le_combine_split.
  rewrite skipn_app, length_le_split, Nat.sub_diag.
  rewrite skipn_all2 by (rewrite length_le_split; lia).
  cbn [skipn app]. rewrite IH. f_equal.
  apply Z.mod_small. exact Hx.
Qed.

Lemma length_bytes_of_u64s (v : list Z) :
  Z.of_nat (length (bytes_of_u64s v)) = 8 * Z.of_nat (length v).
Proof. unfold bytes_of_u64s. rewrite length_flat_map_le_split. lia. Qed.

Section DoubleCodec.
Context {E : Env} (HC : CodecContract E).

Lemma fdsReadRealVec_v9_written (pre post : bytes) (doubleVector : list Z)
    (compression : Z) (annotation : string) :
  Forall is_u64 doubleVector ->
  let n := Z.of_nat (length doubleVector) in
  fdsReadRealVec_v9
    (at_pos pre (fdsWriteRealVec_v9 doubleVector n compression annotation)
       post)
    (Z.of_nat (length pre)) 0 n n
  = (doubleVector, annotation).
Proof.
  intros Hv n. unfold fdsReadRealVec_v9, fdsWriteRealVec_v9. cbv zeta.
  pose proof (length_bytes_of_u64s doubleVector) as Hlen. fold n in Hlen.
  assert (Hback : u64s_of_bytes (Z.to_nat n) (bytes_of_u64s doubleVector)
                  = doubleVector).
  { subst n. rewrite Nat2Z.id.
    rewrite <- (app_nil_r (bytes_of_u64s doubleVector)).
    apply u64s_of_bytes_of_u64s. exact Hv. }
  destruct (compression =? 0).
  - rewrite (stream_uncompressed_round_trip E HC) by exact Hlen.
    rewrite Hback. reflexivity.
  - unfold CompressBufferSize.
    destruct (compression <=? 50);
      rewrite (stream_compressed_round_trip E HC) by exact Hlen;
      rewrite Hback; reflexivity.
Qed.

(** X12. The DOUBLE_64 codec gives back what it was given: whatever the
    compression setting, for a block streamer that returns the bytes it
    stored, reading a column written by [fdsWriteRealVec_v9] from the place
    where it lies in a file yields the same 64-bit patterns (so the payload of
    a NaN survives) and the same annotation. *)
Theorem fdsReadRealVec_v9_round_trip (pre post : bytes)
    (doubleVector : list Z) (compression : Z) (annotation : string) :
  Forall is_u64 doubleVector ->
  let n := Z.of_nat (length doubleVector) in
  fdsReadRealVec_v9
    (at_pos pre (fdsWriteRealVec_v9 doubleVector n compression annotation)
       post)
    (Z.of_nat (length pre)) 0 n n
  = (doubleVector, annotation).
Proof. exact (fdsReadRealVec_v9_written pre post doubleVector compression annotation). Qed.

End DoubleCodec.

Lemma FstColumnAttribute_value_range (a : FstColumnAttribute) :
  0 <= FstColumnAttribute_value a < 2 ^ 16.
Proof. destruct a; cbn; lia. Qed.

Lemma nth_map_nth_error {A B : Type} (f : A -> B) (l : list A) (i : nat)
    (x : A) (d : B) :
  nth_error l i = Some x -> nth i (map f l) d = f x.
Proof.
  revert i. induction l as [|y l IH]; intros [|i] H; cbn in *;
    try discriminate.
  - inversion H. reflexivity.
  - apply IH. exact H.
Qed.

Section ReadBackColumns.
Context {E : Env} (HC : CodecContract E).

Lemma read_column_written (t : IFstTable) (compress : Z) (i : nat)
    (col : Column) :
  table_ok t -> 0 <= compress <= 100 -> file_fits t compress ->
  nth_error (Columns t) i = Some col ->
  read_column (written_state t compress) 0 (NrOfRows t) (NrOfRows t)
    (Z.of_nat i)
  = inr (column_read_back col).
Proof.
  intros [Hrows Hcols [Hkeys Hkeycols] Hcolumns] Hc Hfits Hnth.
  assert (Hk : NrOfKeys t < 2 ^ 27) by lia.
  pose proof (key_index_size_range t Hk) as Hks.
  pose proof (length_key_index_record t) as HlenKI.
  assert (Hi : (i < length (Columns t))%nat)
    by (apply nth_error_Some; congruence).
  assert (Hok : column_ok (NrOfRows t) col).
  { rewrite Forall_forall in Hcolumns. apply Hcolumns.
    eapply nth_error_In; eassumption. }
  destruct Hok as [Hscale Hdata].
  unfold read_column, written_state.
  cbn [rs_nrOfCols rs_keyIndexHeaderSize rs_metaDataBlock rs_content
       rs_chunkIndex].
  cbv zeta.
  set (n := NrOfColumns t) in *. set (ks := key_index_size t) in *.
  assert (Hnlen : Z.of_nat (length (Columns t)) = n) by reflexivity.
  replace ((Z.of_nat i <? 0) || (Z.of_nat i >=? n)) with false
    by (symmetry; apply orb_false_iff; split; lia).
  (* the column arrays *)
  set (A := colAttributeTypes_of (Columns t)).
  set (T := colTypes_of (Columns t)).
  set (B := colBaseTypes_of (Columns t)).
  set (S := colScales_of (Columns t)).
  assert (HlenA : length A = length (Columns t))
    by (subst A; unfold colAttributeTypes_of; apply length_map).
  assert (HlenT : length T = length (Columns t))
    by (subst T; unfold colTypes_of; apply length_map).
  assert (HlenB : length B = length (Columns t))
    by (subst B; unfold colBaseTypes_of; apply length_map).
  assert (HlenS : length S = length (Columns t))
    by (subst S; unfold colScales_of; apply length_map).
  set (KI := key_index_record t) in *.
  set (F := chunkset_fixed_fields t).
  pose proof (length_chunkset_fixed_fields t) as HlenF. fold F in HlenF.
  set (hCS := le_split 8 (header_hash (chunkset_header_body t))).
  assert (HlenH : length hCS = 8%nat) by reflexivity.
  set (CN := with_hash colnames_header_body).
  assert (Hmdb :
            KI ++ with_hash (chunkset_header_body t) ++ CN
            = KI ++ hCS ++ F ++ u16_array A ++ u16_array T ++ u16_array B
                ++ u16_array S ++ CN).
  { unfold with_hash at 1. fold hCS. unfold chunkset_header_body.
    fold A T B S F. rewrite <- !app_assoc. reflexivity. }
  rewrite Hmdb.
  assert (Hattr :
            load_u16 (KI ++ hCS ++ F ++ u16_array A ++ u16_array T
                        ++ u16_array B ++ u16_array S ++ CN)
              (ks + 76 + 2 * Z.of_nat i)
            = FstColumnAttribute_value (colAttribute col)).
  { unfold load_u16.
    replace (KI ++ hCS ++ F ++ u16_array A ++ u16_array T ++ u16_array B
               ++ u16_array S ++ CN)
      with ((KI ++ hCS ++ F) ++ flat_map (le_split 2) A
              ++ (u16_array T ++ u16_array B ++ u16_array S ++ CN))
      by (unfold u16_array; rewrite <- !app_assoc; reflexivity).
    rewrite (load_le_array 2 A _ _ _ i)
      by (rewrite ?length_app; lia).
    subst A. unfold colAttributeTypes_of.
    rewrite (nth_map_nth_error _ _ _ _ _ Hnth).
    apply Z.mod_small. apply FstColumnAttribute_value_range. }
  assert (Htype :
            load_u16 (KI ++ hCS ++ F ++ u16_array A ++ u16_array T
                        ++ u16_array B ++ u16_array S ++ CN)
              (ks + 76 + 2 * n + 2 * Z.of_nat i)
            = colTypes_code (colData col)).
  { unfold load_u16.
    replace (KI ++ hCS ++ F ++ u16_array A ++ u16_array T ++ u16_array B
               ++ u16_array S ++ CN)
      with ((KI ++ hCS ++ F ++ u16_array A) ++ flat_map (le_split 2) T
              ++ (u16_array B ++ u16_array S ++ CN))
      by (unfold u16_array; rewrite <- !app_assoc; reflexivity).
    rewrite (load_le_array 2 T _ _ _ i)
      by (rewrite ?length_app, ?length_u16_array; lia).
    subst T. unfold colTypes_of.
    rewrite (nth_map_nth_error _ _ _ _ _ Hnth).
    apply Z.mod_small. destruct (colData col); cbn; lia. }
  assert (Hsc :
            load_i16 (KI ++ hCS ++ F ++ u16_array A ++ u16_array T
                        ++ u16_array B ++ u16_array S ++ CN)
              (ks + 76 + 6 * n + 2 * Z.of_nat i)
            = colScale col).
  { unfold load_i16.
    replace (KI ++ hCS ++ F ++ u16_array A ++ u16_array T ++ u16_array B
               ++ u16_array S ++ CN)
      with ((KI ++ hCS ++ F ++ u16_array A ++ u16_array T ++ u16_array B)
              ++ flat_map (le_split 2) S ++ CN)
      by (unfold u16_array; rewrite <- !app_assoc; reflexivity).
    rewrite (load_le_array 2 S _ _ _ i)
      by (rewrite ?length_app, ?length_u16_array; lia).
    subst S. unfold colScales_of.
    rewrite (nth_map_nth_error _ _ _ _ _ Hnth).
    apply to_i16_to_u16. exact Hscale. }
  rewrite Hattr, Htype, Hsc.
  clear Hattr Htype Hsc Hmdb.
  (* the position and the payload *)
  set (PLs := payloads t compress).
  assert (HiP : (i < length PLs)%nat)
    by (subst PLs; unfold payloads; rewrite length_map; exact Hi).
  destruct (written_file_payloads t compress) as (hs & Hsplit & Hhs).
  fold PLs in Hsplit.
  pose proof (concat_split_nth PLs i HiP) as Hcat.
  pose proof (length_written_file t compress) as HlenW. fold PLs in HlenW.
  unfold file_fits in Hfits.
  assert (Hle : (length (concat (firstn i PLs)) <= length (concat PLs))%nat).
  { pose proof Hcat as Hcat'. apply (f_equal (@length byte)) in Hcat'.
    rewrite !length_app in Hcat'. lia. }
  assert (Hpos :
            load_u64
              (with_hash
                 (chunk_index_body t (Z.of_nat (chunk_index_start t) + 96))
                 ++ with_hash (data_chunk_body (positionData_of t compress)))
              (120 + 8 * Z.of_nat i)
            = Z.of_nat (length (hs ++ concat (firstn i PLs)))).
  { unfold load_u64.
    replace (with_hash
               (chunk_index_body t (Z.of_nat (chunk_index_start t) + 96))
               ++ with_hash (data_chunk_body (positionData_of t compress)))
      with ((with_hash
               (chunk_index_body t (Z.of_nat (chunk_index_start t) + 96))
               ++ le_split 8
                    (header_hash
                       (data_chunk_body (positionData_of t compress)))
               ++ le_split 4 FST_VERSION ++ le_split 4 0 ++ le_split 8 0)
              ++ flat_map (le_split 8) (positionData_of t compress) ++ [])
      by (unfold with_hash at 2; unfold data_chunk_body;
          rewrite app_nil_r, <- !app_assoc; reflexivity).
    assert (HiPD : (i < length (positionData_of t compress))%nat)
      by (unfold positionData_of; rewrite length_positions; exact HiP).
    rewrite (load_le_array 8 _ _ _ _ i HiPD)
      by (rewrite !length_app, length_with_hash, length_chunk_index_body,
            !length_le_split; lia).
    unfold positionData_of. fold PLs. rewrite positions_nth by exact HiP.
    change (Z.of_nat 8 * 8) with 64. rewrite length_app, Hhs.
    apply Z.mod_small. lia. }
  assert (Hfile :
            written_file t compress
            = at_pos (hs ++ concat (firstn i PLs))
                (column_payload (NrOfRows t) compress col)
                (concat (skipn (Datatypes.S i) PLs))).
  { unfold at_pos. rewrite Hsplit, Hcat at 1. rewrite <- app_assoc.
    do 2 f_equal. subst PLs. unfold payloads.
    rewrite (nth_map_nth_error _ _ _ _ _ Hnth).
    rewrite to_u64_small by lia. reflexivity. }
  rewrite Hpos, Hfile. clear Hpos Hfile Hsplit Hcat HlenW Hfits Hle.
  set (pre := hs ++ concat (firstn i PLs)).
  set (post := concat (skipn (Datatypes.S i) PLs)).
  unfold column_read_back, column_payload.
  rewrite (to_u32_small compress) by lia.
  destruct (colData col) as [|strs enc|levels levelNames enc|v|v|v|v|v]
    eqn:Hd; cbn [colTypes_code]; cbv beta iota.
  - destruct Hdata.
  - rewrite <- Hdata.
    rewrite (char_round_trip E HC pre post strs compress enc Hc).
    reflexivity.
  - destruct Hdata as [HR Hv]. rewrite <- HR.
    rewrite (factor_round_trip E HC pre post levels levelNames compress enc
               (colAnnotation col) Hc Hv).
    reflexivity.
  - destruct Hdata as [HR Hv]. rewrite <- HR.
    rewrite (int_round_trip E HC pre post v compress (colAnnotation col)
               Hc Hv).
    reflexivity.
  - destruct Hdata as [HR Hv]. rewrite <- HR.
    rewrite (fdsReadRealVec_v9_written HC pre post v compress
               (colAnnotation col) Hv).
    reflexivity.
  - destruct Hdata as [HR Hv]. rewrite <- HR.
    rewrite (logical_round_trip E HC pre post v compress (colAnnotation col)
               Hc Hv).
    reflexivity.
  - destruct Hdata as [HR Hv]. rewrite <- HR.
    rewrite (int64_round_trip E HC pre post v compress (colAnnotation col)
               Hc Hv).
    reflexivity.
  - rewrite <- Hdata.
    rewrite (byte_round_trip E HC pre post v compress (colAnnotation col)
               Hc).
    reflexivity.
Qed.

End ReadBackColumns.

(** ** The key index and the names of a full read *)

Lemma first_index_identity (key : Z) (n : nat) (j0 : nat) :
  Z.of_nat j0 <= key < Z.of_nat (j0 + n) ->
  first_index key (map Z.of_nat (seq j0 n)) (Z.of_nat j0) = Some key.
Proof.
  revert j0. induction n as [|n IH]; intros j0 H; [lia|].
  cbn [seq map first_index].
  destruct (key =? Z.of_nat j0) eqn:Hk.
  - apply Z.eqb_eq in Hk. congruence.
  - apply Z.eqb_neq in Hk.
    replace (Z.of_nat j0 + 1) with (Z.of_nat (S j0)) by lia.
    apply IH. lia.
Qed.

Lemma key_remap_identity (keyColPos : list Z) (n : nat) :
  Forall (fun k => 0 <= k < Z.of_nat n) keyColPos ->
  key_remap keyColPos (map Z.of_nat (seq 0 n)) = keyColPos.
Proof.
  induction 1 as [|key rest Hk Hrest IH]; [reflexivity|].
  cbn [key_remap].
  pose proof (first_index_identity key n 0 ltac:(cbn [Nat.add]; lia)) as Hf.
  change (Z.of_nat 0) with 0 in Hf. rewrite Hf, IH. reflexivity.
Qed.

Lemma array_i32_flat_map (pre rest : bytes) (v : list Z) :
  Forall is_int32 v ->
  array_i32 (pre ++ flat_map (le_split 4) v ++ rest)
    (Z.of_nat (length pre)) (Z.of_nat (length v))
  = v.
Proof.
  intros Hv. unfold array_i32. rewrite Nat2Z.id.
  apply (nth_ext _ _ 0 0).
  - rewrite length_map, length_seq. reflexivity.
  - intros i Hi. rewrite length_map, length_seq in Hi.
    rewrite (nth_indep _ 0
               (load_i32 (pre ++ flat_map (le_split 4) v ++ rest)
                  (Z.of_nat (length pre) + 4 * Z.of_nat 0)))
      by (rewrite length_map, length_seq; exact Hi).
    rewrite (map_nth (fun i => load_i32 _ (_ + 4 * Z.of_nat i))).
    rewrite seq_nth by exact Hi. cbn [Nat.add].
    unfold load_i32. rewrite (load_le_array 4 v pre rest _ i Hi) by lia.
    apply to_i32_to_u32. rewrite Forall_forall in Hv. apply Hv.
    apply nth_In. exact Hi.
Qed.

Lemma map_GetElement_identity (names : list string) :
  map (GetElement names) (map Z.of_nat (seq 0 (length names))) = names.
Proof.
  apply (nth_ext _ _ EmptyString EmptyString).
  - rewrite !length_map, length_seq. reflexivity.
  - intros i Hi. rewrite !length_map, length_seq in Hi.
    rewrite map_map.
    rewrite (nth_indep _ EmptyString (GetElement names (Z.of_nat 0)))
      by (rewrite length_map, length_seq; exact Hi).
    rewrite (map_nth (fun i => GetElement names (Z.of_nat i))).
    rewrite seq_nth by exact Hi. cbn [Nat.add].
    unfold GetElement. rewrite Nat2Z.id. reflexivity.
Qed.

Section ReadBackTable.
Context {E : Env} (HC : CodecContract E).

Lemma read_columns_written (t : IFstTable) (compress : Z) (rest : list Column)
    (i : nat) :
  table_ok t -> 0 <= compress <= 100 -> file_fits t compress ->
  skipn i (Columns t) = rest ->
  read_columns (written_state t compress) 0 (NrOfRows t) (NrOfRows t)
    (map Z.of_nat (seq i (length rest)))
  = inr (map column_read_back rest).
Proof.
  intros Hok Hc Hfits. revert i.
  induction rest as [|col rest IH]; intros i Hskip; [reflexivity|].
  cbn [length seq map read_columns].
  assert (Hnth : nth_error (Columns t) i = Some col).
  { rewrite <- (firstn_skipn i (Columns t)) at 1. rewrite Hskip.
    assert (Hlen : (i <= length (Columns t))%nat).
    { destruct (Nat.le_gt_cases i (length (Columns t))) as [H|H]; [exact H|].
      rewrite skipn_all2 in Hskip by lia. discriminate. }
    rewrite nth_error_app2 by (rewrite length_firstn; lia).
    rewrite length_firstn.
    replace (i - Nat.min i (length (Columns t)))%nat with 0%nat by lia.
    reflexivity. }
  rewrite (read_column_written HC t compress i col Hok Hc Hfits Hnth).
  cbn [bind]. rewrite (IH (S i)).
  - reflexivity.
  - replace (S i) with (1 + i)%nat by lia.
    rewrite <- skipn_skipn, Hskip. reflexivity.
Qed.

Lemma written_state_keys (t : IFstTable) (compress : Z) :
  table_ok t ->
  SetKeyIndex [] (rs_keyLength (written_state t compress)) (NrOfColumns t)
    (array_i32 (rs_metaDataBlock (written_state t compress)) 8
       (rs_keyLength (written_state t compress)))
    (map Z.of_nat (seq 0 (Z.to_nat (NrOfColumns t))))
  = KeyColumns t.
Proof.
  intros [Hrows Hcols [Hkeys Hkeycols] Hcolumns].
  cbn [written_state rs_keyLength rs_metaDataBlock].
  assert (Harr :
            array_i32
              (key_index_record t ++ with_hash (chunkset_header_body t)
                 ++ with_hash colnames_header_body) 8 (NrOfKeys t)
            = KeyColumns t).
  { unfold key_index_record.
    destruct (NrOfKeys t =? 0) eqn:Hk0; cbn [negb].
    - apply Z.eqb_eq in Hk0. unfold NrOfKeys in *.
      destruct (KeyColumns t); [|cbn [length] in Hk0; lia].
      rewrite Hk0. reflexivity.
    - unfold with_hash at 1. rewrite <- app_assoc.
      apply (array_i32_flat_map
               (le_split 8 (header_hash (flat_map (le_split 4) (KeyColumns t))))
               _ (KeyColumns t)).
      eapply Forall_impl; [|exact Hkeycols].
      intros k Hk. unfold is_int32. cbn beta in Hk. lia. }
  rewrite Harr. unfold NrOfColumns, NrOfKeys. rewrite Nat2Z.id.
  replace (Z.of_nat (length (Columns t)))
    with (Z.of_nat (length (map Z.of_nat (seq 0 (length (Columns t))))))
    by (rewrite length_map, length_seq; reflexivity).
  rewrite SetKeyIndex_key_remap. cbn [app].
  apply key_remap_identity. exact Hkeycols.
Qed.

End ReadBackTable.

Section ReadBackMain.
Context {E : Env} (HC : CodecContract E).

Lemma table_ok_writable (t : IFstTable) : table_ok t -> writable t.
Proof.
  intros [Hrows Hcols [Hkeys Hkeycols] Hcolumns]. split.
  - exact Hcols.
  - lia.
  - rewrite to_u64_small by lia. lia.
  - eapply Forall_impl; [|exact Hcolumns].
    intros col [_ Hd] Hu. rewrite Hu in Hd. exact Hd.
Qed.

Lemma written_state_rows (t : IFstTable) (compress : Z) :
  1 <= NrOfRows t < 2 ^ 63 -> 1 <= NrOfColumns t ->
  load_u64 (rs_chunkIndex (written_state t compress)) 64 = NrOfRows t.
Proof.
  intros Hrows Hcols. cbn [written_state rs_chunkIndex].
  assert (Hpu : length (unused_chunkPos_slots t) = 24%nat).
  { unfold unused_chunkPos_slots.
    apply length_sub. rewrite length_new_char. lia. }
  unfold load_u64.
  replace (with_hash
             (chunk_index_body t (Z.of_nat (chunk_index_start t) + 96))
             ++ with_hash (data_chunk_body (positionData_of t compress)))
    with ((le_split 8
             (header_hash
                (chunk_index_body t (Z.of_nat (chunk_index_start t) + 96)))
             ++ le_split 4 FST_VERSION ++ le_split 4 0 ++ le_split 8 0
             ++ le_split 2 4 ++ le_split 2 0 ++ le_split 2 0 ++ le_split 2 0
             ++ le_split 8 (Z.of_nat (chunk_index_start t) + 96)
             ++ unused_chunkPos_slots t)
            ++ le_split 8 (to_u64 (NrOfRows t))
            ++ (unused_chunkRows_slots t
                  ++ with_hash (data_chunk_body (positionData_of t compress))))
    by (unfold with_hash, chunk_index_body;
        rewrite <- !app_assoc; reflexivity).
  rewrite load_le_split by (rewrite !length_app, !length_le_split, Hpu; lia).
  change (Z.of_nat 8 * 8) with 64. rewrite to_u64_small by lia.
  apply Z.mod_small. lia.
Qed.

(** A full read of a file that holds the layout of a table. *)
Lemma fstRead_written (fs : FileSystem) (t : IFstTable) (compress : Z) :
  table_ok t -> 0 <= compress <= 100 -> file_fits t compress ->
  fileData fs = Some (written_file t compress) ->
  fstRead fs None 1 (-1) [] = inr (table_read_back t).
Proof.
  intros Hok Hc Hfits Hfile.
  pose proof (fstRead_headers_written HC fs t compress Hok Hfits Hfile) as Hh.
  pose proof (written_state_rows t compress (rows_ok t Hok)
                (proj1 (cols_ok t Hok))) as HR.
  unfold fstRead. rewrite Hh. cbn [bind fstRead_selection].
  rewrite fstRead_range_spec by (rewrite ?HR; destruct Hok; lia).
  rewrite HR.
  destruct (1 - 1 <? 0) eqn:H1; [lia|].
  destruct (1 - 1 >=? NrOfRows t) eqn:H2; [destruct Hok; lia|].
  change (-1 =? -1) with true. cbv iota. cbn [bind].
  change (1 - 1) with 0. rewrite Z.sub_0_r.
  replace (rs_nrOfCols (written_state t compress)) with (NrOfColumns t)
    by reflexivity.
  pose proof (read_columns_written HC t compress (Columns t) 0 Hok Hc Hfits
                eq_refl) as Hcols.
  pose proof (written_state_keys t compress Hok) as Hkeys.
  pose proof (map_GetElement_identity (map colName (Columns t))) as Hn.
  rewrite length_map in Hn.
  replace (rs_blockReader (written_state t compress))
    with (map colName (Columns t)) by reflexivity.
  rewrite Hkeys.
  replace (Z.to_nat (NrOfColumns t)) with (length (Columns t))
    by (unfold NrOfColumns; rewrite Nat2Z.id; reflexivity).
  rewrite Hcols, Hn. reflexivity.
Qed.

(** X13. Round trip: a table of the data model written with a compression
    setting from 0 to 100, by codecs that give back what they stored, and
    read back in full (no selection, rows 1 to the end) yields the number of
    rows and columns of the table, its columns in order with their data,
    encoding tag and attribute, its key columns in order, and its column
    names; the scale comes back for INT_32, DOUBLE_64 and INT_64 columns and
    the annotation for INT_32 and DOUBLE_64 columns. *)
Theorem fstRead_fstWrite_round_trip (fs : FileSystem) (t : IFstTable)
    (compress : Z) :
  table_ok t -> 0 <= compress <= 100 -> file_fits t compress ->
  canWrite fs = true ->
  exists fs',
    fstWrite fs t compress = (inr tt, fs')
    /\ fstRead fs' None 1 (-1) [] = inr (table_read_back t).
Proof.
  intros Hok Hc Hfits Hw.
  exists {| fileData := Some (written_file t compress);
            canWrite := canWrite fs |}.
  split.
  - apply fstWrite_layout;
      [apply table_ok_writable; exact Hok | exact Hw
       | apply (file_fits_start t compress); exact Hfits].
  - apply (fstRead_written _ t compress Hok Hc Hfits). reflexivity.
Qed.

(** X14. What a round trip keeps and what it loses: the data of every
    column, the key columns and the column names come back as they were
    written; the annotation comes back for INT_32 and DOUBLE_64 columns and
    is dropped for every other column, although the writer hands it to the
    codec of FACTOR, BOOL_2, INT_64 and BYTE columns; so the table read back
    equals the table written exactly when no column of another type carries
    an annotation. *)
Theorem fstRead_fstWrite_annotations (fs : FileSystem) (t : IFstTable)
    (compress : Z) :
  table_ok t -> 0 <= compress <= 100 -> file_fits t compress ->
  canWrite fs = true ->
  exists fs' out,
    fstWrite fs t compress = (inr tt, fs')
    /\ fstRead fs' None 1 (-1) [] = inr out
    /\ map rData (rColumns (outTable out)) = map colData (Columns t)
    /\ outKeyIndex out = KeyColumns t
    /\ outSelectedCols out = map colName (Columns t)
    /\ map annotation_seen (rColumns (outTable out))
       = map (fun col =>
                match colData col with
                | Int32Data _ | DoubleData _ => colAnnotation col
                | _ => EmptyString
                end) (Columns t)
    /\ (round_trip_equal t out
        <-> Forall (fun col =>
                      match colData col with
                      | Int32Data _ | DoubleData _ => True
                      | _ => colAnnotation col = EmptyString
                      end) (Columns t)).
Proof.
  intros Hok Hc Hfits Hw.
  exists {| fileData := Some (written_file t compress);
            canWrite := canWrite fs |}, (table_read_back t).
  assert (Hdata : map rData (map column_read_back (Columns t))
                  = map colData (Columns t)).
  { rewrite map_map. reflexivity. }
  assert (Hann : map annotation_seen (map column_read_back (Columns t))
                 = map (fun col =>
                          match colData col with
                          | Int32Data _ | DoubleData _ => colAnnotation col
                          | _ => EmptyString
                          end) (Columns t)).
  { rewrite map_map. apply map_ext. intros col.
    unfold annotation_seen, column_read_back. cbn [rAnnotation].
    destruct (colData col); reflexivity. }
  split; [|split; [|split; [|split; [|split; [|split]]]]].
  - apply fstWrite_layout;
      [apply table_ok_writable; exact Hok | exact Hw
       | apply (file_fits_start t compress); exact Hfits].
  - apply (fstRead_written _ t compress Hok Hc Hfits). reflexivity.
  - exact Hdata.
  - reflexivity.
  - reflexivity.
  - exact Hann.
  - unfold round_trip_equal.
    cbn [table_read_back outTable rColumns outKeyIndex].
    rewrite Hann. split.
    + intros (_ & _ & Heq). clear Hdata Hann.
      induction (Columns t) as [|col cols IH]; constructor.
      * cbn [map] in Heq. inversion Heq as [[Hhd Htl]].
        destruct (colData col); auto.
      * apply IH. cbn [map] in Heq. inversion Heq. reflexivity.
    + intros Hall. split; [exact Hdata|]. split; [reflexivity|].
      clear Hdata Hann. induction Hall as [|col cols Hcol Hcols IH];
        [reflexivity|].
      cbn [map]. rewrite IH. f_equal.
      destruct (colData col); auto.
Qed.

End ReadBackMain.

(** ** The reference environment meets the codec contract *)

Module RefFacts.
Import Ref.

Lemma dec_str_enc (s rest cur : bytes) :
  dec_str (flat_map (fun b => [x02%byte; b]) s ++ x01%byte :: rest) cur
  = (rev cur ++ s, rest).
Proof.
  revert cur. induction s as [|b s IH]; intros cur.
  - cbn. rewrite app_nil_r. reflexivity.
  - cbn [flat_map app dec_str]. cbn [Byte.eqb]. rewrite IH.
    cbn [rev]. rewrite <- app_assoc. reflexivity.
Qed.

Lemma dec_str_enc_str (s rest : bytes) :
  dec_str (enc_str s ++ rest) [] = (s, rest).
Proof.
  unfold enc_str. rewrite <- app_assoc. cbn [app].
  rewrite dec_str_enc. reflexivity.
Qed.

Lemma dec_strs_enc (s rest cur : bytes) :
  dec_strs (flat_map (fun b => [x02%byte; b]) s ++ x01%byte :: rest) cur
  = (let '(l, r) := dec_strs rest [] in ((rev cur ++ s) :: l, r)).
Proof.
  revert cur. induction s as [|b s IH]; intros cur.
  - cbn [flat_map app dec_strs]. cbn [Byte.eqb].
    rewrite app_nil_r. reflexivity.
  - cbn [flat_map app dec_strs]. cbn [Byte.eqb]. rewrite IH.
    cbn [rev]. rewrite <- app_assoc. reflexivity.
Qed.

Lemma dec_strs_flat_map (l : list bytes) (rest : bytes) :
  dec_strs (flat_map enc_str l ++ x00%byte :: rest) [] = (l, rest).
Proof.
  induction l as [|s l IH].
  - reflexivity.
  - cbn [flat_map]. unfold enc_str at 1. rewrite <- !app_assoc.
    cbn [app]. rewrite dec_strs_enc, IH. reflexivity.
Qed.

Lemma dec_strs_enc_strs (l : list bytes) (rest : bytes) :
  dec_strs (enc_strs l ++ rest) [] = (l, rest).
Proof.
  unfold enc_strs. rewrite <- app_assoc. apply dec_strs_flat_map.
Qed.

Lemma dec_encoding_enc (e : StringEncoding) :
  dec_encoding (enc_encoding e) = e.
Proof. destruct e; reflexivity. Qed.

Lemma dec_annotation_enc (annotation : string) (rest : bytes) :
  dec_annotation (enc_annotation annotation ++ rest) = annotation.
Proof.
  unfold dec_annotation, enc_annotation. rewrite dec_str_enc_str.
  apply string_of_list_byte_of_string.
Qed.

Lemma map_string_of_list_byte (strs : list string) :
  map string_of_list_byte (map list_byte_of_string strs) = strs.
Proof.
  rewrite map_map. rewrite <- (map_id strs) at 2.
  apply map_ext. apply string_of_list_byte_of_string.
Qed.

Lemma words_of_bytes_flat_map (w : nat) (v : list Z) (rest : bytes) :
  words_of_bytes w (length v) (flat_map (le_split w) v ++ rest)
  = map (fun x => x mod 2 ^ (Z.of_nat w * 8)) v.
Proof.
  induction v as [|x v IH]; [reflexivity|].
  cbn [length words_of_bytes flat_map map]. rewrite <- app_assoc.
  change (firstn w (le_split w x ++ flat_map (le_split w) v ++ rest))
    with (sub (le_split w x ++ flat_map (le_split w) v ++ rest) 0 w).
  rewrite sub_here by (rewrite ?length_le_split; lia).
  rewrite le_combine_split.
  rewrite skipn_app, length_le_split, Nat.sub_diag.
  rewrite skipn_all2 by (rewrite length_le_split; lia).
  cbn [skipn app]. rewrite IH. reflexivity.
Qed.

Lemma fdsReadColumn_v2_written (pre post buf : bytes) (n w : Z)
    (annotation : string) :
  Z.of_nat (length buf) = n * w ->
  fdsReadColumn_v2 (at_pos pre (buf ++ enc_annotation annotation) post)
    (Z.of_nat (length pre)) 0 n n w 0
  = (buf, annotation).
Proof.
  intros Hlen. unfold fdsReadColumn_v2, at_pos. rewrite Nat2Z.id.
  rewrite skipn_app, Nat.sub_diag, skipn_all2 by lia. cbn [skipn app].
  rewrite <- app_assoc. rewrite sub_here by lia.
  replace (Z.to_nat (n * w)) with (length buf) by lia.
  rewrite skipn_app, Nat.sub_diag, skipn_all2 by lia. cbn [skipn app].
  rewrite dec_annotation_enc. reflexivity.
Qed.

Lemma read_vec_written (w : nat) (pre post : bytes) (data : list Z)
    (annotation : string) :
  read_vec w (at_pos pre (write_vec w data annotation) post)
    (Z.of_nat (length pre)) 0 (Z.of_nat (length data))
    (Z.of_nat (length data))
  = (map (fun x => x mod 2 ^ (Z.of_nat w * 8)) data, annotation).
Proof.
  unfold read_vec, write_vec.
  rewrite fdsReadColumn_v2_written
    by (rewrite length_flat_map_le_split; lia).
  rewrite Nat2Z.id.
  rewrite <- (app_nil_r (flat_map (le_split w) data)).
  rewrite words_of_bytes_flat_map. reflexivity.
Qed.

Lemma map_to_i32 (data : list Z) :
  Forall is_int32 data ->
  map to_i32 (map (fun x => x mod 2 ^ (Z.of_nat 4 * 8)) data) = data.
Proof.
  induction 1 as [|x v Hx Hv IH]; [reflexivity|].
  cbn [map]. rewrite IH. f_equal. apply to_i32_to_u32. exact Hx.
Qed.

Lemma map_to_i64 (data : list Z) :
  Forall is_int64 data ->
  map to_i64 (map (fun x => x mod 2 ^ (Z.of_nat 8 * 8)) data) = data.
Proof.
  induction 1 as [|x v Hx Hv IH]; [reflexivity|].
  cbn [map]. rewrite IH. f_equal. apply to_i64_to_u64. exact Hx.
Qed.

Lemma fdsReadCharVec_v6_written (pre post : bytes) (strs : list string)
    (compress : Z) (encoding : StringEncoding) :
  fdsReadCharVec_v6
    (at_pos pre (fdsWriteCharVec_v6 strs compress encoding) post)
    (Z.of_nat (length pre)) 0 (Z.of_nat (length strs))
    (Z.of_nat (length strs))
  = (strs, encoding,
     Z.of_nat (length pre
               + length (fdsWriteCharVec_v6 strs compress encoding))).
Proof.
  unfold fdsReadCharVec_v6, fdsWriteCharVec_v6, at_pos. rewrite Nat2Z.id.
  rewrite skipn_app, Nat.sub_diag, skipn_all2 by lia. cbn [skipn app].
  rewrite dec_strs_enc_strs. rewrite Nat2Z.id.
  change (Z.to_nat 0) with 0%nat. cbn [skipn].
  rewrite firstn_all2 by (rewrite length_map; lia).
  rewrite map_string_of_list_byte, dec_encoding_enc.
  do 2 f_equal. rewrite !length_app. cbn [length]. rewrite length_app. lia.
Qed.

Lemma fdsReadIntVec_v8_written (pre post : bytes) (data : list Z)
    (compress : Z) (annotation : string) :
  Forall is_int32 data ->
  fdsReadIntVec_v8
    (at_pos pre
       (fdsWriteIntVec_v8 data (Z.of_nat (length data)) compress annotation)
       post)
    (Z.of_nat (length pre)) 0 (Z.of_nat (length data))
    (Z.of_nat (length data))
  = (data, annotation).
Proof.
  intros Hd. unfold fdsReadIntVec_v8, fdsWriteIntVec_v8.
  rewrite read_vec_written, map_to_i32 by exact Hd. reflexivity.
Qed.

End RefFacts.

Lemma ref_env_contract : CodecContract ref_env.
Proof.
  split; cbn [fdsWriteCharVec_v6 fdsReadCharVec_v6 fdsWriteFactorVec_v7
              fdsReadFactorVec_v7 fdsWriteIntVec_v8 fdsReadIntVec_v8
              fdsStreamUncompressed_v2 fdsStreamcompressed_v2
              fdsReadColumn_v2 fdsWriteLogicalVec_v10 fdsReadLogicalVec_v10
              fdsWriteInt64Vec_v11 fdsReadInt64Vec_v11 fdsWriteByteVec_v12
              fdsReadByteVec_v12 BLOCKSIZE_REAL BATCH_SIZE_READ_DOUBLE
              ref_env].
  - intros. apply RefFacts.fdsReadCharVec_v6_written.
  - intros pre post levels levelNames compress encoding annotation Hc Hl.
    cbv zeta. unfold Ref.fdsReadFactorVec_v7, Ref.fdsWriteFactorVec_v7.
    unfold at_pos. rewrite <- app_assoc.
    pose proof (RefFacts.fdsReadIntVec_v8_written pre
                  (Ref.fdsWriteCharVec_v6 levelNames compress encoding
                     ++ post) levels compress annotation) as Hint.
    unfold at_pos in Hint. rewrite Hint.
    2:{ eapply Forall_impl; [|exact Hl]. intros x [Hx Hx']. cbn beta.
        unfold is_int32. lia. }
    cbn [fst].
    unfold Ref.fdsWriteIntVec_v8, Ref.write_vec. rewrite <- app_assoc.
    replace (Z.to_nat (Z.of_nat (length pre) + 4 * Z.of_nat (length levels)))
      with (length pre + length (flat_map (le_split 4) levels))%nat
      by (rewrite length_flat_map_le_split; lia).
    rewrite skipn_app.
    rewrite skipn_all2 by lia.
    replace (length pre + length (flat_map (le_split 4) levels) - length pre)%nat
      with (length (flat_map (le_split 4) levels)) by lia.
    rewrite skipn_app, Nat.sub_diag, skipn_all2 by lia. cbn [skipn app].
    unfold Ref.enc_annotation. rewrite RefFacts.dec_str_enc_str. cbn [snd].
    unfold Ref.fdsWriteCharVec_v6. cbn [app].
    rewrite RefFacts.dec_strs_enc_strs. cbn [fst].
    rewrite RefFacts.map_string_of_list_byte, RefFacts.dec_encoding_enc.
    reflexivity.
  - intros. apply RefFacts.fdsReadIntVec_v8_written. assumption.
  - intros pre post buf n annotation Hlen. cbv zeta.
    unfold Ref.fdsStreamUncompressed_v2.
    pose proof (RefFacts.fdsReadColumn_v2_written pre post buf n 8 annotation
                  ltac:(lia)) as H.
    unfold Ref.fdsReadColumn_v2 in *. exact H.
  - intros pre post buf n streamCompressor annotation Hlen. cbv zeta.
    unfold Ref.fdsStreamcompressed_v2.
    pose proof (RefFacts.fdsReadColumn_v2_written pre post buf n 8 annotation
                  ltac:(lia)) as H.
    unfold Ref.fdsReadColumn_v2 in *. exact H.
  - intros pre post data compress annotation Hc Hd. cbv zeta.
    unfold Ref.fdsReadLogicalVec_v10, Ref.fdsWriteLogicalVec_v10.
    rewrite RefFacts.read_vec_written. cbn [fst].
    apply RefFacts.map_to_i32.
    eapply Forall_impl; [|exact Hd]. intros x Hx. cbn beta.
    unfold is_logical in Hx. unfold is_int32. lia.
  - intros pre post data compress annotation Hc Hd. cbv zeta.
    unfold Ref.fdsReadInt64Vec_v11, Ref.fdsWriteInt64Vec_v11.
    rewrite RefFacts.read_vec_written. cbn [fst].
    apply RefFacts.map_to_i64. exact Hd.
  - intros pre post data compress annotation Hc. cbv zeta.
    unfold Ref.fdsReadByteVec_v12, Ref.fdsWriteByteVec_v12.
    rewrite RefFacts.fdsReadColumn_v2_written by lia. reflexivity.
Qed.

(** ** The round trip on the sample tables *)

Lemma sample_table_ok : table_ok sample_table.
Proof.
  split.
  - cbn. lia.
  - cbn. lia.
  - split; [cbn; lia|]. repeat constructor; cbn; lia.
  - repeat (apply Forall_cons || apply Forall_nil);
      unfold column_ok; cbn [colScale colData sample_table NrOfRows];
      repeat split;
      repeat (apply Forall_cons || apply Forall_nil);
      unfold is_int32, is_u64, is_int64, is_logical, is_level; cbn; lia.
Qed.

Lemma annotated_int64_table_ok : table_ok annotated_int64_table.
Proof.
  split.
  - cbn. lia.
  - cbn. lia.
  - split; [cbn; lia|]. constructor.
  - repeat (apply Forall_cons || apply Forall_nil);
      unfold column_ok;
      cbn [colScale colData annotated_int64_table NrOfRows];
      repeat split;
      repeat (apply Forall_cons || apply Forall_nil);
      unfold is_int64; cbn; lia.
Qed.

Lemma annotated_int64_file_fits :
  file_fits (E := ref_env) annotated_int64_table 0.
Proof. unfold file_fits. vm_compute. reflexivity. Qed.

Lemma fdsReadRealVec_v9_round_trip_witness :
  fdsReadRealVec_v9 (E := ref_env)
    (at_pos [x00%byte]
       (fdsWriteRealVec_v9 (E := ref_env)
          [9221120237041090561; 18446744073709551615] 2 75 "UTC")
       [xff%byte])
    1 0 2 2
  = ([9221120237041090561; 18446744073709551615], "UTC"%string).
Proof.
  apply (fdsReadRealVec_v9_round_trip (E := ref_env) ref_env_contract
           [x00%byte] [xff%byte]
           [9221120237041090561; 18446744073709551615] 75 "UTC").
  repeat constructor; unfold is_u64; lia.
Defined.

Lemma fstRead_fstWrite_round_trip_witness :
  exists fs',
    fstWrite (E := ref_env) no_file sample_table 50 = (inr tt, fs')
    /\ fstRead (E := ref_env) fs' None 1 (-1) []
       = inr (table_read_back sample_table).
Proof.
  apply (fstRead_fstWrite_round_trip (E := ref_env) ref_env_contract no_file
           sample_table 50 sample_table_ok).
  - lia.
  - exact sample_file_fits.
  - reflexivity.
Defined.

Lemma fstRead_fstWrite_annotations_witness :
  exists fs' out,
    fstWrite (E := ref_env) no_file annotated_int64_table 0 = (inr tt, fs')
    /\ fstRead (E := ref_env) fs' None 1 (-1) [] = inr out
    /\ map annotation_seen (rColumns (outTable out)) = [EmptyString]
    /\ ~ round_trip_equal annotated_int64_table out.
Proof.
  destruct (fstRead_fstWrite_annotations (E := ref_env) ref_env_contract
              no_file annotated_int64_table 0 annotated_int64_table_ok)
    as (fs' & out & Hw & Hr & _ & _ & _ & Hann & Heq).
  - lia.
  - exact annotated_int64_file_fits.
  - reflexivity.
  - exists fs', out. split; [exact Hw|]. split; [exact Hr|].
    split; [exact Hann|].
    intros H. apply Heq in H. inversion H as [|col cols Hcol Hcols].
    cbn in Hcol. discriminate Hcol.
Defined.

(** ** The slots of the chunk index that the writer never assigns *)

Section UnusedSlots.
Context {E : Env}.

(** X4. Where a fresh buffer comes filled with the byte [b], the slots 1 to
    3 of [chunkPos] and of [chunkRows] of the written file hold eight bytes
    [b] each: they are zero only when the allocator hands out zeroed
    memory. *)
Theorem fstWrite_chunk_slots_of_fill (fs : FileSystem) (t : IFstTable)
    (compress : Z) (b : byte) :
  writable t -> canWrite fs = true -> file_fits t compress ->
  (forall n, uninit n = repeat b n) ->
  exists content,
    fstWrite fs t compress
    = (inr tt, {| fileData := Some content; canWrite := canWrite fs |})
    /\ sub content (chunk_index_start t + 40) 24 = repeat b 24
    /\ sub content (chunk_index_start t + 72) 24 = repeat b 24.
Proof.
  intros Hw Hcan Hfits Hfill. exists (written_file t compress). split.
  - apply fstWrite_layout;
      [assumption | assumption | apply (file_fits_start _ _ Hfits)].
  - destruct (written_chunk_fields t compress (proj1 (writable_cols t Hw))
                Hfits) as (_ & _ & Hpu & _ & Hru & _).
    destruct (unused_slots_of_fill t b (proj1 (writable_cols t Hw)) Hfill)
      as [H1 H2].
    unfold CHUNK_INDEX_SIZE, DATA_INDEX_SIZE in H1, H2.
    replace (96 + 24 + 8 * NrOfColumns t) with (120 + 8 * NrOfColumns t)
      in H1, H2 by lia.
    rewrite Hpu, Hru. split; assumption.
Qed.

End UnusedSlots.

Lemma fstWrite_chunk_slots_of_fill_witness :
  exists content,
    fstWrite (E := ref_env) no_file sample_table 50
    = (inr tt, {| fileData := Some content; canWrite := true |})
    /\ sub content (chunk_index_start sample_table + 40) 24
       = repeat xff%byte 24
    /\ sub content (chunk_index_start sample_table + 72) 24
       = repeat xff%byte 24.
Proof.
  apply (fstWrite_chunk_slots_of_fill (E := ref_env) no_file sample_table 50
           xff%byte sample_table_writable eq_refl sample_file_fits).
  intros n. reflexivity.
Defined.

(** ** [fstMeta] on a written file *)

Lemma array_u16_flat_map (pre rest : bytes) (v : list Z) (off n : Z) :
  off = Z.of_nat (length pre) -> n = Z.of_nat (length v) ->
  array_u16 (pre ++ flat_map (le_split 2) v ++ rest) off n
  = map (fun x => x mod 2 ^ 16) v.
Proof.
  intros -> ->. unfold array_u16. rewrite Nat2Z.id.
  apply (nth_ext _ _ 0 (0 mod 2 ^ 16)).
  - rewrite !length_map, length_seq. reflexivity.
  - intros i Hi. rewrite length_map, length_seq in Hi.
    rewrite (nth_indep _ 0
               (load_u16 (pre ++ flat_map (le_split 2) v ++ rest)
                  (Z.of_nat (length pre) + 2 * Z.of_nat 0)))
      by (rewrite length_map, length_seq; exact Hi).
    rewrite (map_nth (fun i => load_u16 _ (_ + 2 * Z.of_nat i))).
    rewrite seq_nth by exact Hi. cbn [Nat.add].
    rewrite (map_nth (fun x => x mod 2 ^ 16)).
    unfold load_u16. rewrite (load_le_array 2 v pre rest _ i Hi) by lia.
    reflexivity.
Qed.

Lemma map_mod_small (v : list Z) :
  Forall (fun x => 0 <= x < 2 ^ 16) v ->
  map (fun x => x mod 2 ^ 16) v = v.
Proof.
  induction 1 as [|x v Hx Hv IH]; [reflexivity|].
  cbn [map]. rewrite IH, Z.mod_small by exact Hx. reflexivity.
Qed.

Section MetaWritten.
Context {E : Env} (HC : CodecContract E).

(** The members [fstMeta] sets, in terms of the state of [fstRead] after
    its headers. *)
Lemma fstMeta_fields (fs : FileSystem) (st : ReadState) :
  fstRead_headers fs = inr st ->
  exists version,
    fstMeta fs
    = inr {| m_version := version;
             m_keyLength := rs_keyLength st;
             m_nrOfCols := rs_nrOfCols st;
             m_keyColPos :=
               if negb (rs_keyLength st =? 0)
               then array_i32 (rs_metaDataBlock st) 8 (rs_keyLength st)
               else [];
             m_nrOfRows :=
               load_u64 (rs_metaDataBlock st) (rs_keyIndexHeaderSize st + 64);
             m_colAttributeTypes :=
               array_u16 (rs_metaDataBlock st)
                 (rs_keyIndexHeaderSize st + 76) (rs_nrOfCols st);
             m_colTypes :=
               array_u16 (rs_metaDataBlock st)
                 (rs_keyIndexHeaderSize st + 76 + 2 * rs_nrOfCols st)
                 (rs_nrOfCols st);
             m_colBaseTypes :=
               array_u16 (rs_metaDataBlock st)
                 (rs_keyIndexHeaderSize st + 76 + 4 * rs_nrOfCols st)
                 (rs_nrOfCols st);
             m_colScales :=
               array_u16 (rs_metaDataBlock st)
                 (rs_keyIndexHeaderSize st + 76 + 6 * rs_nrOfCols st)
                 (rs_nrOfCols st);
             m_blockReader := rs_blockReader st |}
    /\ (fileData fs <> None)
    /\ forall content, fileData fs = Some content ->
                       version = load_u32 content 24.
Proof.
  unfold fstMeta, fstRead_headers, open_in.
  destruct (fileData fs) as [content|]; cbn [i_fail]; [|discriminate].
  destruct (Nat.le_gt_cases 44 (length content)) as [Hlen|Hshort].
  2:{ unfold ReadHeader.
      pose proof (i_read_short content (new_char TABLE_META_SIZE)
                    (Z.to_nat TABLE_META_SIZE)) as Hf.
      destruct (i_read _ _ _) as [tableMeta myfile]. cbn [snd] in Hf.
      rewrite Hf by (unfold TABLE_META_SIZE; lia). cbn [bind]. discriminate. }
  rewrite ReadHeader_spec by exact Hlen.
  destruct (negb (_ =? _)); cbn [bind]; [discriminate|].
  destruct (_ >? _); cbn [bind]; [discriminate|].
  cbv zeta.
  destruct (i_read _ _ _) as [metaDataBlock myfile'].
  destruct (negb (_ =? 0) && _); [discriminate|].
  destruct (negb (load_u64 metaDataBlock _ =? _)); [discriminate|].
  destruct (negb (load_u64 metaDataBlock _ =? _)); [discriminate|].
  destruct (fdsReadCharVec_v6 _ _ _ _ _) as [[blockReader encoding] pos].
  destruct (i_read _ _ _) as [chunkIndex myfile''].
  destruct (negb (load_u64 chunkIndex _ =? _)); [discriminate|].
  destruct (negb (load_u64 chunkIndex _ =? _)); [discriminate|].
  intros H. inversion H; subst st. clear H.
  cbn [rs_keyLength rs_nrOfCols rs_metaDataBlock rs_keyIndexHeaderSize
       rs_blockReader].
  eexists. split; [reflexivity|]. split; [discriminate|].
  intros content' Hc. inversion Hc. reflexivity.
Qed.

Lemma fstMeta_written (fs : FileSystem) (t : IFstTable) (compress : Z) :
  table_ok t -> file_fits t compress ->
  fileData fs = Some (written_file t compress) ->
  fstMeta fs = inr (table_meta t).
Proof.
  intros Hok Hfits Hfile.
  pose proof (fstRead_headers_written HC fs t compress Hok Hfits Hfile) as Hh.
  destruct (fstMeta_fields fs _ Hh) as (version & Hm & _ & Hv).
  rewrite Hm. clear Hm Hh.
  destruct Hok as [Hrows Hcols [Hkeys Hkeycols] Hcolumns].
  assert (Hk : NrOfKeys t < 2 ^ 27) by lia.
  pose proof (key_index_size_range t Hk) as Hks.
  pose proof (length_key_index_record t) as HlenKI.
  cbn [written_state rs_keyLength rs_nrOfCols rs_metaDataBlock
       rs_keyIndexHeaderSize rs_blockReader].
  unfold table_meta.
  set (n := NrOfColumns t) in *. set (ks := key_index_size t) in *.
  assert (Hnlen : Z.of_nat (length (Columns t)) = n) by reflexivity.
  set (A := colAttributeTypes_of (Columns t)).
  set (T := colTypes_of (Columns t)).
  set (B := colBaseTypes_of (Columns t)).
  set (S := colScales_of (Columns t)).
  assert (HlenA : length A = length (Columns t))
    by (subst A; unfold colAttributeTypes_of; apply length_map).
  assert (HlenT : length T = length (Columns t))
    by (subst T; unfold colTypes_of; apply length_map).
  assert (HlenB : length B = length (Columns t))
    by (subst B; unfold colBaseTypes_of; apply length_map).
  assert (HlenS : length S = length (Columns t))
    by (subst S; unfold colScales_of; apply length_map).
  set (KI := key_index_record t) in *.
  set (hCS := le_split 8 (header_hash (chunkset_header_body t))).
  assert (HlenH : length hCS = 8%nat) by reflexivity.
  set (CN := with_hash colnames_header_body).
  set (F1 := le_split 4 FST_VERSION ++ le_split 4 0 ++ le_split 8 0
               ++ le_split 8 0 ++ le_split 8 0 ++ le_split 8 0
               ++ le_split 8 0 ++ le_split 8 0).
  assert (HlenF1 : length F1 = 56%nat) by reflexivity.
  assert (Hmdb :
            KI ++ with_hash (chunkset_header_body t) ++ CN
            = KI ++ hCS ++ F1 ++ le_split 8 (to_u64 (NrOfRows t))
                ++ le_split 4 n ++ u16_array A ++ u16_array T
                ++ u16_array B ++ u16_array S ++ CN).
  { unfold with_hash at 1. fold hCS.
    unfold chunkset_header_body, chunkset_fixed_fields.
    fold A T B S n. subst F1. rewrite <- !app_assoc. reflexivity. }
  assert (Hkeysarr :
            (if negb (NrOfKeys t =? 0)
             then array_i32 (KI ++ with_hash (chunkset_header_body t) ++ CN)
                    8 (NrOfKeys t)
             else [])
            = KeyColumns t).
  { subst KI. unfold key_index_record.
    destruct (NrOfKeys t =? 0) eqn:Hk0; cbn [negb].
    - apply Z.eqb_eq in Hk0. unfold NrOfKeys in Hk0.
      destruct (KeyColumns t); [reflexivity | cbn [length] in Hk0; lia].
    - unfold with_hash at 1. rewrite <- app_assoc.
      apply (array_i32_flat_map
               (le_split 8 (header_hash (flat_map (le_split 4) (KeyColumns t))))
               _ (KeyColumns t)).
      eapply Forall_impl; [|exact Hkeycols].
      intros k Hk'. unfold is_int32. cbn beta in Hk'. lia. }
  rewrite Hkeysarr. rewrite Hmdb.
  f_equal. f_equal.
  - rewrite (Hv _ Hfile).
    destruct (table_header_fields t
                (key_index_record t ++ with_hash (chunkset_header_body t)
                   ++ with_hash colnames_header_body ++ names_payload t
                   ++ with_hash
                        (chunk_index_body t
                           (Z.of_nat (chunk_index_start t) + 96))
                   ++ with_hash (data_chunk_body (positionData_of t compress))
                   ++ concat (payloads t compress)) Hk (proj2 Hcols))
      as (_ & _ & Hver & _).
    rewrite <- Hver. f_equal.
    unfold written_file, metadata. rewrite <- !app_assoc. reflexivity.
  - unfold load_u64.
    replace (KI ++ hCS ++ F1 ++ le_split 8 (to_u64 (NrOfRows t))
               ++ le_split 4 n ++ u16_array A ++ u16_array T ++ u16_array B
               ++ u16_array S ++ CN)
      with ((KI ++ hCS ++ F1) ++ le_split 8 (to_u64 (NrOfRows t))
              ++ (le_split 4 n ++ u16_array A ++ u16_array T ++ u16_array B
                    ++ u16_array S ++ CN))
      by (rewrite <- !app_assoc; reflexivity).
    rewrite load_le_split by (rewrite !length_app; lia).
    change (Z.of_nat 8 * 8) with 64. rewrite to_u64_small by lia.
    apply Z.mod_small. lia.
  - replace (KI ++ hCS ++ F1 ++ le_split 8 (to_u64 (NrOfRows t))
               ++ le_split 4 n ++ u16_array A ++ u16_array T ++ u16_array B
               ++ u16_array S ++ CN)
      with ((KI ++ hCS ++ F1 ++ le_split 8 (to_u64 (NrOfRows t))
               ++ le_split 4 n)
              ++ flat_map (le_split 2) A
              ++ (u16_array T ++ u16_array B ++ u16_array S ++ CN))
      by (unfold u16_array; rewrite <- !app_assoc; reflexivity).
    rewrite array_u16_flat_map
      by (rewrite ?length_app, ?length_le_split; lia).
    apply map_mod_small. subst A. unfold colAttributeTypes_of.
    apply Forall_forall. intros x Hx. apply in_map_iff in Hx.
    destruct Hx as (col & <- & _). apply FstColumnAttribute_value_range.
  - replace (KI ++ hCS ++ F1 ++ le_split 8 (to_u64 (NrOfRows t))
               ++ le_split 4 n ++ u16_array A ++ u16_array T ++ u16_array B
               ++ u16_array S ++ CN)
      with ((KI ++ hCS ++ F1 ++ le_split 8 (to_u64 (NrOfRows t))
               ++ le_split 4 n ++ u16_array A)
              ++ flat_map (le_split 2) T
              ++ (u16_array B ++ u16_array S ++ CN))
      by (unfold u16_array; rewrite <- !app_assoc; reflexivity).
    rewrite array_u16_flat_map
      by (rewrite ?length_app, ?length_le_split, ?length_u16_array; lia).
    apply map_mod_small. subst T. unfold colTypes_of.
    apply Forall_forall. intros x Hx. apply in_map_iff in Hx.
    destruct Hx as (col & <- & _). destruct (colData col); cbn; lia.
  - replace (KI ++ hCS ++ F1 ++ le_split 8 (to_u64 (NrOfRows t))
               ++ le_split 4 n ++ u16_array A ++ u16_array T ++ u16_array B
               ++ u16_array S ++ CN)
      with ((KI ++ hCS ++ F1 ++ le_split 8 (to_u64 (NrOfRows t))
               ++ le_split 4 n ++ u16_array A ++ u16_array T)
              ++ flat_map (le_split 2) B
              ++ (u16_array S ++ CN))
      by (unfold u16_array; rewrite <- !app_assoc; reflexivity).
    rewrite array_u16_flat_map
      by (rewrite ?length_app, ?length_le_split, ?length_u16_array; lia).
    apply map_mod_small. subst B. unfold colBaseTypes_of.
    apply Forall_forall. intros x Hx. apply in_map_iff in Hx.
    destruct Hx as (col & <- & _). destruct (colData col); cbn; lia.
  - replace (KI ++ hCS ++ F1 ++ le_split 8 (to_u64 (NrOfRows t))
               ++ le_split 4 n ++ u16_array A ++ u16_array T ++ u16_array B
               ++ u16_array S ++ CN)
      with ((KI ++ hCS ++ F1 ++ le_split 8 (to_u64 (NrOfRows t))
               ++ le_split 4 n ++ u16_array A ++ u16_array T ++ u16_array B)
              ++ flat_map (le_split 2) S ++ CN)
      by (unfold u16_array; rewrite <- !app_assoc; reflexivity).
    rewrite array_u16_flat_map
      by (rewrite ?length_app, ?length_le_split, ?length_u16_array; lia).
    reflexivity.
Qed.

(** X15. [fstMeta] on a written file reports the table: the version of the
    writer, the number of key columns and of columns, the key columns, the
    number of rows, for each column its attribute, the type code 6 to 12 of
    its codec, its column type and its scale (as an unsigned short), and
    the column names. *)
Theorem fstMeta_fstWrite (fs : FileSystem) (t : IFstTable) (compress : Z) :
  table_ok t -> file_fits t compress -> canWrite fs = true ->
  exists fs',
    fstWrite fs t compress = (inr tt, fs')
    /\ fstMeta fs' = inr (table_meta t).
Proof.
  intros Hok Hfits Hw.
  exists {| fileData := Some (written_file t compress);
            canWrite := canWrite fs |}.
  split.
  - apply fstWrite_layout;
      [apply table_ok_writable; exact Hok | exact Hw
       | apply (file_fits_start t compress); exact Hfits].
  - apply (fstMeta_written _ t compress Hok Hfits). reflexivity.
Qed.

End MetaWritten.

Lemma fstMeta_fstWrite_witness :
  exists fs',
    fstWrite (E := ref_env) no_file sample_table 50 = (inr tt, fs')
    /\ fstMeta (E := ref_env) fs' = inr (table_meta sample_table).
Proof.
  apply (fstMeta_fstWrite (E := ref_env) ref_env_contract no_file
           sample_table 50 sample_table_ok sample_file_fits).
  reflexivity.
Defined.

(** ** Reading a selection of columns of a written file *)

Lemma first_match_unique (blockReader : list string) (name : string)
    (from a b : Z) :
  first_match blockReader name from a ->
  first_match blockReader name from b -> a = b.
Proof.
  intros (Ha & Hga & Hna) (Hb & Hgb & Hnb).
  destruct (Z.lt_trichotomy a b) as [Hlt|[Heq|Hgt]]; [|exact Heq|].
  - exfalso. apply (Hnb a); [lia | exact Hga].
  - exfalso. apply (Hna b); [lia | exact Hgb].
Qed.

Lemma select_columns_first_matches (blockReader : list string) (nrOfCols : Z)
    (requested : list string) (colIndex : list Z) :
  Forall2 (fun name colNr =>
             colNr < nrOfCols /\ first_match blockReader name 0 colNr)
    requested colIndex ->
  select_columns requested nrOfCols blockReader = inr colIndex.
Proof.
  intros Hall.
  pose proof (select_columns_spec blockReader nrOfCols requested) as Hs.
  destruct (select_columns requested nrOfCols blockReader) as [e|colIndex'].
  - exfalso. destruct Hs as (_ & name & Hin & Hno).
    destruct (Forall2_In_l _ _ _ _ Hall Hin)
      as (colNr & _ & Hlt & Hge & Hget & _).
    apply (Hno colNr); [lia | exact Hget].
  - f_equal. clear -Hall Hs. revert colIndex' Hs.
    induction Hall as [|name colNr names colIndex [_ Hm] _ IH];
      intros colIndex' Hs; inversion Hs as [|? colNr' ? rest' [_ Hm'] Hrest];
      subst; [reflexivity|].
    f_equal; [eapply first_match_unique; eassumption | apply IH; exact Hrest].
Qed.

Section ReadBackSelection.
Context {E : Env} (HC : CodecContract E).

Lemma read_columns_selected (t : IFstTable) (compress : Z)
    (colIndex : list Z) (selected : list Column) :
  table_ok t -> 0 <= compress <= 100 -> file_fits t compress ->
  Forall (fun colNr => 0 <= colNr) colIndex ->
  Forall2 (fun colNr col => nth_error (Columns t) (Z.to_nat colNr) = Some col)
    colIndex selected ->
  read_columns (written_state t compress) 0 (NrOfRows t) (NrOfRows t) colIndex
  = inr (map column_read_back selected).
Proof.
  intros Hok Hc Hfits Hpos Hsel. revert Hpos.
  induction Hsel as [|colNr col colIndex selected Hnth _ IH]; intros Hpos;
    [reflexivity|].
  inversion Hpos as [|? ? H0 Hrest]; subst.
  cbn [read_columns map].
  pose proof (read_column_written HC t compress (Z.to_nat colNr) col Hok Hc
                Hfits Hnth) as Hcol.
  rewrite Z2Nat.id in Hcol by exact H0.
  rewrite Hcol. cbn [bind]. rewrite (IH Hrest). reflexivity.
Qed.

Lemma written_state_keyColPos (t : IFstTable) (compress : Z) :
  table_ok t ->
  array_i32 (rs_metaDataBlock (written_state t compress)) 8 (NrOfKeys t)
  = KeyColumns t.
Proof.
  intros [Hrows Hcols [Hkeys Hkeycols] Hcolumns].
  cbn [written_state rs_metaDataBlock]. unfold key_index_record.
  destruct (NrOfKeys t =? 0) eqn:Hk0; cbn [negb].
  - apply Z.eqb_eq in Hk0. unfold NrOfKeys in *.
    destruct (KeyColumns t); [|cbn [length] in Hk0; lia].
    rewrite Hk0. reflexivity.
  - unfold with_hash at 1. rewrite <- app_assoc.
    apply (array_i32_flat_map
             (le_split 8 (header_hash (flat_map (le_split 4) (KeyColumns t))))
             _ (KeyColumns t)).
    eapply Forall_impl; [|exact Hkeycols].
    intros k Hk. unfold is_int32. cbn beta in Hk. lia.
Qed.

(** X16. Reading a selection of a written table: when each requested name
    has a first column of that name, a read of these names (rows 1 to the
    end) returns, in the order of the request, these columns with the data,
    attribute, scale and annotation a full read gives for them, the
    requested names as selected names, and as key index the positions in the
    selection of the key columns, up to the first key column that was not
    selected. *)
Theorem fstRead_fstWrite_selection (fs : FileSystem) (t : IFstTable)
    (compress : Z) (requested : list string) (colIndex : list Z)
    (selected : list Column) :
  table_ok t -> 0 <= compress <= 100 -> file_fits t compress ->
  canWrite fs = true ->
  Forall2 (fun name colNr =>
             colNr < NrOfColumns t
             /\ first_match (map colName (Columns t)) name 0 colNr)
    requested colIndex ->
  Forall2 (fun colNr col => nth_error (Columns t) (Z.to_nat colNr) = Some col)
    colIndex selected ->
  exists fs',
    fstWrite fs t compress = (inr tt, fs')
    /\ fstRead fs' (Some requested) 1 (-1) []
       = inr {| outTable :=
                  {| rNrOfSelect := Z.of_nat (length requested);
                     rLength := NrOfRows t;
                     rColumns := map column_read_back selected |};
                outKeyIndex := key_remap (KeyColumns t) colIndex;
                outSelectedCols := requested |}.
Proof.
  intros Hok Hc Hfits Hw Hnames Hsel.
  exists {| fileData := Some (written_file t compress);
            canWrite := canWrite fs |}.
  split.
  - apply fstWrite_layout;
      [apply table_ok_writable; exact Hok | exact Hw
       | apply (file_fits_start t compress); exact Hfits].
  - pose proof (fstRead_headers_written HC
                  {| fileData := Some (written_file t compress);
                     canWrite := canWrite fs |} t compress Hok Hfits eq_refl)
      as Hh.
    pose proof (written_state_rows t compress (rows_ok t Hok)
                  (proj1 (cols_ok t Hok))) as HR.
    unfold fstRead. rewrite Hh. cbn [bind fstRead_selection].
    replace (rs_nrOfCols (written_state t compress)) with (NrOfColumns t)
      by reflexivity.
    replace (rs_blockReader (written_state t compress))
      with (map colName (Columns t)) by reflexivity.
    rewrite (select_columns_first_matches _ _ _ _ Hnames). cbn [bind].
    rewrite fstRead_range_spec by (rewrite ?HR; destruct Hok; lia).
    rewrite HR.
    destruct (1 - 1 <? 0) eqn:H1; [lia|].
    destruct (1 - 1 >=? NrOfRows t) eqn:H2; [destruct Hok; lia|].
    change (-1 =? -1) with true. cbv iota. cbn [bind].
    change (1 - 1) with 0. rewrite Z.sub_0_r.
    assert (Hpos : Forall (fun colNr => 0 <= colNr) colIndex).
    { clear -Hnames. induction Hnames as [|? ? ? ? [_ [H0 _]] _ IH];
        constructor; assumption. }
    rewrite (read_columns_selected t compress colIndex selected Hok Hc Hfits
               Hpos Hsel).
    cbn [bind].
    replace (rs_keyLength (written_state t compress)) with (NrOfKeys t)
      by reflexivity.
    rewrite (written_state_keyColPos t compress Hok).
    rewrite (Forall2_first_match_names _ _ _ _ Hnames).
    rewrite (Forall2_length Hnames).
    unfold NrOfKeys. rewrite SetKeyIndex_key_remap. reflexivity.
Qed.

End ReadBackSelection.

Lemma fstRead_fstWrite_selection_witness :
  exists fs',
    fstWrite (E := ref_env) no_file sample_table 50 = (inr tt, fs')
    /\ fstRead (E := ref_env) fs' (Some ["c"; "a"]%string) 1 (-1) []
       = inr {| outTable :=
                  {| rNrOfSelect := 2;
                     rLength := 3;
                     rColumns :=
                       [ {| rAttribute := 2; rScale := None;
                            rAnnotation := None;
                            rData :=
                              CharacterData ["x"; "yy"; ""]%string UTF8 |};
                         {| rAttribute := 5; rScale := Some 0;
                            rAnnotation := Some "x"%string;
                            rData := Int32Data [1; -2; -2147483648] |} ] |};
                outKeyIndex := [1; 0];
                outSelectedCols := ["c"; "a"]%string |}.
Proof.
  refine (fstRead_fstWrite_selection (E := ref_env) ref_env_contract no_file
            sample_table 50 ["c"; "a"]%string [2; 0]
            [ {| colName := "c"; colAttribute := CHARACTER_BASE;
                 colScale := 0; colAnnotation := "";
                 colData := CharacterData ["x"; "yy"; ""]%string UTF8 |};
              {| colName := "a"; colAttribute := INT_32_BASE; colScale := 0;
                 colAnnotation := "x";
                 colData := Int32Data [1; -2; -2147483648] |} ]
            sample_table_ok _ sample_file_fits eq_refl _ _).
  - lia.
  - repeat (apply Forall2_cons || apply Forall2_nil);
      (split; [cbn; lia|]); unfold first_match; cbn [map colName sample_table Columns].
    + split; [lia|]. split; [reflexivity|].
      intros c Hc. assert (Hcases : c = 0 \/ c = 1) by lia.
      destruct Hcases as [->| ->]; cbn; discriminate.
    + split; [lia|]. split; [reflexivity|]. intros c Hc. lia.
  - repeat (apply Forall2_cons || apply Forall2_nil); reflexivity.
Defined.

(** ** The key index of a read *)

Lemma key_remap_sound (keyColPos colIndex : list Z) :
  let keyIndex := key_remap keyColPos colIndex in
  (length keyIndex <= length keyColPos)%nat
  /\ Forall2 (fun j key =>
                0 <= j < Z.of_nat (length colIndex)
                /\ nth (Z.to_nat j) colIndex 0 = key)
       keyIndex (firstn (length keyIndex) keyColPos).
Proof.
  induction keyColPos as [|key rest IH]; cbn [key_remap].
  - split; [cbn; lia | constructor].
  - destruct (first_index key colIndex 0) as [j|] eqn:Hj.
    + destruct IH as [Hlen Hall]. cbn [length firstn]. split; [lia|].
      constructor; [|exact Hall].
      pose proof (first_index_bounds key colIndex 0 j Hj) as Hb.
      pose proof (first_index_spec key colIndex j Hj) as [Hn _].
      split; [lia | exact Hn].
    + split; [cbn; lia | constructor].
Qed.

Section KeyIndex.
Context {E : Env}.

(** X17. The key index a read returns, filled from an empty vector: it is
    never longer than the list of key columns of the file, and its [i]-th
    entry is a position in the selection at which the [i]-th key column of
    the file was selected, so that the selected name at that position is
    the name of that key column. *)
Theorem fstRead_key_index (fs : FileSystem)
    (columnSelection : option (list string)) (startRow endRow : Z)
    (st : ReadState) (out : ReadOutput) :
  fstRead_headers fs = inr st ->
  0 <= rs_keyLength st -> 0 <= rs_nrOfCols st ->
  fstRead fs columnSelection startRow endRow [] = inr out ->
  let keyColPos := array_i32 (rs_metaDataBlock st) 8 (rs_keyLength st) in
  (length (outKeyIndex out) <= length keyColPos)%nat
  /\ Forall2 (fun j key =>
                0 <= j < rNrOfSelect (outTable out)
                /\ nth (Z.to_nat j) (outSelectedCols out) EmptyString
                   = GetElement (rs_blockReader st) key)
       (outKeyIndex out) (firstn (length (outKeyIndex out)) keyColPos).
Proof.
  intros Hh Hk Hn Hread keyColPos.
  unfold fstRead in Hread. rewrite Hh in Hread. cbn [bind] in Hread.
  destruct (fstRead_selection st columnSelection) as [e|[colIndex nrOfSelect]]
    eqn:Hsel; cbn [bind] in Hread; [discriminate|].
  destruct (fstRead_range st startRow endRow) as [e|[firstRow len]];
    cbn [bind] in Hread; [discriminate|].
  destruct (read_columns _ _ _ _ _); cbn [bind] in Hread; [discriminate|].
  inversion Hread; subst out. clear Hread.
  cbn [outKeyIndex outTable rNrOfSelect outSelectedCols].
  assert (Hlen : nrOfSelect = Z.of_nat (length colIndex)).
  { destruct columnSelection as [names|]; cbn [fstRead_selection] in Hsel.
    - pose proof (select_columns_spec (rs_blockReader st) (rs_nrOfCols st)
                    names) as Hs.
      destruct (select_columns names (rs_nrOfCols st) (rs_blockReader st));
        cbn [bind] in Hsel; inversion Hsel; subst.
      rewrite (Forall2_length Hs). reflexivity.
    - inversion Hsel; subst. rewrite length_map, length_seq. lia. }
  assert (Hkl : rs_keyLength st = Z.of_nat (length keyColPos)).
  { subst keyColPos. unfold array_i32. rewrite length_map, length_seq. lia. }
  fold keyColPos. rewrite Hlen, Hkl, SetKeyIndex_key_remap. cbn [app].
  destruct (key_remap_sound keyColPos colIndex) as [Hle Hall].
  split; [exact Hle|].
  eapply Forall2_impl; [|exact Hall].
  intros j key [Hj Hnth]. split; [exact Hj|].
  rewrite <- Hnth.
  rewrite (nth_indep _ EmptyString (GetElement (rs_blockReader st) 0))
    by (rewrite length_map; lia).
  rewrite (map_nth (GetElement (rs_blockReader st))). reflexivity.
Qed.


End KeyIndex.

Lemma fstRead_key_index_witness :
  (length (outKeyIndex sample_selection)
   <= length (array_i32 (rs_metaDataBlock sample_state) 8
                (rs_keyLength sample_state)))%nat.
Proof.
  refine (proj1 (fstRead_key_index (E := ref_env) sample_file
                   (Some ["c"; "a"]%string) 1 (-1) sample_state
                   sample_selection sample_state_headers _ _ _)).
  - vm_compute. discriminate.
  - vm_compute. discriminate.
  - vm_compute. reflexivity.
Defined.


(** ** The column selection of a read *)

(** C9.  With a null [columnSelection] all [nrOfCols] columns are selected in
    on-disk order.  Otherwise every requested name is resolved to the first
    on-disk column whose name is equal to it, and the read fails with
    [ColumnNotFound] when a requested name is the name of no column, and
    only then.  A read goes on with the chosen columns: it checks the row
    range, reads these columns in selection order, and returns them with
    the names of the chosen columns in selection order in [selectedCols]. *)
Theorem fstRead_column_selection {E : Env} (fs : FileSystem)
    (startRow endRow : Z) (keyIndex : list Z) (st : ReadState) :
  fstRead_headers fs = inr st ->
  let nrOfCols := rs_nrOfCols st in
  let blockReader := rs_blockReader st in
  let nrOfRows := load_u64 (rs_chunkIndex st) 64 in
  let keyColPos := array_i32 (rs_metaDataBlock st) 8 (rs_keyLength st) in
  let all_columns := map Z.of_nat (seq 0 (Z.to_nat nrOfCols)) in
  fstRead_selection st None = inr (all_columns, nrOfCols)
  /\ (forall requested,
        match fstRead_selection st (Some requested) with
        | inr (colIndex, nrOfSelect) =>
            nrOfSelect = Z.of_nat (length requested)
            /\ Forall2 (fun name colNr =>
                          colNr < nrOfCols
                          /\ first_match blockReader name 0 colNr)
                 requested colIndex
        | inl _ =>
            fstRead fs (Some requested) startRow endRow keyIndex
            = inl ColumnNotFound
            /\ exists name,
                 In name requested
                 /\ forall colNr, 0 <= colNr < nrOfCols ->
                                  GetElement blockReader colNr <> name
        end)
  /\ (forall requested name,
        In name requested ->
        (forall colNr, 0 <= colNr < nrOfCols ->
                       GetElement blockReader colNr <> name) ->
        fstRead fs (Some requested) startRow endRow keyIndex
        = inl ColumnNotFound)
  /\ (forall columnSelection out,
        fstRead fs columnSelection startRow endRow keyIndex = inr out ->
        exists colIndex nrOfSelect,
          fstRead_selection st columnSelection = inr (colIndex, nrOfSelect)
          /\ outSelectedCols out = map (GetElement blockReader) colIndex
          /\ forall requested,
               columnSelection = Some requested ->
               outSelectedCols out = requested)
  /\ fstRead fs None startRow endRow keyIndex
     = match fstRead_range st startRow endRow with
       | inl e => inl e
       | inr (firstRow, length) =>
           match read_columns st firstRow length nrOfRows all_columns with
           | inl e => inl e
           | inr cols =>
               inr {| outTable := {| rNrOfSelect := nrOfCols;
                                     rLength := length;
                                     rColumns := cols |};
                      outKeyIndex :=
                        SetKeyIndex keyIndex (rs_keyLength st) nrOfCols
                          keyColPos all_columns;
                      outSelectedCols :=
                        map (GetElement blockReader) all_columns |}
           end
       end
  /\ (forall requested colIndex,
        Forall2 (fun name colNr =>
                   colNr < nrOfCols /\ first_match blockReader name 0 colNr)
          requested colIndex ->
        fstRead fs (Some requested) startRow endRow keyIndex
        = match fstRead_range st startRow endRow with
          | inl e => inl e
          | inr (firstRow, length) =>
              match read_columns st firstRow length nrOfRows colIndex with
              | inl e => inl e
              | inr cols =>
                  inr {| outTable :=
                           {| rNrOfSelect := Z.of_nat (List.length requested);
                              rLength := length;
                              rColumns := cols |};
                         outKeyIndex :=
                           SetKeyIndex keyIndex (rs_keyLength st)
                             (Z.of_nat (List.length requested)) keyColPos
                             colIndex;
                         outSelectedCols := requested |}
              end
          end)
  /\ (forall columnSelection,
        fstRead fs columnSelection startRow endRow keyIndex
        = inl ColumnNotFound
        <-> exists requested name,
              columnSelection = Some requested
              /\ In name requested
              /\ forall colNr, 0 <= colNr < nrOfCols ->
                               GetElement blockReader colNr <> name).
Proof.
  intros Hh nrOfCols blockReader nrOfRows keyColPos all_columns.
  assert (Hsome : forall requested,
             match fstRead_selection st (Some requested) with
             | inr (colIndex, nrOfSelect) =>
                 nrOfSelect = Z.of_nat (length requested)
                 /\ Forall2 (fun name colNr =>
                               colNr < nrOfCols
                               /\ first_match blockReader name 0 colNr)
                      requested colIndex
             | inl _ =>
                 fstRead fs (Some requested) startRow endRow keyIndex
                 = inl ColumnNotFound
                 /\ exists name,
                      In name requested
                      /\ forall colNr, 0 <= colNr < nrOfCols ->
                                       GetElement blockReader colNr <> name
             end).
  { intros requested. unfold fstRead. rewrite Hh. cbn [bind].
    unfold fstRead_selection.
    pose proof (select_columns_spec blockReader nrOfCols requested) as Hspec.
    fold nrOfCols blockReader.
    destruct (select_columns requested nrOfCols blockReader) as [e|colIndex];
      cbn [bind].
    - destruct Hspec as (-> & Hex). split; [reflexivity | exact Hex].
    - split; [reflexivity | exact Hspec]. }
  assert (Hmiss : forall requested name,
             In name requested ->
             (forall colNr, 0 <= colNr < nrOfCols ->
                            GetElement blockReader colNr <> name) ->
             fstRead fs (Some requested) startRow endRow keyIndex
             = inl ColumnNotFound).
  { intros requested name Hin Hnone. specialize (Hsome requested).
    destruct (fstRead_selection st (Some requested))
      as [e|[colIndex nrOfSelect]]; [apply Hsome|].
    exfalso. destruct Hsome as (_ & Hall).
    destruct (Forall2_In_l _ _ _ name Hall Hin) as (colNr & _ & Hc).
    destruct Hc as (Hlt & Hle & Hget & _).
    apply (Hnone colNr); [lia|exact Hget]. }
  split; [reflexivity|]. split; [exact Hsome|]. split; [exact Hmiss|].
  split; [|split; [|split]].
  - intros columnSelection out Hout.
    destruct (fstRead_selection st columnSelection)
      as [e|[colIndex nrOfSelect]] eqn:Hs.
    { unfold fstRead in Hout. rewrite Hh in Hout. cbn [bind] in Hout.
      rewrite Hs in Hout. discriminate Hout. }
    rewrite (fstRead_steps fs columnSelection startRow endRow keyIndex st
               colIndex nrOfSelect Hh Hs) in Hout.
    destruct (fstRead_range st startRow endRow) as [e|[firstRow len]];
      [discriminate|].
    destruct (read_columns st firstRow len _ colIndex); [discriminate|].
    injection Hout as <-. exists colIndex, nrOfSelect.
    split; [reflexivity|]. split; [reflexivity|].
    intros requested ->. cbn [outSelectedCols].
    specialize (Hsome requested). rewrite Hs in Hsome.
    destruct Hsome as (_ & Hall).
    apply (Forall2_first_match_names blockReader requested nrOfCols).
    exact Hall.
  - apply (fstRead_steps fs None startRow endRow keyIndex st all_columns
             nrOfCols Hh).
    reflexivity.
  - intros requested colIndex Hall.
    assert (Hs : fstRead_selection st (Some requested)
                 = inr (colIndex, Z.of_nat (length requested))).
    { cbn [fstRead_selection]. fold nrOfCols blockReader.
      rewrite (select_columns_first_matches _ _ _ _ Hall). reflexivity. }
    rewrite (fstRead_steps fs (Some requested) startRow endRow keyIndex st
               colIndex _ Hh Hs).
    fold blockReader.
    rewrite (Forall2_first_match_names blockReader requested nrOfCols
               colIndex Hall).
    reflexivity.
  - intros columnSelection. split.
    + intros H. apply fstRead_stages in H.
      destruct H as [H|(st' & Hst' & [H|(colIndex & n & Hsel & [H|H])])].
      * rewrite Hh in H. discriminate H.
      * rewrite Hh in Hst'. inversion Hst'; subst st'.
        destruct columnSelection as [requested|];
          [|cbn [fstRead_selection] in H; discriminate H].
        exists requested.
        specialize (Hsome requested). rewrite H in Hsome.
        destruct Hsome as (_ & name & Hin & Hno).
        exists name. split; [reflexivity|]. split; assumption.
      * apply fstRead_range_errors in H.
        destruct H as [H|[H|[H _]]]; discriminate H.
      * destruct H as (firstRow & len & _ & H).
        apply read_columns_errors in H; [discriminate H|].
        eapply fstRead_selection_in_range; eassumption.
    + intros (requested & name & -> & Hin & Hno).
      apply (Hmiss requested name Hin Hno).
Qed.

Lemma fstRead_column_selection_witness :
  fstRead_selection sample_state None = inr ([0; 1; 2; 3; 4; 5; 6], 7)
  /\ fstRead (E := ref_env) sample_file (Some ["c"; "zz"]%string) 1 (-1) []
     = inl ColumnNotFound
  /\ fstRead (E := ref_env) sample_file (Some ["c"; "a"]%string) 1 (-1) []
     = inr sample_selection
  /\ fstRead (E := ref_env) sample_file None 1 (-1) []
     = inr (table_read_back sample_table).
Proof.
  destruct (fstRead_column_selection (E := ref_env) sample_file 1 (-1) []
              sample_state sample_state_headers)
    as (Hnull & _ & Hmiss & _ & Hall & Hsel & _).
  split; [exact Hnull|]. split; [|split].
  - apply (Hmiss ["c"; "zz"]%string "zz"%string).
    + right. left. reflexivity.
    + intros colNr Hr. change (rs_nrOfCols sample_state) with 7 in Hr.
      assert (Hcases : colNr = 0 \/ colNr = 1 \/ colNr = 2 \/ colNr = 3
                       \/ colNr = 4 \/ colNr = 5 \/ colNr = 6) by lia.
      repeat (destruct Hcases as [->|Hcases]); try subst colNr;
        vm_compute; intros H; discriminate H.
  - rewrite (Hsel ["c"; "a"]%string [2; 0]).
    + vm_compute. reflexivity.
    + repeat (apply Forall2_cons || apply Forall2_nil);
        (split; [vm_compute; reflexivity|]); unfold first_match.
      * split; [lia|]. split; [vm_compute; reflexivity|].
        intros c Hc. assert (Hcases : c = 0 \/ c = 1) by lia.
        destruct Hcases as [->| ->]; vm_compute; discriminate.
      * split; [lia|]. split; [vm_compute; reflexivity|]. intros c Hc. lia.
  - rewrite Hall. vm_compute. reflexivity.
Defined.

(** ** The chunk index of a written file *)

Section ChunkIndexClaims.
Context {E : Env}.

(** C8.  In every written file the chunk position field holds
    [positionData[0] - 8 * nrOfCols - DATA_INDEX_SIZE]; the block that the
    writer calls [chunkIndex] (the chunk index record, then the data chunk
    header with the position array) lies at offset
    [chunkPos - CHUNK_INDEX_SIZE], so that a seek to that offset reaches the
    chunk index record, whose [chunkPos] field reads [chunkPos]; the block
    ends at [positionData[0]], where the payload of the first column
    begins. *)
Theorem fstWrite_chunk_index_before_first_payload (fs : FileSystem)
    (t : IFstTable) (compress : Z) :
  writable t -> canWrite fs = true -> file_fits t compress ->
  exists content chunkPos positionData0,
    fstWrite fs t compress
    = (inr tt, {| fileData := Some content; canWrite := canWrite fs |})
    /\ chunkPos = positionData0 - 8 * NrOfColumns t - DATA_INDEX_SIZE
    /\ 0 <= chunkPos - CHUNK_INDEX_SIZE
    /\ sub content (Z.to_nat (chunkPos - CHUNK_INDEX_SIZE))
         (Z.to_nat (CHUNK_INDEX_SIZE + DATA_INDEX_SIZE + 8 * NrOfColumns t))
       = with_hash (chunk_index_body t chunkPos)
           ++ with_hash (data_chunk_body (positionData_of t compress))
    /\ length (with_hash (chunk_index_body t chunkPos))
       = Z.to_nat CHUNK_INDEX_SIZE
    /\ load_u64 content (chunkPos - CHUNK_INDEX_SIZE + 32) = chunkPos
    /\ load_u64 content (chunkPos + DATA_INDEX_SIZE) = positionData0
    /\ nth 0 (positionData_of t compress) 0 = positionData0
    /\ chunkPos - CHUNK_INDEX_SIZE
       + (CHUNK_INDEX_SIZE + DATA_INDEX_SIZE + 8 * NrOfColumns t)
       = positionData0
    /\ sub content (Z.to_nat positionData0)
         (length (nth 0 (payloads t compress) []))
       = nth 0 (payloads t compress) [].
Proof.
  intros Hw Hcan Hfits.
  set (ci := chunk_index_start t).
  exists (written_file t compress), (Z.of_nat ci + 96),
    (Z.of_nat ci + 120 + 8 * NrOfColumns t).
  pose proof (proj1 (writable_cols t Hw)) as Hcols.
  destruct (written_chunk_fields t compress Hcols Hfits)
    as (_ & Hcp & _ & _ & _ & Hpd).
  fold ci in Hcp, Hpd.
  destruct (written_file_payloads t compress) as (hs & Hsplit & Hhs).
  fold ci in Hhs.
  assert (HiP : (0 < length (payloads t compress))%nat).
  { unfold payloads. rewrite length_map. unfold NrOfColumns in Hcols. lia. }
  pose proof (concat_split_nth (payloads t compress) 0 HiP) as Hcat.
  cbn [firstn concat app] in Hcat.
  unfold CHUNK_INDEX_SIZE, DATA_INDEX_SIZE.
  split; [|split; [|split; [|split; [|split; [|split;
    [|split; [|split; [|split]]]]]]]].
  - apply fstWrite_layout;
      [assumption | assumption | apply (file_fits_start _ _ Hfits)].
  - lia.
  - lia.
  - replace (Z.to_nat (Z.of_nat ci + 96 - 96)) with ci by lia.
    unfold written_file. fold ci.
    replace (metadata t ++ names_payload t
               ++ with_hash (chunk_index_body t (Z.of_nat ci + 96))
               ++ with_hash (data_chunk_body (positionData_of t compress))
               ++ concat (payloads t compress))
      with ((metadata t ++ names_payload t)
              ++ (with_hash (chunk_index_body t (Z.of_nat ci + 96))
                    ++ with_hash
                         (data_chunk_body (positionData_of t compress)))
              ++ concat (payloads t compress))
      by (rewrite <- !app_assoc; reflexivity).
    rewrite sub_skip by (rewrite length_app; subst ci;
                         unfold chunk_index_start; lia).
    apply sub_here.
    + rewrite length_app. subst ci. unfold chunk_index_start. lia.
    + rewrite !length_app, !length_with_hash, length_chunk_index_body,
        length_data_chunk_body.
      unfold positionData_of. rewrite length_positions.
      unfold payloads. rewrite length_map. unfold NrOfColumns. lia.
  - rewrite length_with_hash, length_chunk_index_body. reflexivity.
  - replace (Z.of_nat ci + 96 - 96 + 32) with (Z.of_nat ci + 32) by lia.
    exact Hcp.
  - replace (Z.of_nat ci + 96 + 24) with (Z.of_nat ci + 120) by lia.
    exact Hpd.
  - unfold positionData_of. rewrite positions_nth by exact HiP.
    cbn [firstn concat length]. fold ci. unfold NrOfColumns. lia.
  - lia.
  - rewrite Hsplit. unfold NrOfColumns.
    replace (Z.to_nat (Z.of_nat ci + 120 + 8 * Z.of_nat (length (Columns t))))
      with (length hs) by lia.
    rewrite sub_skip by lia. rewrite Hcat at 1. apply sub_here; lia.
Qed.

End ChunkIndexClaims.

Lemma fstWrite_chunk_index_before_first_payload_witness :
  exists content chunkPos positionData0,
    fstWrite (E := ref_env) no_file sample_table 50
    = (inr tt, {| fileData := Some content; canWrite := true |})
    /\ chunkPos = positionData0 - 8 * NrOfColumns sample_table
                  - DATA_INDEX_SIZE
    /\ load_u64 content (chunkPos - CHUNK_INDEX_SIZE + 32) = chunkPos
    /\ load_u64 content (chunkPos + DATA_INDEX_SIZE) = positionData0.
Proof.
  destruct (fstWrite_chunk_index_before_first_payload (E := ref_env) no_file
              sample_table 50 sample_table_writable eq_refl sample_file_fits)
    as (content & chunkPos & positionData0 & Hw & Hcp & _ & _ & _ & Hf & Hp
        & _).
  exists content, chunkPos, positionData0.
  split; [exact Hw|]. split; [exact Hcp|]. split; [exact Hf | exact Hp].
Defined.

(** C3.  The chunk index of the file written for the sample table, on a heap
    whose fresh blocks hold [0xff]: [nrOfChunkSlots] is 4 and the first slot
    of [chunkPos] and of [chunkRows] holds the chunk position and the number
    of rows, but the slots 1 to 3 of both arrays hold [0xffffffffffffffff],
    the bytes of the uninitialised [new char[chunkIndexSize]], and not
    zero. *)
Theorem fstWrite_chunk_slots_not_zeroed :
  exists content,
    fstWrite (E := ref_env) no_file sample_table 50
    = (inr tt, {| fileData := Some content; canWrite := true |})
    /\ let ci := Z.of_nat (chunk_index_start (E := ref_env) sample_table) in
       load_u16 content (ci + 24) = 4
       /\ load_u64 content (ci + 32) = ci + CHUNK_INDEX_SIZE
       /\ load_u64 content (ci + 64) = NrOfRows sample_table
       /\ map (fun slot => load_u64 content (ci + 32 + 8 * slot)) [1; 2; 3]
          = [18446744073709551615; 18446744073709551615;
             18446744073709551615]
       /\ map (fun slot => load_u64 content (ci + 64 + 8 * slot)) [1; 2; 3]
          = [18446744073709551615; 18446744073709551615;
             18446744073709551615].
Proof.
  eexists. split; [vm_compute; reflexivity|].
  vm_compute. repeat split.
Qed.

(** ** Reading rows of a written file *)

Section ReadRowsWritten.
Context {E : Env} (HC : CodecContract E).





(** C1.  Round trip of a table of the data model through [fstWrite] and a
    full [fstRead], for codecs that return what they stored: the table read
    back has the rows and columns of the table written, equal data per
    column (with it the encoding tag of strings, the bit patterns of
    doubles and the NA markers), the key columns in order, and the
    annotation of every INT_32 and DOUBLE_64 column; for a column of another
    type [fstRead] hands back no annotation. *)
Theorem fstRead_fstWrite_data_keys_annotations (fs : FileSystem)
    (t : IFstTable) (compress : Z) :
  table_ok t -> 0 <= compress <= 100 -> file_fits t compress ->
  canWrite fs = true ->
  exists fs' out,
    fstWrite fs t compress = (inr tt, fs')
    /\ fstRead fs' None 1 (-1) [] = inr out
    /\ rNrOfSelect (outTable out) = NrOfColumns t
    /\ rLength (outTable out) = NrOfRows t
    /\ map rData (rColumns (outTable out)) = map colData (Columns t)
    /\ outKeyIndex out = KeyColumns t
    /\ Forall2 (fun col column =>
                  match colData col with
                  | Int32Data _ | DoubleData _ =>
                      rAnnotation column = Some (colAnnotation col)
                  | _ => rAnnotation column = None
                  end)
         (Columns t) (rColumns (outTable out)).
Proof.
  intros Hok Hc Hfits Hw.
  exists {| fileData := Some (written_file t compress);
            canWrite := canWrite fs |}, (table_read_back t).
  split; [|split; [|split; [|split; [|split; [|split]]]]].
  - apply fstWrite_layout;
      [apply table_ok_writable; exact Hok | exact Hw
       | apply (file_fits_start t compress); exact Hfits].
  - apply (fstRead_written HC _ t compress Hok Hc Hfits). reflexivity.
  - reflexivity.
  - reflexivity.
  - cbn [table_read_back outTable rColumns]. rewrite map_map. reflexivity.
  - reflexivity.
  - cbn [table_read_back outTable rColumns].
    induction (Columns t) as [|col cols IH]; constructor; [|exact IH].
    unfold column_read_back. cbn [rAnnotation].
    destruct (colData col); reflexivity.
Qed.

End ReadRowsWritten.



Lemma fstRead_fstWrite_data_keys_annotations_witness :
  exists fs' out,
    fstWrite (E := ref_env) no_file sample_table 50 = (inr tt, fs')
    /\ fstRead (E := ref_env) fs' None 1 (-1) [] = inr out
    /\ map rData (rColumns (outTable out)) = map colData (Columns sample_table)
    /\ outKeyIndex out = [0; 2].
Proof.
  destruct (fstRead_fstWrite_data_keys_annotations (E := ref_env)
              ref_env_contract no_file sample_table 50 sample_table_ok)
    as (fs' & out & Hw & Hr & _ & _ & Hd & Hk & _).
  - lia.
  - exact sample_file_fits.
  - reflexivity.
  - exists fs', out. split; [exact Hw|]. split; [exact Hr|].
    split; [exact Hd | exact Hk].
Defined.

Lemma fstRead_fstWrite_annotation_counterexample :
  exists out,
    fstRead (E := ref_env)
      (snd (fstWrite (E := ref_env) no_file annotated_int64_table 0))
      None 1 (-1) []
    = inr out
    /\ ~ round_trip_equal annotated_int64_table out.
Proof.
  eexists. split; [vm_compute; reflexivity|].
  unfold round_trip_equal. intros (_ & _ & H). vm_compute in H.
  discriminate H.
Qed.
